(** * azpiano: the input-to-sound pipeline of [src/js/index.js]

    A shallow embedding of the JavaScript classes [Base64Decoder],
    [AudioPlayer], [JSONAsset], [AudioAsset], [Keyboard], [Logger] and [App],
    and of the part of the host (promises, timers, fetch, Web Audio) that
    these classes drive.

    Conventions.
    - JS strings are [string]; a code unit outside ASCII behaves, for the
      decoder, like any other character outside its alphabet.
    - JS numbers that hold lengths and indices are [Z]; the quotient
      [input.length / 4 * 3] and audio-clock times are [Q] (a double holds
      [n / 4 * 3] exactly for every string length a browser allows).
    - A JS object used as a dictionary by the program ([sources], [_],
      [keys], [codesNotes]) is a [gmap]; a parsed JSON object that the
      program enumerates keeps its keys in order, as an association list.
      Property names are note and key names: they never collide with the
      members of [Object.prototype].
    - A method that can throw returns an [outcome]: the state it reached
      and either its result or the thrown value. *)

From Stdlib Require Import ZArith QArith Qround String Ascii List Lia Lqa DecimalString.
From stdpp Require Import base option list gmap strings.

Local Open Scope string_scope.
Local Open Scope Z_scope.
Local Open Scope list_scope.

(** ** Base64Decoder *)

Module Base64Decoder.

(** [this.keyStr] *)
Definition keyStr : string :=
  "ABCDEFGHIJKLMNOPQRSTUVWXYZabcdefghijklmnopqrstuvwxyz0123456789+/=".

(** [s.charAt(i)]: the one-character string at [i], or the empty string. *)
Definition charAt (s : string) (i : Z) : string :=
  if i <? 0 then ""
  else match String.get (Z.to_nat i) s with
       | Some c => String c ""
       | None => ""
       end.

(** [s.indexOf(t)]: first position of [t] in [s], or -1. *)
Definition indexOf (s t : string) : Z :=
  match String.index 0 t s with
  | Some n => Z.of_nat n
  | None => -1
  end.

(** The character class [A-Za-z0-9+/=] of the regular expression. *)
Definition in_class (c : ascii) : bool :=
  let n := Z.of_nat (nat_of_ascii c) in
  ((65 <=? n) && (n <=? 90)) || ((97 <=? n) && (n <=? 122))
  || ((48 <=? n) && (n <=? 57)) || (n =? 43) || (n =? 47) || (n =? 61).

(** [input.replace(/[^A-Za-z0-9+/=]/g, "")] *)
Fixpoint strip (input : string) : string :=
  match input with
  | EmptyString => EmptyString
  | String c rest => if in_class c then String c (strip rest) else strip rest
  end.

(** The loop of [removePaddingChars]; [n] is [i + 1]. *)
Fixpoint removePaddingChars_from (input : string) (n : nat) : string :=
  match n with
  | O => input
  | S i =>
      if String.eqb (charAt input (Z.of_nat i)) "="
      then removePaddingChars_from input i
      else substring 0 (S i) input
  end.

Definition removePaddingChars (input : string) : string :=
  removePaddingChars_from input (String.length input).

(** [uarray[i] = v] on a [Uint8Array]: the value is reduced modulo 256,
    a store outside the array is dropped. *)
Definition store (u : list Z) (i : Z) (v : Z) : list Z :=
  if i <? 0 then u else <[Z.to_nat i := v mod 256]> u.

(** The four symbol indices read by one turn of the loop. *)
Definition enc (input : string) (j : Z) : Z := indexOf keyStr (charAt input j).

Definition chr1 (enc1 enc2 : Z) : Z := Z.lor (Z.shiftl enc1 2) (Z.shiftr enc2 4).
Definition chr2 (enc2 enc3 : Z) : Z :=
  Z.lor (Z.shiftl (Z.land enc2 15) 4) (Z.shiftr enc3 2).
Definition chr3 (enc3 enc4 : Z) : Z := Z.lor (Z.shiftl (Z.land enc3 3) 6) enc4.

(** One turn of the loop body, lines 58-73. *)
Definition decode_group (input : string) (i j : Z) (uarray : list Z) : list Z :=
  let enc1 := enc input j in
  let enc2 := enc input (j + 1) in
  let enc3 := enc input (j + 2) in
  let enc4 := enc input (j + 3) in
  let uarray := store uarray i (chr1 enc1 enc2) in
  let uarray := if enc3 =? 64 then uarray else store uarray (i + 1) (chr2 enc2 enc3) in
  let uarray := if enc4 =? 64 then uarray else store uarray (i + 2) (chr3 enc3 enc4) in
  uarray.

(** [const bytes = input.length / 4 * 3] *)
Definition bytes_of (input : string) : Q :=
  (inject_Z (Z.of_nat (String.length input)) / 4 * 3)%Q.

(** [i < bytes] *)
Definition Qltb (x y : Q) : bool := negb (Qle_bool y x).

(** [for (let i = 0; i < bytes; i += 3)], with [j] advancing by four.
    [None] when the fuel runs out before the loop condition fails. *)
Fixpoint decode_loop (fuel : nat) (input : string) (bytes : Q) (i j : Z)
    (uarray : list Z) : option (list Z) :=
  if Qltb (inject_Z i) bytes then
    match fuel with
    | O => None
    | S fuel' =>
        decode_loop fuel' input bytes (i + 3) (j + 4) (decode_group input i j uarray)
    end
  else Some uarray.

(** [new ArrayBuffer(bytes)]: [bytes] is truncated to an integer and the
    buffer is zero-filled. *)
Definition newArrayBuffer (bytes : Q) : list Z :=
  replicate (Z.to_nat (Qfloor bytes)) 0.

(** The input as the loop sees it, after lines 47-48. *)
Definition cleaned (input : string) : string := removePaddingChars (strip input).

Definition decode_from (uarray : list Z) (input : string) : option (list Z) :=
  let input := cleaned input in
  decode_loop (S (String.length input)) input (bytes_of input) 0 0 uarray.

Definition decode (input : string) : option (list Z) :=
  decode_from (newArrayBuffer (bytes_of (cleaned input))) input.

(** *** Notions of the specification *)

(** The padding symbols at the end of a string: all of it when it is
    nothing but padding, else those at the end of its tail. *)
Definition is_pad (c : ascii) : bool := Ascii.eqb c "="%char.

Fixpoint all_pads (s : string) : bool :=
  match s with
  | EmptyString => true
  | String c rest => is_pad c && all_pads rest
  end.

Fixpoint trailing_pads (s : string) : nat :=
  match s with
  | EmptyString => O
  | String c rest => if all_pads s then S (String.length rest) else trailing_pads rest
  end.

(** The index of the [k]-th symbol of group [g], and the cell [idx] of an
    array after a store of [v]. *)
Definition sym (input : string) (g : nat) (k : Z) : Z :=
  enc input (4 * Z.of_nat g + k).

Definition stored (uarray : list Z) (idx : nat) (v : Z) : option Z :=
  (fun _ => v mod 256) <$> uarray !! idx.

(** What the loop leaves in cell [idx] of the array [u] it started from:
    group [idx / 3] runs when it starts before the end of the input, its
    first byte is stored always, its second unless the third symbol is
    the padding symbol, its third unless the fourth is. *)
Definition group_cell (input : string) (u : list Z) (idx : nat) : option Z :=
  let g := (idx / 3)%nat in
  if 4 * Z.of_nat g <? Z.of_nat (String.length input) then
    match (idx mod 3)%nat with
    | 0%nat => stored u idx (chr1 (sym input g 0) (sym input g 1))
    | 1%nat => if sym input g 2 =? 64 then u !! idx
               else stored u idx (chr2 (sym input g 1) (sym input g 2))
    | _ => if sym input g 3 =? 64 then u !! idx
           else stored u idx (chr3 (sym input g 2) (sym input g 3))
    end
  else u !! idx.

End Base64Decoder.


(** ** JavaScript values and control *)

(** The JSON documents of the external interface: the sample manifest
    ([notes-buffers.json]), a table from names to strings
    ([notes-digits.json], [codes-chars.json]), a table of such tables
    ([notes-lily.json]) and a keyboard layout, rows of [[code, note]]
    pairs. *)
Inductive document :=
| JBank (entries : list (string * string))
| JTable (table : gmap string string)
| JTables (tables : gmap string (gmap string string))
| JLayout (rows : list (list (string * string))).

(** A [Response] of [window.fetch]: [ok] is set by the browser for a status
    from 200 to 299; [body] is the document that [json()] parses, [None]
    when the body is no JSON. *)
Record Response := { ok : bool; status : Z; body : option document }.

(** The values that the program passes around, stores in the bank, throws
    and settles promises with. *)
#[local] Unset Elimination Schemes.
Inductive value :=
| VUndefined
| VString (s : string)
| VJson (j : document)
| VResponse (response : Response)
| VArrayBuffer (bytes : list Z)
| VAudioBuffer (data : list Z)
| VError (name message : string)
| VArray (items : list value)
| VPromise (p : nat).
#[local] Set Elimination Schemes.

Definition TypeError (message : string) : value := VError "TypeError" message.

(** [`${v}`]: an error shows its name and message, an array its elements
    between commas. *)
Fixpoint toString (v : value) : string :=
  match v with
  | VUndefined => "undefined"
  | VString s => s
  | VError name message => name +:+ ": " +:+ message
  | VResponse _ => "[object Response]"
  | VArrayBuffer _ => "[object ArrayBuffer]"
  | VAudioBuffer _ => "[object AudioBuffer]"
  | VPromise _ => "[object Promise]"
  | VJson (JLayout rows) =>
      String.concat ","
        (map (fun row => String.concat "," (map (fun k => fst k +:+ "," +:+ snd k) row)) rows)
  | VJson _ => "[object Object]"
  | VArray items =>
      String.concat ","
        (map (fun item => match item with
                          | VUndefined => ""
                          | _ => toString item
                          end) items)
  end.

(** A computation on a state [S] that returns an [A] or throws; either way
    the state it reached is kept, as a JS exception keeps the mutations made
    before it. *)
Inductive outcome (S A : Type) :=
| Done (a : A) (s : S)
| Threw (e : value) (s : S).
Arguments Done {S A} a s.
Arguments Threw {S A} e s.

Definition M (S A : Type) : Type := S -> outcome S A.

Definition ret {S A} (a : A) : M S A := fun s => Done a s.
Definition throw {S A} (e : value) : M S A := fun s => Threw e s.
Definition bind {S A B} (c : M S A) (k : A -> M S B) : M S B :=
  fun s => match c s with
           | Done a s' => k a s'
           | Threw e s' => Threw e s'
           end.
Definition get {S} : M S S := fun s => Done s s.
Definition modify {S} (f : S -> S) : M S unit := fun s => Done tt (f s).

(** Run a computation on a component [T] of the state [S]. *)
Definition zoom {S T A} (proj : S -> T) (inj : T -> S -> S) (c : M T A) : M S A :=
  fun s => match c (proj s) with
           | Done a t => Done a (inj t s)
           | Threw e t => Threw e (inj t s)
           end.

Notation "'do' x <- c ;; k" := (bind c (fun x => k))
  (at level 10, x name, c at level 99, k at level 200).

(** The state a computation leaves, whether it returned or threw. *)
Definition final {S A} (o : outcome S A) : S :=
  match o with Done _ s | Threw _ s => s end.

(** ** AudioPlayer *)

Module AudioPlayer.

(** An [AudioBufferSourceNode] of the context. [note] is bookkeeping of
    the model: the id for which [play] made the node. *)
Record SourceNode := {
  buffer : option value;
  connected : bool;
  startAt : option Q;
  stopAt : option Q;
  note : string
}.

Record t := {
  currentTime : Q;               (* this.context.currentTime *)
  gain : Q;                      (* this.gainNode.gain.value *)
  nodes : list SourceNode;       (* the source nodes the context has made *)
  sources : gmap string nat;     (* this.sources: id -> node *)
  stopDelay : Q
}.

(** [opts.stopDelay || 0.3] *)
Definition constructor (opts_stopDelay : option Q) : t :=
  {| currentTime := 0;
     gain := 10;
     nodes := [];
     sources := ∅;
     stopDelay := match opts_stopDelay with
                  | Some d => if Qeq_bool d 0 then (3 # 10)%Q else d
                  | None => (3 # 10)%Q
                  end |}.

Definition set_nodes (f : list SourceNode -> list SourceNode) (p : t) : t :=
  {| currentTime := currentTime p; gain := gain p; nodes := f (nodes p);
     sources := sources p; stopDelay := stopDelay p |}.
Definition set_sources (f : gmap string nat -> gmap string nat) (p : t) : t :=
  {| currentTime := currentTime p; gain := gain p; nodes := nodes p;
     sources := f (sources p); stopDelay := stopDelay p |}.

(** The audio clock moves on between events. *)
Definition advance (dt : Q) (p : t) : t :=
  {| currentTime := (currentTime p + dt)%Q; gain := gain p; nodes := nodes p;
     sources := sources p; stopDelay := stopDelay p |}.

Definition createBufferSource (id : string) : SourceNode :=
  {| buffer := None; connected := false; startAt := None; stopAt := None; note := id |}.
Definition set_buffer (b : value) (n : SourceNode) : SourceNode :=
  {| buffer := Some b; connected := connected n; startAt := startAt n;
     stopAt := stopAt n; note := note n |}.
Definition connect (n : SourceNode) : SourceNode :=
  {| buffer := buffer n; connected := true; startAt := startAt n;
     stopAt := stopAt n; note := note n |}.
Definition start (when : Q) (n : SourceNode) : SourceNode :=
  {| buffer := buffer n; connected := connected n; startAt := Some when;
     stopAt := stopAt n; note := note n |}.
Definition stop (when : Q) (n : SourceNode) : SourceNode :=
  {| buffer := buffer n; connected := connected n; startAt := startAt n;
     stopAt := Some when; note := note n |}.

Definition play (id : string) (buf : value) (p : t) : t :=
  match sources p !! id with
  | Some _ => p
  | None =>
      let n := length (nodes p) in
      let p := set_nodes (fun ns => (ns ++ [createBufferSource id])) p in
      let p := set_sources (insert id n) p in
      let p := set_nodes (alter (set_buffer buf) n) p in
      let p := set_nodes (alter connect n) p in
      set_nodes (alter (start (currentTime p)) n) p
  end.

Definition pause (id : string) (p : t) : t :=
  match sources p !! id with
  | None => p
  | Some n =>
      let p := set_nodes (alter (stop (currentTime p + stopDelay p)%Q) n) p in
      set_sources (delete id) p
  end.

(** [for (const id in this.sources) this.pause(id)] *)
Definition pauseAll (p : t) : t :=
  foldl (fun p id => pause id p) p (map fst (map_to_list (sources p))).

(** A voice is live from its start until a stop is scheduled for it. *)
Definition live (n : SourceNode) : bool :=
  match startAt n, stopAt n with
  | Some _, None => true
  | _, _ => false
  end.

Definition voices (id : string) (p : t) : list SourceNode :=
  filter (fun n => live n = true /\ note n = id) (nodes p).

(** The calls a client can make, and time passing. *)
Inductive op :=
| Play (id : string) (buf : value)
| Pause (id : string)
| PauseAll
| Advance (dt : Q).

Definition step (p : t) (o : op) : t :=
  match o with
  | Play id buf => play id buf p
  | Pause id => pause id p
  | PauseAll => pauseAll p
  | Advance dt => advance dt p
  end.

Definition run (ops : list op) (p : t) : t := foldl step p ops.

(** The bookkeeping of [sources]: every entry is a live node made for its
    id, and every live node is the entry of its id. *)
Definition inv (p : t) : Prop :=
  (forall id n, sources p !! id = Some n ->
     exists nd, nodes p !! n = Some nd /\ live nd = true /\ note nd = id)
  /\ (forall n nd, nodes p !! n = Some nd -> live nd = true ->
        sources p !! note nd = Some n).

End AudioPlayer.

(** ** Settings, assets *)

(** [this.settings.params] *)
Record Params := { display : string; output : string; layout : string }.

(** The formats of the documents, and of the bank that the manifest
    becomes: its entries in order, each a string until it is decoded. *)
Abbreviation Table := (gmap string string).
Abbreviation Rows := (list (list (string * string))).
Abbreviation Bank := (list (string * value)).

(** A [JSONAsset] whose document has the format [J]; [None] is [null]. *)
Record JSONAsset (J : Type) := {
  path : string;
  json : option J;
  error : option value
}.
Arguments path {J} _.
Arguments json {J} _.
Arguments error {J} _.

Definition set_json {J} (j : option J) (a : JSONAsset J) : JSONAsset J :=
  {| path := path a; json := j; error := error a |}.
Definition set_error {J} (e : option value) (a : JSONAsset J) : JSONAsset J :=
  {| path := path a; json := json a; error := e |}.

Definition newAsset {J} (p : string) : JSONAsset J :=
  {| path := p; json := None; error := None |}.

(** [asset.json[k]] on a table: a [TypeError] while the document is [null],
    [None] for [undefined]. *)
Definition table_get {S} (a : JSONAsset (gmap string string)) (k : string) :
    M S (option string) :=
  match json a with
  | None => throw (TypeError "Cannot read properties of null")
  | Some t => ret (t !! k)
  end.

(** [for (const x of xs) body(x)] and its indexed form; a throw ends the loop. *)
Fixpoint for_each {S A} (xs : list A) (body : A -> M S unit) : M S unit :=
  match xs with
  | [] => ret tt
  | x :: rest => do _ <- body x ;; for_each rest body
  end.

Fixpoint for_index {S A} (i : Z) (xs : list A) (body : Z -> A -> M S unit) : M S unit :=
  match xs with
  | [] => ret tt
  | x :: rest => do _ <- body i x ;; for_index (i + 1) rest body
  end.

(** ** Keyboard *)

Module Keyboard.

Record Element := { id : string; classList : list string; innerHTML : string }.

Record t := {
  layoutAsset : string;            (* the key of keyboardLayouts it was built for *)
  container : list (list string);  (* the rows drawn, as the ids of their keys *)
  keys : gmap string Element;
  marks : gmap string bool         (* this._ *)
}.

Definition constructor (layoutName : string) : t :=
  {| layoutAsset := layoutName; container := []; keys := ∅; marks := ∅ |}.

Definition set_container (f : list (list string) -> list (list string)) (k : t) : t :=
  {| layoutAsset := layoutAsset k; container := f (container k);
     keys := keys k; marks := marks k |}.
Definition set_keys (f : gmap string Element -> gmap string Element) (k : t) : t :=
  {| layoutAsset := layoutAsset k; container := container k;
     keys := f (keys k); marks := marks k |}.
Definition set_marks (f : gmap string bool -> gmap string bool) (k : t) : t :=
  {| layoutAsset := layoutAsset k; container := container k;
     keys := keys k; marks := f (marks k) |}.

(** [classList.add] and [classList.remove] *)
Definition classList_add (c : string) (e : Element) : Element :=
  {| id := id e;
     classList := if bool_decide (c ∈ classList e) then classList e
                  else (classList e ++ [c]);
     innerHTML := innerHTML e |}.
Definition classList_remove (c : string) (e : Element) : Element :=
  {| id := id e;
     classList := filter (fun d => d <> c) (classList e);
     innerHTML := innerHTML e |}.

(** [this.keys[code].classList.<f>(...)] *)
Definition with_key (code : string) (f : Element -> Element) : M t unit :=
  do k <- get ;;
  match keys k !! code with
  | None => throw (TypeError "Cannot read properties of undefined (reading 'classList')")
  | Some e => modify (set_keys (insert code (f e)))
  end.

(** [this._[code]] taken as a condition *)
Definition pressed (code : string) (k : t) : bool :=
  match marks k !! code with
  | Some true => true
  | _ => false
  end.

Definition press (code : string) : M t unit :=
  do k <- get ;;
  if pressed code k then ret tt
  else
    do _ <- modify (set_marks (insert code true)) ;;
    with_key code (classList_add "key-pressed").

Definition release (code : string) : M t unit :=
  do k <- get ;;
  if negb (pressed code k) then ret tt
  else
    do _ <- modify (set_marks (insert code false)) ;;
    do _ <- with_key code (classList_remove "key-pressed") ;;
    modify (set_marks (delete code)).

Definition releaseAll : M t unit :=
  do k <- get ;;
  for_each (map fst (map_to_list (marks k))) release.

(** Every key that is held has its element on the page. *)
Definition drawn (k : t) : Prop :=
  forall c, pressed c k = true -> is_Some (keys k !! c).

(** The width class of the key at row [x], column [y] of a row of
    [length] keys. *)
Definition flex_item (layout : string) (x y length : Z) : string :=
  if (x =? 0) && (y =? length - 1) then
    if String.eqb layout "hhkb" || String.eqb layout "jp"
    then "flex-item-4" else "flex-item-8"
  else if (x =? 1) && (y =? 0) then "flex-item-6"
  else if (x =? 1) && (y =? length - 1) then
    if String.eqb layout "jp" then "flex-item-6" else "flex-item-6"
  else if (x =? 2) && (y =? 0) then "flex-item-7"
  else if (x =? 2) && (y =? length - 1) then
    if String.eqb layout "jp" then "flex-item-5" else "flex-item-9"
  else if (x =? 3) && (y =? 0) then "flex-item-9"
  else if (x =? 3) && (y =? length - 1) then
    if String.eqb layout "jp" then "flex-item-7" else "flex-item-11"
  else if x =? 4 then "flex-item-24"
  else "flex-item-4".

(** The upper label of a key on the [jp] layout. *)
Definition jp_upper (code : string) (upper : option string) : option string :=
  if String.eqb code "Equal" then Some "^"
  else if String.eqb code "BracketLeft" then Some "@"
  else if String.eqb code "Quote" then Some ":"
  else if String.eqb code "Backslash" then Some "]"
  else upper.

Definition show (s : option string) : string := default "undefined" s.

Section Render.
(** [this.app.settings.params], [this.codesChars], [this.notesDigits] and
    [this.layoutAsset], which the keyboard shares with the application. *)
Variable params : Params.
Variables codesChars notesDigits : JSONAsset (gmap string string).
Variable layoutDocument : option (JSONAsset (list (list (string * string)))).

Definition createKey (key : string * string) (x y length : Z) : M t string :=
  do upper <- table_get codesChars (fst key) ;;
  let upper := if String.eqb (layout params) "jp" then jp_upper (fst key) upper
               else upper in
  do lower <- (if String.eqb (display params) "digit"
            then table_get notesDigits (snd key)
            else ret (Some (snd key))) ;;
  let element :=
    {| id := fst key;
       classList := ["card"; "key"; "center"; flex_item (layout params) x y length];
       innerHTML := show upper +:+ "<br>" +:+ show lower |} in
  do _ <- modify (set_keys (insert (fst key) element)) ;;
  ret (fst key).

(** [for (let y = 0; y < row.length; ++y) element.appendChild(...)] *)
Fixpoint createRow_from (keys : list (string * string)) (x y length : Z)
    (element : list string) : M t (list string) :=
  match keys with
  | [] => ret element
  | key :: rest =>
      do k <- createKey key x y length ;;
      createRow_from rest x (y + 1) length (element ++ [k])
  end.

Definition createRow (row : list (string * string)) (x : Z) : M t (list string) :=
  createRow_from row x 0 (Z.of_nat (List.length row)) [].

Definition render : M t unit :=
  do _ <- modify (set_container (fun _ => [])) ;;
  match layoutDocument with
  | None => throw (TypeError "Cannot read properties of undefined (reading 'json')")
  | Some asset =>
      match json asset with
      | None => throw (TypeError "Cannot read properties of null (reading 'length')")
      | Some rows =>
          for_index 0 rows
            (fun x row =>
               do r <- createRow row x ;;
               modify (set_container (fun c => (c ++ [r]))))
      end
  end.
End Render.

End Keyboard.

(** ** Logger *)

Module Logger.

Record t := {
  enabled : bool;
  tokens : list (option string);   (* this._; [None] is undefined *)
  textarea : string;               (* this.textarea.value *)
  checked : bool                   (* this.switchCheckbox.checked *)
}.

Definition set_enabled (b : bool) (l : t) : t :=
  {| enabled := b; tokens := tokens l; textarea := textarea l; checked := checked l |}.
Definition set_tokens (f : list (option string) -> list (option string)) (l : t) : t :=
  {| enabled := enabled l; tokens := f (tokens l); textarea := textarea l;
     checked := checked l |}.
Definition set_textarea (s : string) (l : t) : t :=
  {| enabled := enabled l; tokens := tokens l; textarea := s; checked := checked l |}.
Definition set_checked (b : bool) (l : t) : t :=
  {| enabled := enabled l; tokens := tokens l; textarea := textarea l; checked := b |}.

(** The stored log is the token array itself: [JSON.parse] of the blob
    that [JSON.stringify] made of it. *)
Definition import (stored : option (list (option string))) (l : t) : t :=
  match stored with
  | Some ts => set_tokens (fun _ => ts) l
  | None => l
  end.

Definition export (l : t) : list (option string) := tokens l.

Section Output.
Variable output : string.   (* this.app.settings.params.output *)

Definition join (l : t) : string :=
  String.concat (if String.eqb output "digit" then "" else " ")
                (map (default "") (tokens l)).

Definition render (l : t) : t := set_textarea (join l +:+ "_") l.

Definition space (l : t) : t :=
  if enabled l then render (set_tokens (fun ts => (ts ++ [Some " "])) l) else l.

Definition return_ (l : t) : t :=
  if enabled l
  then render (set_tokens (fun ts => (ts ++ [Some (String "010"%char "")])) l)
  else l.

Definition delete (l : t) : t :=
  if enabled l then render (set_tokens (fun ts => removelast ts) l) else l.

Definition clear (l : t) : t :=
  if enabled l then render (set_tokens (fun _ => []) l) else l.

Definition insert (text : option string) (l : t) : t :=
  if enabled l then render (set_tokens (fun ts => (ts ++ [text])) l) else l.
End Output.

(** [switch(event)]: [None] is a call without an event, [Some b] an event
    whose target is checked or not. *)
Definition switch (event : option bool) (l : t) : t :=
  match event with
  | None => set_checked (negb (checked l)) l
  | Some b => set_enabled b l
  end.

(** [checkbox] is the state of the switch in the page. *)
Definition constructor (checkbox : bool) : t :=
  {| enabled := true; tokens := []; textarea := ""; checked := checkbox |}.

End Logger.

(** ** App *)

(** [App.WAITING = 1], [App.LOADING = 2], [App.RUNNING = 3] *)
Inductive State := WAITING | LOADING | RUNNING.

(** The elements of the page that the application shows, hides and writes
    to: for the first four whether they are visible, for [total], [loaded]
    and [error] their text. *)
Record Page := {
  dialogMask : bool;
  waitingCard : bool;
  loadingCard : bool;
  errorText : bool;
  totalText : string;
  loadedText : string;
  errorMessage : string
}.
Definition page_dialogMask (v : bool) (p : Page) : Page :=
  {| dialogMask := v; waitingCard := waitingCard p; loadingCard := loadingCard p;
     errorText := errorText p; totalText := totalText p; loadedText := loadedText p;
     errorMessage := errorMessage p |}.
Definition page_waitingCard (v : bool) (p : Page) : Page :=
  {| dialogMask := dialogMask p; waitingCard := v; loadingCard := loadingCard p;
     errorText := errorText p; totalText := totalText p; loadedText := loadedText p;
     errorMessage := errorMessage p |}.
Definition page_loadingCard (v : bool) (p : Page) : Page :=
  {| dialogMask := dialogMask p; waitingCard := waitingCard p; loadingCard := v;
     errorText := errorText p; totalText := totalText p; loadedText := loadedText p;
     errorMessage := errorMessage p |}.
Definition page_errorText (v : bool) (p : Page) : Page :=
  {| dialogMask := dialogMask p; waitingCard := waitingCard p; loadingCard :=
     loadingCard p; errorText := v; totalText := totalText p; loadedText := loadedText
     p; errorMessage := errorMessage p |}.
Definition page_totalText (v : string) (p : Page) : Page :=
  {| dialogMask := dialogMask p; waitingCard := waitingCard p; loadingCard :=
     loadingCard p; errorText := errorText p; totalText := v; loadedText := loadedText
     p; errorMessage := errorMessage p |}.
Definition page_loadedText (v : string) (p : Page) : Page :=
  {| dialogMask := dialogMask p; waitingCard := waitingCard p; loadingCard :=
     loadingCard p; errorText := errorText p; totalText := totalText p; loadedText :=
     v; errorMessage := errorMessage p |}.
Definition page_errorMessage (v : string) (p : Page) : Page :=
  {| dialogMask := dialogMask p; waitingCard := waitingCard p; loadingCard :=
     loadingCard p; errorText := errorText p; totalText := totalText p; loadedText :=
     loadedText p; errorMessage := v |}.

(** The application object. [loaded] is the counter that [loadAssetsAsync]
    closes over and [storage] the item [log] of [window.localStorage];
    [player] is [null] until [start], [codesNotes] undefined until
    [updateKeyboardLayout]. *)
Record App := {
  page : Page;
  keyboardLayouts : list (string * JSONAsset Rows);
  player : option AudioPlayer.t;
  notesBuffers : JSONAsset Bank;
  notesDigits : JSONAsset Table;
  notesLily : JSONAsset (gmap string Table);
  codesChars : JSONAsset Table;
  state : State;
  settings : Params;
  logger : Logger.t;
  keyboard : Keyboard.t;
  codesNotes : option Table;
  loaded : Z;
  storage : option (list (option string))
}.

Definition set_page (f : Page -> Page) (a : App) : App :=
  {| page := f (page a); keyboardLayouts := keyboardLayouts a; player := player a;
     notesBuffers := notesBuffers a; notesDigits := notesDigits a;
     notesLily := notesLily a; codesChars := codesChars a; state := state a;
     settings := settings a; logger := logger a; keyboard := keyboard a;
     codesNotes := codesNotes a; loaded := loaded a; storage := storage a |}.
Definition set_keyboardLayouts (f : (list (string * JSONAsset Rows)) -> (list (string * JSONAsset Rows))) (a : App) : App :=
  {| page := page a; keyboardLayouts := f (keyboardLayouts a); player := player a;
     notesBuffers := notesBuffers a; notesDigits := notesDigits a;
     notesLily := notesLily a; codesChars := codesChars a; state := state a;
     settings := settings a; logger := logger a; keyboard := keyboard a;
     codesNotes := codesNotes a; loaded := loaded a; storage := storage a |}.
Definition set_player (f : (option AudioPlayer.t) -> (option AudioPlayer.t)) (a : App) : App :=
  {| page := page a; keyboardLayouts := keyboardLayouts a; player := f (player a);
     notesBuffers := notesBuffers a; notesDigits := notesDigits a;
     notesLily := notesLily a; codesChars := codesChars a; state := state a;
     settings := settings a; logger := logger a; keyboard := keyboard a;
     codesNotes := codesNotes a; loaded := loaded a; storage := storage a |}.
Definition set_notesBuffers (f : (JSONAsset Bank) -> (JSONAsset Bank)) (a : App) : App :=
  {| page := page a; keyboardLayouts := keyboardLayouts a; player := player a;
     notesBuffers := f (notesBuffers a); notesDigits := notesDigits a;
     notesLily := notesLily a; codesChars := codesChars a; state := state a;
     settings := settings a; logger := logger a; keyboard := keyboard a;
     codesNotes := codesNotes a; loaded := loaded a; storage := storage a |}.
Definition set_notesDigits (f : (JSONAsset Table) -> (JSONAsset Table)) (a : App) : App :=
  {| page := page a; keyboardLayouts := keyboardLayouts a; player := player a;
     notesBuffers := notesBuffers a; notesDigits := f (notesDigits a);
     notesLily := notesLily a; codesChars := codesChars a; state := state a;
     settings := settings a; logger := logger a; keyboard := keyboard a;
     codesNotes := codesNotes a; loaded := loaded a; storage := storage a |}.
Definition set_notesLily (f : (JSONAsset (gmap string Table)) -> (JSONAsset (gmap string Table))) (a : App) : App :=
  {| page := page a; keyboardLayouts := keyboardLayouts a; player := player a;
     notesBuffers := notesBuffers a; notesDigits := notesDigits a;
     notesLily := f (notesLily a); codesChars := codesChars a; state := state a;
     settings := settings a; logger := logger a; keyboard := keyboard a;
     codesNotes := codesNotes a; loaded := loaded a; storage := storage a |}.
Definition set_codesChars (f : (JSONAsset Table) -> (JSONAsset Table)) (a : App) : App :=
  {| page := page a; keyboardLayouts := keyboardLayouts a; player := player a;
     notesBuffers := notesBuffers a; notesDigits := notesDigits a;
     notesLily := notesLily a; codesChars := f (codesChars a); state := state a;
     settings := settings a; logger := logger a; keyboard := keyboard a;
     codesNotes := codesNotes a; loaded := loaded a; storage := storage a |}.
Definition set_state (f : State -> State) (a : App) : App :=
  {| page := page a; keyboardLayouts := keyboardLayouts a; player := player a;
     notesBuffers := notesBuffers a; notesDigits := notesDigits a;
     notesLily := notesLily a; codesChars := codesChars a; state := f (state a);
     settings := settings a; logger := logger a; keyboard := keyboard a;
     codesNotes := codesNotes a; loaded := loaded a; storage := storage a |}.
Definition set_settings (f : Params -> Params) (a : App) : App :=
  {| page := page a; keyboardLayouts := keyboardLayouts a; player := player a;
     notesBuffers := notesBuffers a; notesDigits := notesDigits a;
     notesLily := notesLily a; codesChars := codesChars a; state := state a;
     settings := f (settings a); logger := logger a; keyboard := keyboard a;
     codesNotes := codesNotes a; loaded := loaded a; storage := storage a |}.
Definition set_logger (f : Logger.t -> Logger.t) (a : App) : App :=
  {| page := page a; keyboardLayouts := keyboardLayouts a; player := player a;
     notesBuffers := notesBuffers a; notesDigits := notesDigits a;
     notesLily := notesLily a; codesChars := codesChars a; state := state a;
     settings := settings a; logger := f (logger a); keyboard := keyboard a;
     codesNotes := codesNotes a; loaded := loaded a; storage := storage a |}.
Definition set_keyboard (f : Keyboard.t -> Keyboard.t) (a : App) : App :=
  {| page := page a; keyboardLayouts := keyboardLayouts a; player := player a;
     notesBuffers := notesBuffers a; notesDigits := notesDigits a;
     notesLily := notesLily a; codesChars := codesChars a; state := state a;
     settings := settings a; logger := logger a; keyboard := f (keyboard a);
     codesNotes := codesNotes a; loaded := loaded a; storage := storage a |}.
Definition set_codesNotes (f : (option Table) -> (option Table)) (a : App) : App :=
  {| page := page a; keyboardLayouts := keyboardLayouts a; player := player a;
     notesBuffers := notesBuffers a; notesDigits := notesDigits a;
     notesLily := notesLily a; codesChars := codesChars a; state := state a;
     settings := settings a; logger := logger a; keyboard := keyboard a;
     codesNotes := f (codesNotes a); loaded := loaded a; storage := storage a |}.
Definition set_loaded (f : Z -> Z) (a : App) : App :=
  {| page := page a; keyboardLayouts := keyboardLayouts a; player := player a;
     notesBuffers := notesBuffers a; notesDigits := notesDigits a;
     notesLily := notesLily a; codesChars := codesChars a; state := state a;
     settings := settings a; logger := logger a; keyboard := keyboard a;
     codesNotes := codesNotes a; loaded := f (loaded a); storage := storage a |}.
Definition set_storage (f : (option (list (option string))) -> (option (list (option string)))) (a : App) : App :=
  {| page := page a; keyboardLayouts := keyboardLayouts a; player := player a;
     notesBuffers := notesBuffers a; notesDigits := notesDigits a;
     notesLily := notesLily a; codesChars := codesChars a; state := state a;
     settings := settings a; logger := logger a; keyboard := keyboard a;
     codesNotes := codesNotes a; loaded := loaded a; storage := f (storage a) |}.

Definition onKeyboard {A} (c : M Keyboard.t A) : M App A :=
  zoom keyboard (fun k => set_keyboard (fun _ => k)) c.

(** [this.keyboardLayouts[name]] *)
Definition layout_asset (name : string) (a : App) :
    option (JSONAsset (list (list (string * string)))) :=
  snd <$> List.find (fun e => String.eqb (fst e) name) (keyboardLayouts a).

(** [new App()], for the parameters of the query string, the stored log and
    the state of the logger's checkbox. *)
Definition layoutNames : list string := ["default"; "ctrlcaps"; "hhkb"; "jp"; "dvorak"].

Definition newApp (params : Params) (stored : option (list (option string)))
    (checkbox : bool) : App :=
  {| page := {| dialogMask := true; waitingCard := true; loadingCard := false;
                errorText := false; totalText := ""; loadedText := "";
                errorMessage := "" |};
     keyboardLayouts :=
       map (fun n => (n, newAsset ("assets/layouts/" +:+ n +:+ ".json"))) layoutNames;
     player := None;
     notesBuffers := newAsset "assets/notes-buffers.json";
     notesDigits := newAsset "assets/notes-digits.json";
     notesLily := newAsset "assets/notes-lily.json";
     codesChars := newAsset "assets/codes-chars.json";
     state := WAITING;
     settings := params;
     logger := Logger.import stored (Logger.constructor checkbox);
     keyboard := Keyboard.constructor (layout params);
     codesNotes := None;
     loaded := 0;
     storage := stored |}.

Definition updateKeyboardLayout : M App unit :=
  do _ <- modify (set_codesNotes (fun _ => Some ∅)) ;;
  do a <- get ;;
  match layout_asset (layout (settings a)) a with
  | None => throw (TypeError "Cannot read properties of undefined (reading 'json')")
  | Some asset =>
      match json asset with
      | None => throw (TypeError "null is not iterable")
      | Some rows =>
          for_each rows (fun row =>
            for_each row (fun key =>
              modify (set_codesNotes (fmap (insert (fst key) (snd key))))))
      end
  end.

(** [App.render]: the keyboard, then the logger. *)
Definition render : M App unit :=
  do a <- get ;;
  do _ <- onKeyboard
            (Keyboard.render (settings a) (codesChars a) (notesDigits a)
               (layout_asset (Keyboard.layoutAsset (keyboard a)) a)) ;;
  modify (set_logger (Logger.render (output (settings a)))).

(** The text logged for [note]: its digit, or its name in the chosen
    output mode. *)
Definition note_text (note : string) : M App (option string) :=
  do a <- get ;;
  let output := output (settings a) in
  if String.eqb output "digit" then table_get (notesDigits a) note
  else
    match json (notesLily a) with
    | None => throw (TypeError "Cannot read properties of null")
    | Some tables =>
        match tables !! output with
        | None => throw (TypeError "Cannot read properties of undefined")
        | Some t => ret (t !! note)
        end
    end.

(** [this.notesBuffers.json[note]] *)
Definition bank_get (entries : list (string * value)) (k : string) : value :=
  match List.find (fun e => String.eqb (fst e) k) entries with
  | Some e => snd e
  | None => VUndefined
  end.

Definition note_buffer (note : string) : M App value :=
  do a <- get ;;
  match json (notesBuffers a) with
  | None => throw (TypeError "Cannot read properties of null")
  | Some entries => ret (bank_get entries note)
  end.

(** [this.player], about to be called a method of. *)
Definition the_player : M App AudioPlayer.t :=
  do a <- get ;;
  match player a with
  | None => throw (TypeError "Cannot read properties of null")
  | Some p => ret p
  end.

(** [this.codesNotes[code]] *)
Definition note_of (code : string) : M App (option string) :=
  do a <- get ;;
  match codesNotes a with
  | None => throw (TypeError "Cannot read properties of undefined")
  | Some notes => ret (notes !! code)
  end.

Record KeyboardEvent := { code : string; repeat : bool }.

Definition onVisibilityChange (visibilityState : string) : M App unit :=
  do a <- get ;;
  match state a with
  | RUNNING =>
      if negb (String.eqb visibilityState "visible") then
        do p <- the_player ;;
        do _ <- modify (set_player (fun _ => Some (AudioPlayer.pauseAll p))) ;;
        onKeyboard Keyboard.releaseAll
      else ret tt
  | _ => ret tt
  end.

(** [onKeyDown] from the [switch] on, that is in the state [RUNNING]. *)
Definition onKeyDown_running (event : KeyboardEvent) : M App unit :=
  do a <- get ;;
  let output := output (settings a) in
  if String.eqb (code event) "ArrowRight" then modify (set_logger (Logger.space output))
  else if String.eqb (code event) "ArrowDown" then modify (set_logger (Logger.return_ output))
  else if String.eqb (code event) "ArrowLeft" then modify (set_logger (Logger.delete output))
  else if repeat event then ret tt
  else
    do mapped <- note_of (code event) ;;
    match mapped with
    | None => ret tt
    | Some note =>
        let code := code event in
        do _ <- onKeyboard (Keyboard.press code) ;;
        do text <- note_text note ;;
        do _ <- modify (set_logger (Logger.insert output text)) ;;
        do _ <- modify (fun a => set_storage (fun _ => Some (Logger.export (logger a))) a) ;;
        do p <- the_player ;;
        do buf <- note_buffer note ;;
        modify (set_player (fun _ => Some (AudioPlayer.play note buf p)))
    end.

Definition onKeyUp (event : KeyboardEvent) : M App unit :=
  do a <- get ;;
  match state a with
  | RUNNING =>
      if repeat event then ret tt
      else
        do mapped <- note_of (code event) ;;
        match mapped with
        | None => ret tt
        | Some note =>
            let code := code event in
            do _ <- onKeyboard (Keyboard.release code) ;;
            do p <- the_player ;;
            modify (set_player (fun _ => Some (AudioPlayer.pause note p)))
        end
  | _ => ret tt
  end.

(** ** The host: promises, jobs and tasks

    The functions that the program hands to [then], [catch] and
    [setTimeout], named after the place they are written at. *)

Inductive asset_id :=
| NotesBuffers | NotesDigits | NotesLily | CodesChars | Layout (name : string).

(** The callbacks that [loadAssetsAsync] passes to [loadAsync]:
    [onLoad] counts the asset, [onError] shows its error. *)
Inductive callback := OnLoad | OnError.

Inductive closure :=
| FetchJSON_response
    (* fetchJSON: (response) => ... *)
| JSONAsset_json (a : asset_id) (onLoad : option callback)
    (* JSONAsset.loadAsync: (json) => { this.json = json; onLoad(this) } *)
| Asset_error (a : asset_id) (onError : option callback)
    (* loadAsync: (error) => { this.error = error; ...; onError(this) } *)
| AudioAsset_json
    (* AudioAsset.loadAsync: (json) => { ...; return Promise.all(promises) } *)
| AudioAsset_buffer
    (* (buffer) => player.decodeAudioData(buffer) *)
| AudioAsset_audioBuffer (k : string)
    (* (audioBuffer) => { this.json[k] = audioBuffer } *)
| AudioAsset_promises (onLoad : option callback)
    (* (promises) => { onLoad(this) } *)
| Start_loaded
    (* App.start: () => { ...; this.state = App.RUNNING } *)
| ResolveFunction (p : nat)
    (* the resolve function of promise p *)
| RejectFunction (p : nat)
    (* the reject function of promise p *)
| AllResolveElement (record : nat) (index : nat).
    (* Promise.all: the function that stores the element at index *)

Record Reaction := {
  onFulfilled : option closure;
  onRejected : option closure;
  derived : nat
}.

Inductive PromiseState :=
| Pending
| Fulfilled (v : value)
| Rejected (e : value).

Record Promise := { settled : PromiseState; reactions : list Reaction }.

(** A job of the microtask queue. *)
Inductive Job :=
| ReactionJob (handler : option closure) (rejected : bool) (argument : value) (derived : nat)
| ResolveThenableJob (promise thenable : nat).

(** What the host has in flight and completes in a later task. *)
Inductive Task :=
| Timeout (input : string) (promise : nat)   (* decodeAsync: setTimeout(() => resolve(decode(input)), 0) *)
| Fetch (path : string) (promise : nat)      (* window.fetch(path) *)
| Body (body : option document) (promise : nat)  (* response.json() *)
| DecodeAudio (data : value) (promise : nat). (* decodeAudioData(data) *)

(** What the element functions of one [Promise.all] share: the values, the
    count of elements awaited and the promise to resolve. *)
Record AllRecord := { values : list value; remaining : nat; capability : nat }.

Record World := {
  app : App;
  promises : list Promise;
  jobs : list Job;
  tasks : list Task;
  alls : list AllRecord;
  console : list value                   (* console.error *)
}.

Definition set_app (f : App -> App) (w : World) : World :=
  {| app := f (app w); promises := promises w; jobs := jobs w; tasks := tasks w;
     alls := alls w; console := console w |}.
Definition set_promises (f : list Promise -> list Promise) (w : World) : World :=
  {| app := app w; promises := f (promises w); jobs := jobs w; tasks := tasks w;
     alls := alls w; console := console w |}.
Definition set_jobs (f : list Job -> list Job) (w : World) : World :=
  {| app := app w; promises := promises w; jobs := f (jobs w); tasks := tasks w;
     alls := alls w; console := console w |}.
Definition set_tasks (f : list Task -> list Task) (w : World) : World :=
  {| app := app w; promises := promises w; jobs := jobs w; tasks := f (tasks w);
     alls := alls w; console := console w |}.
Definition set_alls (f : list AllRecord -> list AllRecord) (w : World) : World :=
  {| app := app w; promises := promises w; jobs := jobs w; tasks := tasks w;
     alls := f (alls w); console := console w |}.
Definition set_console (f : list value -> list value) (w : World) : World :=
  {| app := app w; promises := promises w; jobs := jobs w; tasks := tasks w;
     alls := alls w; console := f (console w) |}.

Definition newWorld (a : App) : World :=
  {| app := a; promises := []; jobs := []; tasks := []; alls := []; console := [] |}.

Definition onApp {A} (c : M App A) : M World A :=
  zoom app (fun a => set_app (fun _ => a)) c.

Definition enqueueJob (j : Job) : M World unit :=
  modify (set_jobs (fun js => (js ++ [j]))).
Definition enqueueTask (t : Task) : M World unit :=
  modify (set_tasks (fun ts => (ts ++ [t]))).

Definition promise_state (p : nat) (w : World) : PromiseState :=
  match promises w !! p with
  | Some c => settled c
  | None => Pending
  end.

(** [new Promise(...)], still pending *)
Definition newPromise : M World nat :=
  do w <- get ;;
  do _ <- modify (set_promises (fun ps => (ps ++ [{| settled := Pending; reactions := [] |}]))) ;;
  ret (length (promises w)).

(** FulfillPromise and RejectPromise: the reactions become jobs. *)
Definition settle (p : nat) (s : PromiseState) : M World unit :=
  do w <- get ;;
  match promises w !! p, s with
  | Some {| settled := Pending; reactions := rs |}, Fulfilled v =>
      do _ <- modify (set_promises (<[p := {| settled := s; reactions := [] |}]>)) ;;
      for_each rs (fun r => enqueueJob (ReactionJob (onFulfilled r) false v (derived r)))
  | Some {| settled := Pending; reactions := rs |}, Rejected e =>
      do _ <- modify (set_promises (<[p := {| settled := s; reactions := [] |}]>)) ;;
      for_each rs (fun r => enqueueJob (ReactionJob (onRejected r) true e (derived r)))
  | _, _ => ret tt
  end.

Definition rejectPromise (p : nat) (e : value) : M World unit := settle p (Rejected e).

(** The resolve function of a promise: a promise given as the value is
    waited for, through a job. *)
Definition resolvePromise (p : nat) (v : value) : M World unit :=
  match v with
  | VPromise q =>
      if Nat.eqb q p
      then rejectPromise p (TypeError "Chaining cycle detected for promise")
      else enqueueJob (ResolveThenableJob p q)
  | _ => settle p (Fulfilled v)
  end.

(** [p.then(onFulfilled, onRejected)] *)
Definition then_ (p : nat) (onF onR : option closure) : M World nat :=
  do d <- newPromise ;;
  do w <- get ;;
  do _ <- match promise_state p w with
          | Pending =>
              modify (set_promises (alter (fun c =>
                {| settled := settled c;
                   reactions := (reactions c ++
                     [{| onFulfilled := onF; onRejected := onR; derived := d |}]) |}) p))
          | Fulfilled v => enqueueJob (ReactionJob onF false v d)
          | Rejected e => enqueueJob (ReactionJob onR true e d)
          end ;;
  ret d.

(** [Promise.resolve(v)] *)
Definition promiseResolve (v : value) : M World nat :=
  match v with
  | VPromise q => ret q
  | _ => do p <- newPromise ;; do _ <- settle p (Fulfilled v) ;; ret p
  end.

(** One fewer element of a [Promise.all] is awaited; the last one resolves
    its promise with the values. *)
Definition all_countdown (record : nat) : M World unit :=
  do _ <- modify (set_alls (alter (fun r =>
            {| values := values r; remaining := pred (remaining r);
               capability := capability r |}) record)) ;;
  do w <- get ;;
  match alls w !! record with
  | Some {| values := vs; remaining := O; capability := result |} =>
      resolvePromise result (VArray vs)
  | _ => ret tt
  end.

(** [Promise.all(items)] *)
Fixpoint promiseAll_from (record : nat) (index : nat) (items : list value) : M World unit :=
  match items with
  | [] => ret tt
  | item :: rest =>
      do w <- get ;;
      let result := default O (capability <$> alls w !! record) in
      do _ <- modify (set_alls (alter (fun r =>
                {| values := (values r ++ [VUndefined]); remaining := remaining r;
                   capability := capability r |}) record)) ;;
      do next <- promiseResolve item ;;
      do _ <- modify (set_alls (alter (fun r =>
                {| values := values r; remaining := S (remaining r);
                   capability := capability r |}) record)) ;;
      do _ <- then_ next (Some (AllResolveElement record index))
                (Some (RejectFunction result)) ;;
      promiseAll_from record (S index) rest
  end.

Definition promiseAll (items : list value) : M World nat :=
  do result <- newPromise ;;
  do w <- get ;;
  let record := length (alls w) in
  do _ <- modify (set_alls (fun rs =>
            (rs ++ [{| values := []; remaining := 1; capability := result |}]))) ;;
  do _ <- promiseAll_from record 0 items ;;
  do _ <- all_countdown record ;;
  ret result.

(** What the network and the audio decoder answer: the response served for
    a path ([None]: the request fails in transport), and the byte sequences
    that decode as audio. *)
Record Host := {
  serve : string -> option Response;
  decodable : list Z -> bool
}.

(** [`${n}`] for an integer *)
Definition showZ (n : Z) : string := NilZero.string_of_int (Z.to_int n).

(** [const OGG_HEADER_LENGTH = "data:audio/ogg;base64,".length] *)
Definition OGG_HEADER_LENGTH : nat := String.length "data:audio/ogg;base64,".

(** [s.substring(start)] *)
Definition substring_from (start : nat) (s : string) : string :=
  substring start (String.length s - start) s.

Definition alter_layout (name : string)
    (f : JSONAsset (list (list (string * string))) -> JSONAsset (list (list (string * string))))
    (a : App) : App :=
  set_keyboardLayouts
    (map (fun e => if String.eqb (fst e) name then (fst e, f (snd e)) else e)) a.

Definition asset_path (a : asset_id) (s : App) : string :=
  match a with
  | NotesBuffers => path (notesBuffers s)
  | NotesDigits => path (notesDigits s)
  | NotesLily => path (notesLily s)
  | CodesChars => path (codesChars s)
  | Layout name => default "" (path <$> layout_asset name s)
  end.

Definition asset_error (a : asset_id) (s : App) : option value :=
  match a with
  | NotesBuffers => error (notesBuffers s)
  | NotesDigits => error (notesDigits s)
  | NotesLily => error (notesLily s)
  | CodesChars => error (codesChars s)
  | Layout name => layout_asset name s ≫= error
  end.

(** [this.error = error] *)
Definition store_error (a : asset_id) (e : value) : App -> App :=
  match a with
  | NotesBuffers => set_notesBuffers (set_error (Some e))
  | NotesDigits => set_notesDigits (set_error (Some e))
  | NotesLily => set_notesLily (set_error (Some e))
  | CodesChars => set_codesChars (set_error (Some e))
  | Layout name => alter_layout name (set_error (Some e))
  end.

(** [this.json = json]. Each asset is served in its format of the external
    interface; a document in another format is outside the model and is
    reported as a [FormatError]. *)
Definition store_json (a : asset_id) (v : value) : M App unit :=
  match a, v with
  | NotesBuffers, VJson (JBank entries) =>
      modify (set_notesBuffers
                (set_json (Some (map (fun e => (fst e, VString (snd e))) entries))))
  | NotesDigits, VJson (JTable t) => modify (set_notesDigits (set_json (Some t)))
  | NotesLily, VJson (JTables t) => modify (set_notesLily (set_json (Some t)))
  | CodesChars, VJson (JTable t) => modify (set_codesChars (set_json (Some t)))
  | Layout name, VJson (JLayout rows) => modify (alter_layout name (set_json (Some rows)))
  | _, _ => throw (VError "FormatError" "document not in the format of the asset")
  end.

(** [this.json[k] = v] on the bank *)
Fixpoint bank_set (entries : list (string * value)) (k : string) (v : value) :
    list (string * value) :=
  match entries with
  | [] => [(k, v)]
  | e :: rest => if String.eqb (fst e) k then (k, v) :: rest else e :: bank_set rest k v
  end.

Definition call (cb : option callback) (a : asset_id) : M App unit :=
  match cb with
  | None => ret tt
  | Some OnLoad =>
      do _ <- modify (set_loaded (fun n => n + 1)) ;;
      modify (fun s => set_page (page_loadedText (showZ (loaded s))) s)
  | Some OnError =>
      do _ <- modify (fun s =>
                set_page (page_errorMessage
                            (match asset_error a s with
                             | Some e => toString e
                             | None => "null"
                             end)) s) ;;
      modify (set_page (page_errorText true))
  end.

(** [window.fetch(path)] and [fetchJSON(path)] *)
Definition fetch (path : string) : M World nat :=
  do p <- newPromise ;;
  do _ <- enqueueTask (Fetch path p) ;;
  ret p.

Definition fetchJSON (path : string) : M World nat :=
  do p <- fetch path ;;
  then_ p (Some FetchJSON_response) None.

(** [Base64Decoder.decodeAsync] *)
Definition decodeAsync (input : string) : M World nat :=
  do p <- newPromise ;;
  do _ <- enqueueTask (Timeout input p) ;;
  ret p.

(** The loop of [AudioAsset.loadAsync] over the keys of the bank. *)
Fixpoint AudioAsset_entries (keys : list string) (promises : list value) :
    M World (list value) :=
  match keys with
  | [] => ret promises
  | k :: rest =>
      do entry <- onApp (note_buffer k) ;;
      match entry with
      | VString s =>
          do decoded <- decodeAsync (substring_from OGG_HEADER_LENGTH s) ;;
          do audio <- then_ decoded (Some AudioAsset_buffer) None ;;
          do _ <- then_ audio (Some (AudioAsset_audioBuffer k)) None ;;
          do pushed <- onApp (note_buffer k) ;;
          AudioAsset_entries rest (promises ++ [pushed])
      | _ => throw (TypeError "this.json[k].substring is not a function")
      end
  end.

Definition apply (c : closure) (arg : value) : M World value :=
  match c with
  | FetchJSON_response =>
      match arg with
      | VResponse response =>
          if ok response then
            do p <- newPromise ;;
            do _ <- enqueueTask (Body (body response) p) ;;
            ret (VPromise p)
          else throw (VError "Error"
                        ("Unexpected HTTP status code " +:+ showZ (status response)))
      | _ => throw (TypeError "Cannot read properties of undefined (reading 'ok')")
      end
  | JSONAsset_json a onLoad =>
      do _ <- onApp (store_json a arg) ;;
      do _ <- onApp (call onLoad a) ;;
      ret VUndefined
  | Asset_error a onError =>
      do _ <- modify (set_app (store_error a arg)) ;;
      do _ <- modify (set_console (fun c => (c ++ [arg]))) ;;
      do _ <- onApp (call onError a) ;;
      ret VUndefined
  | AudioAsset_json =>
      do _ <- onApp (store_json NotesBuffers arg) ;;
      do w <- get ;;
      do promises <- AudioAsset_entries
                       (map fst (default [] (json (notesBuffers (app w))))) [] ;;
      do all <- promiseAll promises ;;
      ret (VPromise all)
  | AudioAsset_buffer =>
      do _ <- onApp the_player ;;
      do p <- newPromise ;;
      do _ <- enqueueTask (DecodeAudio arg p) ;;
      ret (VPromise p)
  | AudioAsset_audioBuffer k =>
      do w <- get ;;
      match json (notesBuffers (app w)) with
      | None => throw (TypeError "Cannot set properties of null")
      | Some entries =>
          do _ <- modify (set_app (set_notesBuffers (set_json (Some (bank_set entries k arg))))) ;;
          ret VUndefined
      end
  | AudioAsset_promises onLoad =>
      do _ <- onApp (call onLoad NotesBuffers) ;;
      ret VUndefined
  | Start_loaded =>
      do _ <- modify (set_app (set_page (page_loadingCard false))) ;;
      do _ <- modify (set_app (set_page (page_waitingCard false))) ;;
      do _ <- modify (set_app (set_page (page_dialogMask false))) ;;
      do _ <- onApp updateKeyboardLayout ;;
      do _ <- onApp render ;;
      do _ <- modify (set_app (set_state (fun _ => RUNNING))) ;;
      ret VUndefined
  | ResolveFunction p => do _ <- resolvePromise p arg ;; ret VUndefined
  | RejectFunction p => do _ <- rejectPromise p arg ;; ret VUndefined
  | AllResolveElement record index =>
      do _ <- modify (set_alls (alter (fun r =>
                {| values := <[index := arg]> (values r); remaining := remaining r;
                   capability := capability r |}) record)) ;;
      do _ <- all_countdown record ;;
      ret VUndefined
  end.

(** A job of the microtask queue. An exception of a handler rejects the
    derived promise; the job itself never throws. *)
Definition runJob (j : Job) (w : World) : World :=
  match j with
  | ReactionJob None false v d => final (resolvePromise d v w)
  | ReactionJob None true e d => final (rejectPromise d e w)
  | ReactionJob (Some handler) _ v d =>
      match apply handler v w with
      | Done r w' => final (resolvePromise d r w')
      | Threw e w' => final (rejectPromise d e w')
      end
  | ResolveThenableJob p q =>
      final (then_ q (Some (ResolveFunction p)) (Some (RejectFunction p)) w)
  end.

(** The microtask checkpoint: jobs run, first in first out, until none is
    left. [None] when the fuel runs out first. *)
Fixpoint drain (fuel : nat) (w : World) : option World :=
  match jobs w with
  | [] => Some w
  | j :: rest =>
      match fuel with
      | O => None
      | S fuel' => drain fuel' (runJob j (set_jobs (fun _ => rest) w))
      end
  end.

(** The completion of something in flight. *)
Definition complete (host : Host) (t : Task) (w : World) : option World :=
  match t with
  | Timeout input p =>
      buffer ← Base64Decoder.decode input;
      Some (final (resolvePromise p (VArrayBuffer buffer) w))
  | Fetch path p =>
      match serve host path with
      | Some response => Some (final (resolvePromise p (VResponse response) w))
      | None => Some (final (rejectPromise p (TypeError "Failed to fetch") w))
      end
  | Body body p =>
      match body with
      | Some j => Some (final (resolvePromise p (VJson j) w))
      | None => Some (final (rejectPromise p (VError "SyntaxError" "Unexpected token") w))
      end
  | DecodeAudio data p =>
      match data with
      | VArrayBuffer bytes =>
          if decodable host bytes
          then Some (final (resolvePromise p (VAudioBuffer bytes) w))
          else Some (final (rejectPromise p
                              (VError "EncodingError" "Unable to decode audio data") w))
      | _ => Some (final (rejectPromise p (TypeError "not an ArrayBuffer") w))
      end
  end.

(** One turn of the event loop: the [n]-th thing in flight completes, then
    the microtask checkpoint. *)
Definition turn (host : Host) (fuel : nat) (n : nat) (w : World) : option World :=
  t ← tasks w !! n;
  w ← complete host t (set_tasks (delete n) w);
  drain fuel w.

(** Turns in the order of a schedule. *)
Fixpoint turns (host : Host) (fuel : nat) (schedule : list nat) (w : World) :
    option World :=
  match schedule with
  | [] => Some w
  | n :: rest => w ← turn host fuel n w; turns host fuel rest w
  end.

(** An event handler runs as a task of its own; what it throws is reported
    and dropped. *)
Definition dispatch (fuel : nat) (handler : M World unit) (w : World) : option World :=
  drain fuel (final (handler w)).

(** ** Loading *)

(** [JSONAsset.loadAsync], [this] being the asset [a]. *)
Definition JSONAsset_loadAsync (a : asset_id) (onStart onLoad onError : option callback) :
    M World nat :=
  do _ <- onApp (call onStart a) ;;
  do w <- get ;;
  do p <- fetchJSON (asset_path a (app w)) ;;
  do p <- then_ p (Some (JSONAsset_json a onLoad)) None ;;
  then_ p None (Some (Asset_error a onError)).

(** [AudioAsset.loadAsync]: [this] is [app.notesBuffers], [player] and
    [decoder] are those of the application. *)
Definition AudioAsset_loadAsync (onStart onLoad onError : option callback) : M World nat :=
  do _ <- onApp (call onStart NotesBuffers) ;;
  do w <- get ;;
  do p <- fetchJSON (asset_path NotesBuffers (app w)) ;;
  do p <- then_ p (Some AudioAsset_json) None ;;
  do p <- then_ p (Some (AudioAsset_promises onLoad)) None ;;
  then_ p None (Some (Asset_error NotesBuffers onError)).

Fixpoint loadLayouts (names : list string) (assets : list value) : M World (list value) :=
  match names with
  | [] => ret assets
  | n :: rest =>
      do p <- JSONAsset_loadAsync (Layout n) None (Some OnLoad) (Some OnError) ;;
      loadLayouts rest (assets ++ [VPromise p])
  end.

Definition loadAssetsAsync : M World nat :=
  do _ <- modify (set_app (set_loaded (fun _ => 0))) ;;
  do p1 <- AudioAsset_loadAsync None (Some OnLoad) (Some OnError) ;;
  do p2 <- JSONAsset_loadAsync NotesDigits None (Some OnLoad) (Some OnError) ;;
  do p3 <- JSONAsset_loadAsync NotesLily None (Some OnLoad) (Some OnError) ;;
  do p4 <- JSONAsset_loadAsync CodesChars None (Some OnLoad) (Some OnError) ;;
  do w <- get ;;
  do assets <- loadLayouts (map fst (keyboardLayouts (app w)))
                 [VPromise p1; VPromise p2; VPromise p3; VPromise p4] ;;
  do _ <- modify (set_app (set_page (page_totalText (showZ (Z.of_nat (length assets)))))) ;;
  promiseAll assets.

Definition start : M World unit :=
  do _ <- modify (set_app (set_player (fun _ => Some (AudioPlayer.constructor None)))) ;;
  do _ <- modify (set_app (set_state (fun _ => LOADING))) ;;
  do _ <- modify (set_app (set_page (page_waitingCard false))) ;;
  do _ <- modify (set_app (set_page (page_loadingCard true))) ;;
  do _ <- modify (set_app (set_page (page_dialogMask true))) ;;
  do p <- loadAssetsAsync ;;
  do _ <- then_ p (Some Start_loaded) None ;;
  ret tt.

Definition onKeyDown (event : KeyboardEvent) : M World unit :=
  do w <- get ;;
  match state (app w) with
  | WAITING => start
  | LOADING => ret tt
  | RUNNING => onApp (onKeyDown_running event)
  end.

(** ** Events

    [App.run] registers the three listeners; [handle] is the listener of an
    event. *)
Inductive event :=
| KeyDown (e : KeyboardEvent)
| KeyUp (e : KeyboardEvent)
| VisibilityChange (visibilityState : string).

Definition handle (ev : event) : M World unit :=
  match ev with
  | KeyDown e => onKeyDown e
  | KeyUp e => onApp (onKeyUp e)
  | VisibilityChange v => onApp (onVisibilityChange v)
  end.

(** The listeners of a sequence of events, one after the other, up to the
    first that throws. *)
Fixpoint handle_all (evs : list event) : M World unit :=
  match evs with
  | [] => ret tt
  | ev :: rest => do _ <- handle ev ;; handle_all rest
  end.

(** The log that a handler leaves when it returns. *)
Definition log_after (o : outcome World unit) : option (list (option string)) :=
  match o with
  | Done _ w => Some (Logger.tokens (logger (app w)))
  | Threw _ _ => None
  end.

(** The codes that [onKeyDown] gives to the logger. *)
Definition arrow (c : string) : bool :=
  String.eqb c "ArrowRight" || String.eqb c "ArrowDown" || String.eqb c "ArrowLeft".

(** A key event that the handlers pass over: an auto-repeat, or a code
    that the layout maps to no note. *)
Definition ignored (e : KeyboardEvent) (a : App) : Prop :=
  repeat e = true \/ exists cn, codesNotes a = Some cn /\ cn !! code e = None.

(** ** Hosts and a small instrument, for the examples *)

(** A response with status 200 and the document [d]. *)
Definition okay (d : document) : option Response :=
  Some {| ok := true; status := 200; body := Some d |}.

(** A fetch that fails: in transport, or with a response that is not [ok]. *)
Definition fails (r : option Response) : Prop :=
  match r with
  | Some response => ok response = false
  | None => True
  end.

(** What [fetchJSON] rejects with for a failed fetch. *)
Definition fetch_error (r : option Response) : value :=
  match r with
  | Some response =>
      VError "Error" ("Unexpected HTTP status code " +:+ showZ (status response))
  | None => TypeError "Failed to fetch"
  end.

(** The host that answers the manifest request with [manifest] and serves
    the other assets: the tables [digits], [lily] and [chars], and the
    layout [layouts name] for each name. *)
Definition serving (manifest : option Response) (digits : Table)
    (lily : gmap string Table) (chars : Table) (layouts : string -> Rows) : Host :=
  {| serve := fun p =>
       if String.eqb p "assets/notes-buffers.json" then manifest
       else if String.eqb p "assets/notes-digits.json" then okay (JTable digits)
       else if String.eqb p "assets/notes-lily.json" then okay (JTables lily)
       else if String.eqb p "assets/codes-chars.json" then okay (JTable chars)
       else match List.find (fun n => String.eqb p ("assets/layouts/" +:+ n +:+ ".json"))
                    layoutNames with
            | Some n => okay (JLayout (layouts n))
            | None => Some {| ok := false; status := 404; body := None |}
            end;
     decodable := fun _ => true |}.

(** The turns of a load in which everything in flight completes in the
    order it was started. *)
Definition in_order (n : nat) : list nat := replicate n 0%nat.

(** What a load has come to: the state of its promise [p], the count of
    assets loaded, the bank, and the number of things still in flight. *)
Definition progress (p : nat) (w : World) : PromiseState * Z * option Bank * nat :=
  (promise_state p w, loaded (app w), json (notesBuffers (app w)), length (tasks w)).

Module Demo.

Definition params : Params :=
  {| display := "digit"; output := "digit"; layout := "default" |}.
Definition layout : Rows := [[("KeyA", "C4"); ("KeyS", "D4")]].
Definition digits : Table := {[ "C4" := "1"; "D4" := "2" ]}.
Definition chars : Table := {[ "KeyA" := "A"; "KeyS" := "S" ]}.

(** Four groups of encoded silence behind the data-URI header. *)
Definition silence : string := "data:audio/ogg;base64,AAAAAAAAAAAAAAAA".
Definition manifest : list (string * string) := [("C4", silence); ("D4", silence)].

Definition host (manifest : option Response) : Host :=
  serving manifest digits ∅ chars (fun _ => layout).

Definition fuel : nat := 64.

(** The page after the first click: the nine fetches are in flight. *)
Definition started : option World :=
  Eval vm_compute in dispatch fuel start (newWorld (newApp params None true)).

(** The instrument with every asset loaded and every sample decoded. *)
Definition loaded : option World :=
  Eval vm_compute in
    (w ← started; turns (host (okay (JBank manifest))) fuel (in_order 22) w).

Definition world : World :=
  Eval vm_compute in default (newWorld (newApp params None true)) loaded.

(** The same with the logger switched off. *)
Definition quiet : World :=
  Eval vm_compute in set_app (set_logger (Logger.switch (Some false))) world.

(** The same with the key [KeyA] held down. *)
Definition held : World :=
  Eval vm_compute in final (handle (KeyDown {| code := "KeyA"; repeat := false |}) world).

(** An application with a player, about to load its samples. *)
Definition fresh : World :=
  newWorld (set_player (fun _ => Some (AudioPlayer.constructor None))
              (newApp params None true)).

End Demo.

(** The loaded instrument: its note table, its player and its bank. *)
Definition demo_notes : gmap string string := default ∅ (codesNotes (app Demo.world)).
Definition demo_player (w : World) : AudioPlayer.t :=
  default (AudioPlayer.constructor None) (player (app w)).
Definition demo_bank : list (string * value) := default [] (json (notesBuffers (app Demo.world))).


(** * The rest of the program *)

(** ** The Base64 encoding that [Base64Decoder] reads

    The encoding of RFC 4648, section 4, over the alphabet [keyStr]: three
    bytes make four symbols of six bits each, and the last group is filled
    with the padding symbol. The program holds no encoder; this one states
    what its decoder is for. *)

Module Base64.

(** The symbol of the 6-bit value [k]. *)
Definition symbol (k : Z) : ascii :=
  match String.get (Z.to_nat k) Base64Decoder.keyStr with
  | Some c => c
  | None => "="%char
  end.

(** The symbols of a byte sequence, without padding. *)
Fixpoint symbols (bytes : list Z) : string :=
  match bytes with
  | [] => ""
  | [b1] =>
      String (symbol (b1 / 4)) (String (symbol (b1 mod 4 * 16)) "")
  | [b1; b2] =>
      String (symbol (b1 / 4)) (String (symbol (b1 mod 4 * 16 + b2 / 16))
        (String (symbol (b2 mod 16 * 4)) ""))
  | b1 :: b2 :: b3 :: rest =>
      String (symbol (b1 / 4)) (String (symbol (b1 mod 4 * 16 + b2 / 16))
        (String (symbol (b2 mod 16 * 4 + b3 / 64)) (String (symbol (b3 mod 64))
          (symbols rest))))
  end.

(** The padding after the symbols of [n] bytes. *)
Definition padding (n : nat) : string :=
  match (n mod 3)%nat with
  | 1%nat => "=="
  | 2%nat => "="
  | _ => ""
  end.

Definition encode (bytes : list Z) : string :=
  symbols bytes +:+ padding (length bytes).

(** A byte of a [Uint8Array]. *)
Definition byte (b : Z) : Prop := 0 <= b < 256.

End Base64.


(** ** Invariants and clients *)

(** A property of the state that a computation keeps, whether it returns
    or throws. *)
Definition keeps {S A} (I : S -> Prop) (c : M S A) : Prop :=
  forall s, I s -> I (final (c s)).




(** The key of a layout entry and its note. *)
Definition layout_entries (rows : Rows) : list (string * string) := concat rows.


(** The map that [updateKeyboardLayout] builds: the entries of the layout
    in order, a later entry for a code replacing an earlier one. *)
Definition codes_to_notes (rows : Rows) : Table :=
  foldl (fun m key => <[fst key := snd key]> m) ∅ (layout_entries rows).

(** What the page and the application call on the logger. *)
Inductive log_op :=
| Insert (text : option string)
| Space
| Return
| Delete
| Clear
| Switch (event : option bool).

Definition log_step (output : string) (l : Logger.t) (o : log_op) : Logger.t :=
  match o with
  | Insert text => Logger.insert output text l
  | Space => Logger.space output l
  | Return => Logger.return_ output l
  | Delete => Logger.delete output l
  | Clear => Logger.clear output l
  | Switch event => Logger.switch event l
  end.

Definition log_run (output : string) (ops : list log_op) (l : Logger.t) : Logger.t :=
  foldl (log_step output) l ops.

(** What an event handler of the running application leaves alone: all of
    the application but its logger, keyboard, player and stored log, and
    all of the host. *)
Definition same_app (a a' : App) : Prop :=
  state a' = state a /\ page a' = page a /\ settings a' = settings a
  /\ codesNotes a' = codesNotes a /\ loaded a' = loaded a
  /\ keyboardLayouts a' = keyboardLayouts a /\ notesBuffers a' = notesBuffers a
  /\ notesDigits a' = notesDigits a /\ notesLily a' = notesLily a
  /\ codesChars a' = codesChars a.

Definition same_host (w w' : World) : Prop :=
  promises w' = promises w /\ jobs w' = jobs w /\ tasks w' = tasks w
  /\ alls w' = alls w /\ console w' = console w.

(** The nine requests of [loadAssetsAsync], in the order they are made,
    each with the promise of its [fetch]. *)
Definition requests : list Task :=
  [Fetch "assets/notes-buffers.json" 0; Fetch "assets/notes-digits.json" 5;
   Fetch "assets/notes-lily.json" 9; Fetch "assets/codes-chars.json" 13;
   Fetch "assets/layouts/default.json" 17; Fetch "assets/layouts/ctrlcaps.json" 21;
   Fetch "assets/layouts/hhkb.json" 25; Fetch "assets/layouts/jp.json" 29;
   Fetch "assets/layouts/dvorak.json" 33].

(** The assets that are a [JSONAsset] and no [AudioAsset]. *)
Definition json_assets : list asset_id :=
  [NotesDigits; NotesLily; CodesChars] ++ map Layout layoutNames.

(** A document in the format of an asset, and the asset holding it. *)
Definition in_format (a : asset_id) (d : document) : bool :=
  match a, d with
  | NotesBuffers, JBank _ | NotesDigits, JTable _ | NotesLily, JTables _
  | CodesChars, JTable _ | Layout _, JLayout _ => true
  | _, _ => false
  end.

Definition holds (a : asset_id) (d : document) (s : App) : Prop :=
  match a, d with
  | NotesBuffers, JBank entries =>
      json (notesBuffers s) = Some (map (fun e => (fst e, VString (snd e))) entries)
  | NotesDigits, JTable t => json (notesDigits s) = Some t
  | NotesLily, JTables t => json (notesLily s) = Some t
  | CodesChars, JTable t => json (codesChars s) = Some t
  | Layout name, JLayout rows => layout_asset name s ≫= json = Some rows
  | _, _ => False
  end.

(** Whether an asset holds a document at all. *)
Definition unloaded (a : asset_id) (s : App) : Prop :=
  match a with
  | NotesBuffers => json (notesBuffers s) = None
  | NotesDigits => json (notesDigits s) = None
  | NotesLily => json (notesLily s) = None
  | CodesChars => json (codesChars s) = None
  | Layout name => layout_asset name s ≫= json = None
  end.

(** ** Settings *)

Module Settings.

(** A [URLSearchParams]: the pairs of a query string, decoded, in order. *)
Abbreviation Query := (list (string * string)).

(** [searchParams.get(name)]: the value of the first pair of the name;
    [None] is [null], and [has(name)] is that there is one. *)
Definition get (name : string) (sp : Query) : option string :=
  snd <$> List.find (fun e => String.eqb (fst e) name) sp.

Definition has (name : string) (sp : Query) : bool :=
  match get name sp with
  | Some _ => true
  | None => false
  end.

(** [searchParams.set(name, value)]: the first pair of the name gets the
    value and the other pairs of the name are removed; without such a pair
    one is appended. *)
Fixpoint set (name value : string) (sp : Query) : Query :=
  match sp with
  | [] => [(name, value)]
  | e :: rest =>
      if String.eqb (fst e) name
      then (name, value) :: filter (fun e' => String.eqb (fst e') name = false) rest
      else e :: set name value rest
  end.

(** [options.indexOf(x) !== -1] *)
Definition includes (options : list string) (x : option string) : bool :=
  match x with
  | Some v => existsb (String.eqb v) options
  | None => false
  end.

(** The labels of the options of the three select elements of the page. *)
Record Options := {
  displayOptions : list string;
  outputOptions : list string;
  layoutOptions : list string
}.

(** One entry of [this.params]. *)
Definition param (sp : Query) (options : list string) (name fallback : string) : string :=
  if has name sp && includes options (get name sp)
  then default fallback (get name sp)
  else fallback.

(** [this.params] as the constructor makes it. *)
Definition constructor (sp : Query) (o : Options) : Params :=
  {| display := param sp (displayOptions o) "display" "digit";
     output := param sp (outputOptions o) "output" "digit";
     layout := param sp (layoutOptions o) "layout" "default" |}.

(** [searchParams] is [this.searchParams]; [location] is the query of the
    address of the page, which [updateQueryString] replaces by the text of
    [searchParams] and which a reload reads [searchParams] from. *)
Record t := {
  searchParams : Query;
  location : Query;
  options : Options
}.

Definition set_searchParams (f : Query -> Query) (s : t) : t :=
  {| searchParams := f (searchParams s); location := location s; options := options s |}.

Definition updateQueryString (s : t) : t :=
  {| searchParams := searchParams s; location := searchParams s; options := options s |}.

End Settings.

(** The page: the settings object beside the application it belongs to,
    whose [settings] are its [params]. *)
Record Session := {
  the_settings : Settings.t;
  application : App
}.

Definition set_the_settings (f : Settings.t -> Settings.t) (s : Session) : Session :=
  {| the_settings := f (the_settings s); application := application s |}.
Definition set_application (f : App -> App) (s : Session) : Session :=
  {| the_settings := the_settings s; application := f (application s) |}.

Definition onApplication {A} (c : M App A) : M Session A :=
  zoom application (fun a => set_application (fun _ => a)) c.

(** [new App()] on a page with the query [sp]. *)
Definition newSession (sp : Settings.Query) (o : Settings.Options)
    (stored : option (list (option string))) (checkbox : bool) : Session :=
  {| the_settings := {| Settings.searchParams := sp; Settings.location := sp;
                        Settings.options := o |};
     application := newApp (Settings.constructor sp o) stored checkbox |}.

(** The end of [onDisplayInput] and of [onLayoutInput]: a new keyboard for
    the chosen layout, mapped and drawn. *)
Definition redraw : M App unit :=
  do _ <- modify (fun a => set_keyboard (fun _ => Keyboard.constructor (layout (settings a))) a) ;;
  do _ <- updateKeyboardLayout ;;
  do a <- get ;;
  onKeyboard (Keyboard.render (settings a) (codesChars a) (notesDigits a)
                (layout_asset (Keyboard.layoutAsset (keyboard a)) a)).

(** The three listeners; [option] is the label of the option that is
    selected, [this.<x>Options[this.<x>Select.selectedIndex]]. *)
Definition onDisplayInput (option : string) : M Session unit :=
  do _ <- modify (set_application (set_settings (fun p =>
            {| display := option; output := output p; layout := layout p |}))) ;;
  do _ <- modify (set_the_settings (Settings.set_searchParams (Settings.set "display" option))) ;;
  do _ <- modify (set_the_settings Settings.updateQueryString) ;;
  onApplication redraw.

Definition onOutputInput (option : string) : M Session unit :=
  do _ <- modify (set_application (set_settings (fun p =>
            {| display := display p; output := option; layout := layout p |}))) ;;
  do _ <- modify (set_the_settings (Settings.set_searchParams (Settings.set "output" option))) ;;
  modify (set_the_settings Settings.updateQueryString).

Definition onLayoutInput (option : string) : M Session unit :=
  do _ <- modify (set_application (set_settings (fun p =>
            {| display := display p; output := output p; layout := option |}))) ;;
  do _ <- modify (set_the_settings (Settings.set_searchParams (Settings.set "layout" option))) ;;
  do _ <- modify (set_the_settings Settings.updateQueryString) ;;
  onApplication redraw.

(** What a user chooses in one of the three select elements. *)
Inductive choice :=
| DisplayInput (option : string)
| OutputInput (option : string)
| LayoutInput (option : string).

Definition choose (s : Session) (i : choice) : Session :=
  match i with
  | DisplayInput option => final (onDisplayInput option s)
  | OutputInput option => final (onOutputInput option s)
  | LayoutInput option => final (onLayoutInput option s)
  end.

(** The option chosen is one of the select element. *)
Definition offered (o : Settings.Options) (i : choice) : Prop :=
  match i with
  | DisplayInput option => In option (Settings.displayOptions o)
  | OutputInput option => In option (Settings.outputOptions o)
  | LayoutInput option => In option (Settings.layoutOptions o)
  end.

(** Options for the examples. *)
Definition demo_options : Settings.Options :=
  {| Settings.displayOptions := ["digit"; "note"];
     Settings.outputOptions := ["digit"; "lily"];
     Settings.layoutOptions := layoutNames |}.

(** A host whose audio decoder accepts the byte sequences that [accepts]
    says. *)
Definition with_decoder (accepts : list Z -> bool) (h : Host) : Host :=
  {| serve := serve h; decodable := accepts |}.

(** ** Instruments that lack something

    Three pages on which the instrument reaches the state RUNNING and a
    listener meets what it does not expect. *)

(** What a listener has thrown, if it has. *)
Definition thrown {S A} (o : outcome S A) : option value :=
  match o with
  | Threw e _ => Some e
  | Done _ _ => None
  end.

(** The nodes that the player of the application has made. *)
Definition voices_made (w : World) : option (list AudioPlayer.SourceNode) :=
  AudioPlayer.nodes <$> player (app w).

(** The page of [Demo] on which [assets/notes-digits.json] is not found,
    opened with [?display=note], so that the keyboard is drawn without the
    digits. *)
Module NoDigits.

Definition host : Host :=
  {| serve := fun p =>
       if String.eqb p "assets/notes-digits.json"
       then Some {| ok := false; status := 404; body := None |}
       else serve (Demo.host (okay (JBank Demo.manifest))) p;
     decodable := fun _ => true |}.

Definition opened : Session := newSession [("display", "note")] demo_options None true.

(** The first click and the 21 turns in which the nine requests complete. *)
Definition loaded : option World :=
  Eval vm_compute in
    (w ← dispatch Demo.fuel start (newWorld (application opened));
     turns host Demo.fuel (in_order 21) w).

Definition world : World :=
  Eval vm_compute in default (newWorld (application opened)) loaded.

(** The display switched to [digit]. *)
Definition switched : outcome Session unit :=
  Eval vm_compute in
    onDisplayInput "digit"
      {| the_settings := the_settings opened; application := app world |}.

Definition undrawn : World :=
  Eval vm_compute in set_app (fun _ => application (final switched)) world.

(** The keys [KeyS] and [KeyA] then go down, in this order; each listener
    throws, the key marked. *)
Definition held : World :=
  Eval vm_compute in
    final (handle (KeyDown {| code := "KeyA"; repeat := false |})
             (final (handle (KeyDown {| code := "KeyS"; repeat := false |}) undrawn))).

End NoDigits.

(** The page of [Demo] on which the manifest of the samples is not found,
    loaded, and its logger switched off. *)
Module NoBank.

Definition host : Host := Demo.host (Some {| ok := false; status := 404; body := None |}).

Definition loaded : option World :=
  Eval vm_compute in (w ← Demo.started; turns host Demo.fuel (in_order 17) w).

Definition quiet : World :=
  Eval vm_compute in
    set_app (set_logger (Logger.switch (Some false)))
      (default (newWorld (newApp Demo.params None true)) loaded).

End NoBank.

(** The page of [Demo] with a layout that maps the key ArrowRight to a
    note, loaded, and its logger switched off. *)
Module Arrows.

Definition layout : Rows := [[("KeyA", "C4"); ("ArrowRight", "D4")]].
Definition chars : Table := {[ "KeyA" := "A"; "ArrowRight" := "R" ]}.

Definition host : Host :=
  serving (okay (JBank Demo.manifest)) Demo.digits ∅ chars (fun _ => layout).

Definition loaded : option World :=
  Eval vm_compute in (w ← Demo.started; turns host Demo.fuel (in_order 22) w).

Definition quiet : World :=
  Eval vm_compute in
    set_app (set_logger (Logger.switch (Some false)))
      (default (newWorld (newApp Demo.params None true)) loaded).

End Arrows.

(** * Theorems *)

(** Unfold the monad of [outcome]. *)
Ltac monad := repeat progress unfold bind, get, ret, throw, modify, zoom.

(** Settle a conjunction of closed equations by evaluation, left to right. *)
Ltac evaluate :=
  repeat match goal with |- _ /\ _ => split; [vm_compute; reflexivity|] end;
  vm_compute; reflexivity.

(** ** Base64Decoder *)

Section Base64DecoderFacts.
Import Base64Decoder.

(** The loop condition and the buffer length, in integers. *)
Lemma Qltb_bytes (input : string) (i : Z) :
  Qltb (inject_Z i) (bytes_of input) = (4 * i <? 3 * Z.of_nat (String.length input)).
Proof.
  unfold Qltb, bytes_of, Qle_bool. simpl.
  change (Z.pos (1 * 4 * 1)) with 4.
  destruct (Z.leb_spec (Z.of_nat (String.length input) * 1 * 3 * 1) (i * 4));
    destruct (Z.ltb_spec (4 * i) (3 * Z.of_nat (String.length input)));
    simpl; try reflexivity; lia.
Qed.

Lemma Qfloor_bytes (input : string) :
  Qfloor (bytes_of input) = 3 * Z.of_nat (String.length input) / 4.
Proof.
  unfold bytes_of. simpl. change (Z.pos (1 * 4 * 1)) with 4. f_equal; lia.
Qed.

Lemma length_store u i v : length (store u i v) = length u.
Proof. unfold store. destruct (i <? 0); [done|]. apply length_insert. Qed.

Lemma length_decode_group input i j u : length (decode_group input i j u) = length u.
Proof.
  unfold decode_group.
  destruct (enc input (j + 2) =? 64), (enc input (j + 3) =? 64);
    rewrite ?length_store; reflexivity.
Qed.

Lemma lookup_store u i v (n : nat) :
  0 <= i ->
  store u i v !! n =
    if decide (n = Z.to_nat i) then (fun _ => v mod 256) <$> u !! n else u !! n.
Proof.
  intros Hi. unfold store. destruct (Z.ltb_spec i 0); [lia|].
  case_decide as Hn.
  - subst n. destruct (decide (Z.to_nat i < length u)%nat) as [Hlt|Hge].
    + rewrite list_lookup_insert_eq by done.
      destruct (lookup_lt_is_Some_2 u _ Hlt) as [x ->]. done.
    + rewrite list_insert_ge by lia. rewrite lookup_ge_None_2 by lia. done.
  - rewrite list_lookup_insert_ne by done. done.
Qed.

(** The loop stops by its own condition when it has a turn per symbol. *)
Lemma decode_loop_total input :
  forall (fuel : nat) (k : Z) (u : list Z),
    0 <= k ->
    Z.of_nat (String.length input) <= 4 * (k + Z.of_nat fuel) - 3 ->
    exists r, decode_loop fuel input (bytes_of input) (3 * k) (4 * k) u = Some r
              /\ length r = length u.
Proof.
  induction fuel as [|fuel IH]; intros k u Hk Hf; simpl; rewrite Qltb_bytes.
  - destruct (Z.ltb_spec (4 * (3 * k)) (3 * Z.of_nat (String.length input))); [lia|].
    eauto.
  - destruct (Z.ltb_spec (4 * (3 * k)) (3 * Z.of_nat (String.length input))); [|eauto].
    replace (3 * k + 3) with (3 * (k + 1)) by lia.
    replace (4 * k + 4) with (4 * (k + 1)) by lia.
    destruct (IH (k + 1) (decode_group input (3 * k) (4 * k) u)) as (r & Hr & Hl);
      [lia|lia|].
    exists r. split; [done|]. rewrite Hl. apply length_decode_group.
Qed.

Lemma decode_from_total u input :
  exists r, decode_from u input = Some r /\ length r = length u.
Proof.
  unfold decode_from.
  apply (decode_loop_total (cleaned input) (S (String.length (cleaned input))) 0 u); lia.
Qed.

Lemma length_newArrayBuffer input :
  Z.of_nat (length (newArrayBuffer (bytes_of input))) =
    Z.of_nat (String.length input) * 3 / 4.
Proof.
  unfold newArrayBuffer. rewrite length_replicate, Qfloor_bytes.
  rewrite Z2Nat.id; [f_equal; lia|]. apply Z.div_pos; lia.
Qed.

Lemma length_decode input :
  exists buffer, decode input = Some buffer
    /\ Z.of_nat (length buffer) = Z.of_nat (String.length (cleaned input)) * 3 / 4.
Proof.
  unfold decode.
  destruct (decode_from_total (newArrayBuffer (bytes_of (cleaned input))) input)
    as (r & Hr & Hl).
  exists r. split; [done|]. rewrite Hl. apply length_newArrayBuffer.
Qed.

Lemma charAt_past s j : Z.of_nat (String.length s) <= j -> charAt s j = "".
Proof.
  intros H. unfold charAt. destruct (Z.ltb_spec j 0); [done|].
  assert (Hn : (String.length s <= Z.to_nat j)%nat) by lia.
  revert Hn. generalize (Z.to_nat j) as n. clear.
  induction s as [|c s IH]; intros [|n] Hn; simpl in *; try done; try lia.
  apply IH. lia.
Qed.

(** C9. [decode] returns a buffer for every input string. A position read
    past the end of the input that the loop works on (the input after
    lines 47 and 48) has symbol index 0, a store past the end of the
    buffer changes nothing, and the buffer has
    floor(length of that input * 3 / 4) bytes. *)
Theorem decode_total (input : string) :
  (exists buffer, decode input = Some buffer
     /\ Z.of_nat (length buffer) = Z.of_nat (String.length (cleaned input)) * 3 / 4)
  /\ (forall j, Z.of_nat (String.length (cleaned input)) <= j -> enc (cleaned input) j = 0)
  /\ (forall (uarray : list Z) i v, Z.of_nat (length uarray) <= i -> store uarray i v = uarray).
Proof.
  split; [apply length_decode|split].
  - intros j Hj. unfold enc. rewrite charAt_past by done. reflexivity.
  - intros u i v Hi. unfold store. destruct (Z.ltb_spec i 0); [done|].
    apply list_insert_ge. lia.
Qed.

(** *** Trailing padding *)

Lemma charAt_cons c s (i : nat) :
  charAt (String c s) (Z.of_nat (S i)) = charAt s (Z.of_nat i).
Proof.
  unfold charAt.
  destruct (Z.ltb_spec (Z.of_nat (S i)) 0); [lia|].
  destruct (Z.ltb_spec (Z.of_nat i) 0); [lia|].
  rewrite !Nat2Z.id. reflexivity.
Qed.

Lemma substring_snoc s (i : nat) :
  (i < String.length s)%nat ->
  substring 0 (S i) s = substring 0 i s +:+ charAt s (Z.of_nat i).
Proof.
  revert i. induction s as [|c s IH]; intros i Hi; simpl in Hi; [lia|].
  destruct i as [|i].
  - simpl. destruct s; reflexivity.
  - rewrite charAt_cons.
    change (substring 0 (S (S i)) (String c s)) with (String c (substring 0 (S i) s)).
    change (substring 0 (S i) (String c s)) with (String c (substring 0 i s)).
    rewrite IH by lia. reflexivity.
Qed.

Lemma charAt_inside s (i : nat) :
  (i < String.length s)%nat -> exists c, charAt s (Z.of_nat i) = String c "".
Proof.
  revert i. induction s as [|c s IH]; intros i Hi; simpl in Hi; [lia|].
  destruct i as [|i]; [by exists c|]. rewrite charAt_cons. apply IH. lia.
Qed.

Lemma length_substring s (n : nat) :
  (n <= String.length s)%nat -> String.length (substring 0 n s) = n.
Proof.
  revert n. induction s as [|c s IH]; intros [|n] Hn; simpl in *; try done; try lia.
  rewrite IH; [done|lia].
Qed.

Lemma substring_all s : substring 0 (String.length s) s = s.
Proof. induction s as [|c s IH]; simpl; [done|]. by rewrite IH. Qed.

Lemma length_append s t :
  String.length (s +:+ t) = (String.length s + String.length t)%nat.
Proof. induction s as [|c s IH]; simpl; [done|]. by rewrite IH. Qed.

Lemma all_pads_snoc s c : all_pads (s +:+ String c "") = all_pads s && is_pad c.
Proof.
  induction s as [|d s IH]; simpl.
  - by rewrite andb_true_r.
  - rewrite IH. by rewrite andb_assoc.
Qed.

Lemma trailing_pads_le s : (trailing_pads s <= String.length s)%nat.
Proof.
  induction s as [|d s IH]; [done|].
  cbn [trailing_pads]. destruct (all_pads (String d s)); simpl; lia.
Qed.

Lemma trailing_pads_snoc s c :
  trailing_pads (s +:+ String c "") = if is_pad c then S (trailing_pads s) else O.
Proof.
  induction s as [|d s IH].
  - simpl. rewrite andb_true_r. by destruct (is_pad c).
  - change (String d s +:+ String c "") with (String d (s +:+ String c "")).
    cbn [trailing_pads]. rewrite IH.
    change (all_pads (String d (s +:+ String c "")))
      with (is_pad d && all_pads (s +:+ String c "")).
    change (all_pads (String d s)) with (is_pad d && all_pads s).
    rewrite all_pads_snoc, length_append. simpl.
    destruct (is_pad d), (all_pads s), (is_pad c); simpl; try reflexivity; f_equal; lia.
Qed.

Lemma all_pads_trailing s : all_pads s = true <-> trailing_pads s = String.length s.
Proof.
  destruct s as [|c s]; [done|].
  cbn [trailing_pads]. destruct (all_pads (String c s)) eqn:E; simpl.
  - done.
  - pose proof (trailing_pads_le s). split; [done|lia].
Qed.

(** What the loop of [removePaddingChars] returns when it starts at [n]. *)
Lemma removePaddingChars_from_spec s (n : nat) :
  (n <= String.length s)%nat ->
  removePaddingChars_from s n =
    if all_pads (substring 0 n s) then s
    else substring 0 (n - trailing_pads (substring 0 n s)) s.
Proof.
  induction n as [|n IH]; intros Hn.
  - simpl. by destruct s.
  - cbn [removePaddingChars_from].
    rewrite substring_snoc by lia.
    destruct (charAt_inside s n) as [c Hc]; [lia|]. rewrite Hc.
    rewrite all_pads_snoc, trailing_pads_snoc.
    assert (Heq : String.eqb (String c "") "=" = is_pad c).
    { unfold is_pad. simpl. by destruct (Ascii.eqb c "="). }
    rewrite Heq. destruct (is_pad c).
    + rewrite IH by lia. rewrite andb_true_r.
      destruct (all_pads (substring 0 n s)); [done|].
      f_equal.
    + rewrite andb_false_r, Nat.sub_0_r. rewrite (substring_snoc s n) by lia.
      by rewrite Hc.
Qed.

Lemma length_removePaddingChars s :
  String.length (removePaddingChars s) =
    if all_pads s then String.length s else (String.length s - trailing_pads s)%nat.
Proof.
  unfold removePaddingChars. rewrite removePaddingChars_from_spec by lia.
  rewrite substring_all. destruct (all_pads s); [done|].
  apply length_substring. lia.
Qed.

(** C5. For an input whose length after the removal of the characters
    outside the alphabet is a multiple of 4 and which ends in 0, 1 or 2
    padding symbols, [decode] returns a buffer of (that length / 4) * 3
    bytes less one byte for each of those padding symbols. *)
Theorem decode_length (input : string) :
  let n := Z.of_nat (String.length (strip input)) in
  let pads := Z.of_nat (trailing_pads (strip input)) in
  n mod 4 = 0 ->
  pads <= 2 ->
  exists buffer, decode input = Some buffer /\ Z.of_nat (length buffer) = n / 4 * 3 - pads.
Proof.
  intros n pads Hn Hp.
  destruct (length_decode input) as (buffer & Hb & Hl).
  exists buffer. split; [done|]. rewrite Hl. unfold cleaned.
  rewrite length_removePaddingChars.
  pose proof (trailing_pads_le (strip input)) as Hle.
  destruct (all_pads (strip input)) eqn:E.
  - apply all_pads_trailing in E. fold n.
    assert (n = pads) by (unfold n, pads; lia).
    assert (n = 0) by (apply Z.mod_divide in Hn; [destruct Hn as [q Hq]|]; lia).
    assert (pads = 0) by lia. rewrite H0, H1. reflexivity.
  - rewrite Nat2Z.inj_sub by done. fold n pads.
    apply Z.mod_divide in Hn; [|lia]. destruct Hn as [q Hq]. rewrite Hq.
    rewrite Z.div_mul by lia.
    assert (0 <= pads) by (unfold pads; lia).
    assert (Hcase : pads = 0 \/ pads = 1 \/ pads = 2) by lia.
    destruct Hcase as [-> | [-> | ->]].
    + replace ((q * 4 - 0) * 3) with ((q * 3) * 4) by lia. rewrite Z.div_mul by lia. lia.
    + replace ((q * 4 - 1) * 3) with (1 + (q * 3 - 1) * 4) by lia.
      rewrite Z.div_add by lia. change (1 / 4) with 0. lia.
    + replace ((q * 4 - 2) * 3) with (2 + (q * 3 - 2) * 4) by lia.
      rewrite Z.div_add by lia. change (2 / 4) with 0. lia.
Qed.

(** The text [ABCD] with its padding, between spaces that are removed:
    eight symbols, two of them padding, four bytes. *)
Lemma decode_length_witness :
  exists buffer, decode " QUJDRA== " = Some buffer /\ Z.of_nat (length buffer) = 8 / 4 * 3 - 2.
Proof. apply (decode_length " QUJDRA== "); vm_compute; [reflexivity|discriminate]. Defined.

(** *** The groups *)

Lemma lookup_decode_group input (g : nat) u (idx : nat) :
  decode_group input (3 * Z.of_nat g) (4 * Z.of_nat g) u !! idx =
    if decide (idx = 3 * g)%nat then stored u idx (chr1 (sym input g 0) (sym input g 1))
    else if decide (idx = 3 * g + 1)%nat then
      if sym input g 2 =? 64 then u !! idx
      else stored u idx (chr2 (sym input g 1) (sym input g 2))
    else if decide (idx = 3 * g + 2)%nat then
      if sym input g 3 =? 64 then u !! idx
      else stored u idx (chr3 (sym input g 2) (sym input g 3))
    else u !! idx.
Proof.
  unfold decode_group, sym, stored. rewrite Z.add_0_r.
  destruct (enc input (4 * Z.of_nat g + 2) =? 64), (enc input (4 * Z.of_nat g + 3) =? 64);
    rewrite ?lookup_store by lia;
    repeat case_decide; try lia; try reflexivity;
    try (destruct (u !! idx); reflexivity).
Qed.

(** The loop, started at group [g], leaves the cells of the earlier groups
    alone and makes each later cell what [group_cell] says. *)
Lemma decode_loop_lookup input :
  forall (fuel g : nat) (u r : list Z),
    decode_loop fuel input (bytes_of input) (3 * Z.of_nat g) (4 * Z.of_nat g) u = Some r ->
    forall idx : nat,
      r !! idx = if (idx <? 3 * g)%nat then u !! idx else group_cell input u idx.
Proof.
  induction fuel as [|fuel IH]; intros g u r; cbn [decode_loop]; rewrite Qltb_bytes;
    destruct (Z.ltb_spec (4 * (3 * Z.of_nat g)) (3 * Z.of_nat (String.length input)))
      as [Hlt|Hge];
    try discriminate.
  - intros [= <-] idx. destruct (Nat.ltb_spec idx (3 * g)); [done|].
    unfold group_cell.
    destruct (Z.ltb_spec (4 * Z.of_nat (idx / 3)) (Z.of_nat (String.length input)));
      [|done].
    assert (g <= idx / 3)%nat by (apply Nat.div_le_lower_bound; lia). lia.
  - replace (3 * Z.of_nat g + 3) with (3 * Z.of_nat (S g)) by lia.
    replace (4 * Z.of_nat g + 4) with (4 * Z.of_nat (S g)) by lia.
    intros Hr idx. rewrite (IH _ _ _ Hr idx).
    pose proof (Nat.div_mod_eq idx 3) as Hdm.
    pose proof (Nat.mod_upper_bound idx 3) as Hmb.
    destruct (Nat.ltb_spec idx (3 * S g)) as [H1|H1],
             (Nat.ltb_spec idx (3 * g)) as [H2|H2]; try lia.
    + rewrite lookup_decode_group. repeat case_decide; try lia. reflexivity.
    + assert (Hg : (idx / 3 = g)%nat).
      { symmetry. apply (Nat.div_unique idx 3 g (idx - 3 * g)); lia. }
      rewrite lookup_decode_group. unfold group_cell. rewrite Hg.
      destruct (Z.ltb_spec (4 * Z.of_nat g) (Z.of_nat (String.length input))); [|lia].
      assert (Hm : (idx mod 3 = idx - 3 * g)%nat) by lia.
      rewrite Hm.
      repeat case_decide; try lia.
      * replace (idx - 3 * g)%nat with 0%nat by lia. reflexivity.
      * replace (idx - 3 * g)%nat with 1%nat by lia. reflexivity.
      * replace (idx - 3 * g)%nat with 2%nat by lia. reflexivity.
    + unfold group_cell, stored. rewrite !lookup_decode_group.
      repeat case_decide; try lia. reflexivity.
  - intros [= <-] idx. destruct (Nat.ltb_spec idx (3 * g)); [done|].
    unfold group_cell.
    destruct (Z.ltb_spec (4 * Z.of_nat (idx / 3)) (Z.of_nat (String.length input)));
      [|done].
    assert (g <= idx / 3)%nat by (apply Nat.div_le_lower_bound; lia). lia.
Qed.

(** The character class of the regular expression is the alphabet
    [keyStr], and the padding symbol is the one with index 64. *)
Lemma in_class_keyStr (c : ascii) :
  in_class c = (0 <=? indexOf keyStr (String c ""))
  /\ is_pad c = (indexOf keyStr (String c "") =? 64).
Proof. destruct c as [[] [] [] [] [] [] [] []]; vm_compute; split; reflexivity. Qed.

Lemma strip_filter (input : string) :
  list_ascii_of_string (strip input) =
    filter (fun c => in_class c = true) (list_ascii_of_string input).
Proof.
  induction input as [|c s IH]; [done|].
  cbn [strip list_ascii_of_string]. rewrite filter_cons.
  destruct (in_class c) eqn:E.
  - rewrite decide_True by done. cbn [list_ascii_of_string]. by rewrite IH.
  - rewrite decide_False by done. exact IH.
Qed.

(** C6, as the claim words it, fails: in the one group [AA=B] the third
    symbol is the padding symbol and the third byte is stored all the
    same (1, over the 0 of the new buffer and over the 7 of an array of
    sevens), while the second byte is not. *)
Lemma third_byte_stored_despite_padding :
  charAt (cleaned "AA=B") 2 = "="
  /\ decode "AA=B" = Some [0; 0; 1]
  /\ decode_from [7; 7; 7] "AA=B" = Some [0; 7; 1].
Proof. evaluate. Qed.

(** C6, amended. [decode] removes the characters outside the alphabet of
    65 symbols (and the padding at the end), then works on the input in
    groups of four symbols and three bytes: in each group the first byte
    is stored, the second byte is stored if and only if the third symbol
    is not the padding symbol, and the third byte if and only if the
    fourth symbol is not; no other cell is touched. *)
Theorem decode_groups (input : string) (uarray : list Z) :
  (forall c, in_class c = (0 <=? indexOf keyStr (String c ""))
             /\ is_pad c = (indexOf keyStr (String c "") =? 64))
  /\ list_ascii_of_string (strip input) =
       filter (fun c => in_class c = true) (list_ascii_of_string input)
  /\ cleaned input = removePaddingChars (strip input)
  /\ exists r, decode_from uarray input = Some r
       /\ length r = length uarray
       /\ forall idx : nat, r !! idx = group_cell (cleaned input) uarray idx.
Proof.
  split; [apply in_class_keyStr|]. split; [apply strip_filter|]. split; [reflexivity|].
  destruct (decode_from_total uarray input) as (r & Hr & Hl).
  exists r. split; [done|]. split; [done|]. intros idx.
  unfold decode_from in Hr.
  exact (decode_loop_lookup (cleaned input) _ 0 uarray r Hr idx).
Qed.

End Base64DecoderFacts.

(** ** AudioPlayer *)

Section AudioPlayerFacts.
Import AudioPlayer.

Lemma alter_snoc {A} (f : A -> A) (l : list A) (x : A) :
  alter f (length l) (l ++ [x]) = l ++ [f x].
Proof.
  replace (length l) with (length l + 0)%nat by lia.
  by rewrite alter_app_r.
Qed.

Lemma play_fresh id buf p :
  sources p !! id = None ->
  play id buf p =
    {| currentTime := currentTime p; gain := gain p;
       nodes := nodes p ++
         [{| buffer := Some buf; connected := true;
             startAt := Some (currentTime p); stopAt := None; note := id |}];
       sources := <[id := length (nodes p)]> (sources p);
       stopDelay := stopDelay p |}.
Proof.
  intros H. unfold play. rewrite H. unfold set_nodes, set_sources; simpl.
  by rewrite !alter_snoc.
Qed.

Lemma play_taken id buf p : is_Some (sources p !! id) -> play id buf p = p.
Proof. intros [n H]. unfold play. by rewrite H. Qed.

Lemma inv_constructor opts : inv (constructor opts).
Proof.
  split; simpl.
  - intros id n H. by rewrite lookup_empty in H.
  - intros n nd H. by rewrite lookup_nil in H.
Qed.

Lemma inv_play id buf p : inv p -> inv (play id buf p).
Proof.
  intros [H1 H2]. destruct (sources p !! id) as [n|] eqn:E.
  { rewrite play_taken by eauto. by split. }
  rewrite play_fresh by done. split; simpl.
  - intros id' n. rewrite lookup_insert. case_decide as Hid.
    + intros [= <-]. subst id'. eexists. split.
      { rewrite lookup_app_r by lia. rewrite Nat.sub_diag. reflexivity. }
      split; reflexivity.
    + intros Hs. destruct (H1 _ _ Hs) as (nd & Hn & Hl & Ht).
      exists nd. split; [|done]. by apply lookup_app_l_Some.
  - intros n nd Hn Hl.
    destruct (decide (n < length (nodes p))%nat) as [Hlt|Hge].
    + rewrite lookup_app_l in Hn by done.
      specialize (H2 _ _ Hn Hl).
      rewrite lookup_insert_ne; [done|]. intros ->. congruence.
    + rewrite lookup_app_r in Hn by lia.
      destruct (n - length (nodes p))%nat as [|k] eqn:Ek; simpl in Hn; [|by rewrite lookup_nil in Hn].
      injection Hn as <-. simpl. rewrite lookup_insert_eq. f_equal. lia.
Qed.

Lemma inv_pause id p : inv p -> inv (pause id p).
Proof.
  intros [H1 H2]. unfold pause. destruct (sources p !! id) as [n|] eqn:E; [|by split].
  destruct (H1 _ _ E) as (nd & Hn & Hl & Ht).
  split; simpl.
  - intros id' n'. rewrite lookup_delete. case_decide as Hid; [done|].
    intros Hs. destruct (H1 _ _ Hs) as (nd' & Hn' & Hl' & Ht').
    exists nd'. split; [|done].
    rewrite list_lookup_alter_ne; [done|].
    intros ->. rewrite Hn in Hn'. injection Hn' as <-. congruence.
  - intros n' nd' Hn' Hl'.
    destruct (decide (n = n')) as [<-|Hne].
    + rewrite list_lookup_alter_eq, Hn in Hn'. simpl in Hn'. injection Hn' as <-.
      unfold live, stop in Hl'. simpl in Hl'. by destruct (startAt nd).
    + rewrite list_lookup_alter_ne in Hn' by done.
      specialize (H2 _ _ Hn' Hl').
      rewrite lookup_delete_ne; [done|].
      intros Heq. rewrite Heq in E. congruence.
Qed.

Lemma inv_fold_pause ids : forall p, inv p -> inv (foldl (fun p id => pause id p) p ids).
Proof. induction ids as [|id ids IH]; intros p Hp; simpl; [done|]. apply IH, inv_pause, Hp. Qed.

Lemma inv_step p o : inv p -> inv (step p o).
Proof.
  destruct o; simpl; intros H.
  - by apply inv_play.
  - by apply inv_pause.
  - by apply inv_fold_pause.
  - exact H.
Qed.

Lemma inv_run ops : forall p, inv p -> inv (run ops p).
Proof.
  induction ops as [|o ops IH]; intros p Hp; [done|].
  apply IH, inv_step, Hp.
Qed.

Lemma filter_none {A} (P : A -> Prop) `{forall x, Decision (P x)} (l : list A) :
  (forall x, x ∈ l -> ~ P x) -> filter P l = [].
Proof.
  intros Hn. destruct (filter P l) as [|x k] eqn:E; [done|].
  assert (Hx : x ∈ filter P l) by (rewrite E; apply list_elem_of_here).
  apply list_elem_of_filter in Hx as [Px Hx]. by destruct (Hn x Hx).
Qed.

Lemma filter_at_most_one {A} (P : A -> Prop) `{forall x, Decision (P x)} (l : list A) :
  (forall i j x y, l !! i = Some x -> l !! j = Some y -> P x -> P y -> i = j) ->
  (length (filter P l) <= 1)%nat.
Proof.
  induction l as [|x l IH]; intros Hu; [simpl; lia|].
  rewrite filter_cons. destruct (decide (P x)) as [Hx|Hx].
  - assert (Hnil : filter P l = []).
    { apply filter_none. intros y Hy Py.
      apply list_elem_of_lookup in Hy as [j Hj].
      specialize (Hu 0%nat (S j) x y eq_refl Hj Hx Py). lia. }
    rewrite Hnil. simpl. lia.
  - apply IH. intros i j a b Hi Hj Pa Pb.
    specialize (Hu (S i) (S j) a b Hi Hj Pa Pb). lia.
Qed.

Lemma voices_at_most_one id p : inv p -> (length (voices id p) <= 1)%nat.
Proof.
  intros [_ H2]. apply filter_at_most_one.
  intros i j x y Hi Hj [Lx Nx] [Ly Ny].
  pose proof (H2 _ _ Hi Lx) as Sx. pose proof (H2 _ _ Hj Ly) as Sy.
  rewrite Nx in Sx. rewrite Ny in Sy. congruence.
Qed.

Lemma voices_one id n p :
  inv p -> sources p !! id = Some n -> length (voices id p) = 1%nat.
Proof.
  intros Hp Hs. pose proof (voices_at_most_one id p Hp) as Hle.
  destruct Hp as [H1 _]. destruct (H1 _ _ Hs) as (nd & Hn & Hl & Ht).
  assert (Hin : nd ∈ voices id p).
  { apply list_elem_of_filter. split; [done|]. by eapply list_elem_of_lookup_2. }
  destruct (voices id p); [by apply not_elem_of_nil in Hin|]. simpl in *. lia.
Qed.

Lemma voices_none id p : inv p -> sources p !! id = None -> voices id p = [].
Proof.
  intros [_ H2] Hs. apply filter_none.
  intros nd Hin [Hl Hn]. apply list_elem_of_lookup in Hin as [n Hn'].
  specialize (H2 _ _ Hn' Hl). congruence.
Qed.

Lemma sources_play id buf p : is_Some (sources (play id buf p) !! id).
Proof.
  destruct (sources p !! id) eqn:E.
  - rewrite play_taken by eauto. eauto.
  - rewrite play_fresh by done. simpl. rewrite lookup_insert_eq. eauto.
Qed.

(** C4. In every state that the player reaches from its construction by
    calls of [play], [pause] and [pauseAll] (and the passing of time), a
    note has at most one live voice; a second [play] for a note changes
    nothing, and after it the note has exactly one live voice. *)
Theorem one_voice_per_note (opts : option Q) (ops : list op) (id : string) (b1 b2 : value) :
  let p := run ops (constructor opts) in
  (length (voices id p) <= 1)%nat
  /\ play id b2 (play id b1 p) = play id b1 p
  /\ length (voices id (play id b2 (play id b1 p))) = 1%nat.
Proof.
  intros p.
  assert (Hp : inv p) by apply inv_run, inv_constructor.
  split; [by apply voices_at_most_one|].
  assert (Hidem : play id b2 (play id b1 p) = play id b1 p)
    by apply play_taken, sources_play.
  split; [done|]. rewrite Hidem.
  destruct (sources_play id b1 p) as [n Hn].
  eapply voices_one; [by apply inv_play|done].
Qed.

(** *** pause and pauseAll *)

Lemma pause_idle id p : sources p !! id = None -> pause id p = p.
Proof. intros H. unfold pause. by rewrite H. Qed.

Lemma pause_active id n p :
  sources p !! id = Some n ->
  pause id p =
    set_sources (delete id)
      (set_nodes (alter (stop (currentTime p + stopDelay p)%Q) n) p).
Proof. intros H. unfold pause. by rewrite H. Qed.

Lemma sources_pause id p : sources (pause id p) = delete id (sources p).
Proof.
  unfold pause. destruct (sources p !! id) eqn:E; [done|].
  by rewrite delete_id.
Qed.

Lemma clock_pause id p :
  currentTime (pause id p) = currentTime p /\ stopDelay (pause id p) = stopDelay p.
Proof. unfold pause. by destruct (sources p !! id). Qed.

(** A voice whose stop is scheduled is out of reach of later calls. *)
Lemma nodes_pause_other id p n nd :
  inv p -> nodes p !! n = Some nd -> sources p !! id <> Some n ->
  nodes (pause id p) !! n = Some nd.
Proof.
  intros _ Hn Hs. unfold pause. destruct (sources p !! id) as [m|] eqn:E; [|done].
  simpl. rewrite list_lookup_alter_ne; [done|]. congruence.
Qed.

Lemma fold_pause_stopped ids : forall p n nd,
  inv p -> nodes p !! n = Some nd -> live nd = false ->
  nodes (foldl (fun p id => pause id p) p ids) !! n = Some nd.
Proof.
  induction ids as [|id ids IH]; intros p n nd Hp Hn Hl; [done|].
  simpl. apply IH; [by apply inv_pause| |done].
  apply nodes_pause_other; [done..|].
  intros Hs. destruct Hp as [H1 _]. destruct (H1 _ _ Hs) as (nd' & Hn' & Hl' & _).
  congruence.
Qed.

Lemma fold_pause_clock ids : forall p,
  currentTime (foldl (fun p id => pause id p) p ids) = currentTime p
  /\ stopDelay (foldl (fun p id => pause id p) p ids) = stopDelay p.
Proof.
  induction ids as [|id ids IH]; intros p; [done|]. simpl.
  destruct (IH (pause id p)) as [-> ->]. apply clock_pause.
Qed.

Lemma fold_pause_sources ids : forall p id,
  sources (foldl (fun p id => pause id p) p ids) !! id =
    if decide (id ∈ ids) then None else sources p !! id.
Proof.
  induction ids as [|i ids IH]; intros p id.
  - cbn [foldl]. case_decide as H; [by apply elem_of_nil in H|done].
  - cbn [foldl]. rewrite IH, sources_pause, lookup_delete.
    destruct (decide (id ∈ ids)) as [Hin|Hin].
    + by rewrite decide_True by (by apply list_elem_of_further).
    + destruct (decide (i = id)) as [->|Hne].
      * by rewrite decide_True by apply list_elem_of_here.
      * rewrite decide_False; [done|]. intros [?|?]%elem_of_cons; congruence.
Qed.

Lemma fold_pause_node ids : forall p id n nd,
  inv p -> id ∈ ids -> sources p !! id = Some n -> nodes p !! n = Some nd ->
  nodes (foldl (fun p id => pause id p) p ids) !! n =
    Some (stop (currentTime p + stopDelay p)%Q nd).
Proof.
  induction ids as [|i ids IH]; intros p id n nd Hp Hin Hs Hn.
  { by apply elem_of_nil in Hin. }
  simpl. destruct (decide (i = id)) as [->|Hne].
  - apply fold_pause_stopped; [by apply inv_pause| |].
    + rewrite (pause_active id n p Hs). simpl. by rewrite list_lookup_alter_eq, Hn.
    + unfold live, stop. simpl. by destruct (startAt nd).
  - apply elem_of_cons in Hin as [?|Hin]; [congruence|].
    destruct (clock_pause i p) as [Hc Hd]. rewrite <- Hc, <- Hd.
    apply (IH (pause i p) id); [by apply inv_pause|done| |].
    + by rewrite sources_pause, lookup_delete_ne.
    + apply nodes_pause_other; [done..|].
      intros Hi. destruct Hp as [H1 _].
      destruct (H1 _ _ Hi) as (x & Hx & _ & Hxi).
      destruct (H1 _ _ Hs) as (y & Hy & _ & Hyi). congruence.
Qed.

Lemma pauseAll_sources p : sources (pauseAll p) = ∅.
Proof.
  apply map_eq. intros id. unfold pauseAll. rewrite fold_pause_sources, lookup_empty.
  case_decide as Hin; [done|].
  destruct (sources p !! id) as [n|] eqn:E; [|done].
  destruct Hin. apply list_elem_of_fmap. exists (id, n). split; [done|].
  by apply elem_of_map_to_list.
Qed.

Lemma pauseAll_node p id n :
  inv p -> sources p !! id = Some n ->
  nodes (pauseAll p) !! n = nodes (pause id p) !! n
  /\ exists nd, nodes p !! n = Some nd
       /\ nodes (pauseAll p) !! n = Some (stop (currentTime p + stopDelay p)%Q nd).
Proof.
  intros Hp Hs. destruct Hp as [H1 H2]. destruct (H1 _ _ Hs) as (nd & Hn & _).
  assert (Hall : nodes (pauseAll p) !! n = Some (stop (currentTime p + stopDelay p)%Q nd)).
  { apply (fold_pause_node _ p id); [by split| |done..].
    apply list_elem_of_fmap. exists (id, n). split; [done|]. by apply elem_of_map_to_list. }
  split; [|eauto].
  rewrite Hall, (pause_active id n p Hs). simpl. by rewrite list_lookup_alter_eq, Hn.
Qed.

Lemma inv_pauseAll p : inv p -> inv (pauseAll p).
Proof. apply inv_fold_pause. Qed.

Lemma clock_step p o : stopDelay (step p o) = stopDelay p.
Proof.
  destruct o; simpl; [|apply clock_pause|apply fold_pause_clock|done].
  unfold play. by destruct (sources p !! id).
Qed.

Lemma stopDelay_run ops : forall p, stopDelay (run ops p) = stopDelay p.
Proof.
  induction ops as [|o ops IH]; intros p; [done|].
  unfold run in *. simpl. by rewrite IH, clock_step.
Qed.

(** C7. [pause] on a note without a voice changes nothing. On a note with
    a voice it schedules the stop of that voice at the current time plus
    [stopDelay] and removes the voice from [sources] at once, so that a
    following [play] for the note makes a new node, started now, beside
    the old one whose stop stays scheduled. [stopDelay] is the one given
    at construction, 0.3 when none is given. *)
Theorem pause_schedules_stop (opts : option Q) (ops : list op) (id : string) :
  let p := run ops (constructor opts) in
  (sources p !! id = None -> pause id p = p)
  /\ (forall n, sources p !! id = Some n ->
        exists nd,
          nodes p !! n = Some nd
          /\ nodes (pause id p) = <[n := stop (currentTime p + stopDelay p)%Q nd]> (nodes p)
          /\ sources (pause id p) = delete id (sources p)
          /\ voices id (pause id p) = []
          /\ forall buf,
               let p' := play id buf (pause id p) in
               let fresh := length (nodes p) in
               n <> fresh
               /\ sources p' !! id = Some fresh
               /\ nodes p' !! fresh =
                    Some {| buffer := Some buf; connected := true;
                            startAt := Some (currentTime p); stopAt := None; note := id |}
               /\ nodes p' !! n = Some (stop (currentTime p + stopDelay p)%Q nd))
  /\ stopDelay p = stopDelay (constructor opts)
  /\ stopDelay (constructor None) = (3 # 10)%Q.
Proof.
  intros p.
  assert (Hp : inv p) by apply inv_run, inv_constructor.
  split; [apply pause_idle|]. split; [|split; [apply stopDelay_run|reflexivity]].
  intros n Hs. destruct (proj1 Hp _ _ Hs) as (nd & Hn & Hl & Ht).
  exists nd. split; [done|].
  assert (Hlt : (n < length (nodes p))%nat) by (by eapply lookup_lt_Some).
  assert (Hnodes : nodes (pause id p) = <[n := stop (currentTime p + stopDelay p)%Q nd]> (nodes p)).
  { rewrite (pause_active id n p Hs). simpl.
    apply list_eq. intros i. destruct (decide (i = n)) as [->|Hne].
    - by rewrite list_lookup_alter_eq, Hn, list_lookup_insert_eq.
    - by rewrite list_lookup_alter_ne, list_lookup_insert_ne. }
  split; [done|]. split; [apply sources_pause|].
  assert (Hnone : sources (pause id p) !! id = None)
    by (by rewrite sources_pause, lookup_delete_eq).
  split; [apply voices_none; [by apply inv_pause|done]|].
  intros buf p' fresh. unfold p', fresh.
  rewrite (play_fresh id buf (pause id p) Hnone). simpl.
  destruct (clock_pause id p) as [-> _].
  rewrite Hnodes, length_insert.
  split; [lia|]. split; [by rewrite lookup_insert_eq|].
  split.
  - rewrite lookup_app_r by (rewrite length_insert; lia).
    by rewrite length_insert, Nat.sub_diag.
  - rewrite lookup_app_l by (rewrite length_insert; lia).
    by rewrite list_lookup_insert_eq.
Qed.
End AudioPlayerFacts.

(** ** Keyboard *)

Section KeyboardFacts.
Import Keyboard.

Lemma release_idle c k : pressed c k = false -> release c k = Done tt k.
Proof. intros Hp. unfold release. monad. by rewrite Hp. Qed.

Lemma release_held c k e :
  pressed c k = true ->
  keys k !! c = Some e ->
  release c k =
    Done tt (set_marks (delete c)
               (set_keys (insert c (classList_remove "key-pressed" e))
                  (set_marks (insert c false) k))).
Proof.
  intros Hp Hk. unfold release, with_key. monad. rewrite Hp.
  cbn [negb keys set_marks]. rewrite Hk. reflexivity.
Qed.

Lemma marks_release c k k' d :
  release c k = Done tt k' ->
  marks k' !! d = if decide (d = c) then (if pressed c k then None else marks k !! d)
                  else marks k !! d.
Proof.
  destruct (pressed c k) eqn:Hp.
  - unfold release, with_key. monad. rewrite Hp. cbn [negb keys set_marks].
    destruct (keys k !! c); [|discriminate]. intros [= <-]. cbn [marks set_marks set_keys].
    rewrite lookup_delete. case_decide; case_decide; try congruence.
    by rewrite lookup_insert_ne.
  - rewrite release_idle by done. intros [= <-]. by case_decide.
Qed.

Lemma keys_release c k k' d :
  release c k = Done tt k' -> is_Some (keys k' !! d) <-> is_Some (keys k !! d).
Proof.
  destruct (pressed c k) eqn:Hp.
  - unfold release, with_key. monad. rewrite Hp. cbn [negb keys set_marks].
    destruct (keys k !! c) eqn:Hk; [|discriminate]. intros [= <-]. cbn [keys set_marks set_keys].
    rewrite lookup_insert. case_decide; [subst; rewrite Hk|]; split; eauto.
  - rewrite release_idle by done. by intros [= <-].
Qed.

Lemma pressed_marks c k : pressed c k = true <-> marks k !! c = Some true.
Proof. unfold pressed. destruct (marks k !! c) as [[]|]; split; congruence. Qed.

Lemma for_each_release ids : forall k,
  drawn k ->
  exists k', for_each ids release k = Done tt k'
    /\ drawn k'
    /\ forall d, marks k' !! d =
         if decide (d ∈ ids) then (if pressed d k then None else marks k !! d)
         else marks k !! d.
Proof.
  induction ids as [|c ids IH]; intros k Hk.
  - exists k. split; [done|]. split; [done|]. intros d. case_decide as H; [|done].
    by apply elem_of_nil in H.
  - assert (exists k1, release c k = Done tt k1) as [k1 H1].
    { destruct (pressed c k) eqn:Hp.
      - destruct (Hk c Hp) as [e He]. rewrite (release_held c k e Hp He). eauto.
      - rewrite release_idle by done. eauto. }
    assert (Hk1 : drawn k1).
    { intros d Hd. apply (keys_release c k k1 d H1). apply Hk.
      apply pressed_marks in Hd. rewrite (marks_release c k k1 d H1) in Hd.
      apply pressed_marks. case_decide; [|done]. subst. by destruct (pressed c k). }
    destruct (IH k1 Hk1) as (k' & Hrun & Hk' & Hm).
    exists k'. split.
    { cbn [for_each]. monad. rewrite H1. exact Hrun. }
    split; [done|]. intros d. rewrite Hm, (marks_release c k k1 d H1).
    assert (Hpd : pressed d k1 = if decide (d = c) then false else pressed d k).
    { unfold pressed at 1. rewrite (marks_release c k k1 d H1).
      case_decide; [|done]. subst. destruct (pressed c k) eqn:E; [done|].
      unfold pressed in E. by destruct (marks k !! c) as [[]|]. }
    rewrite Hpd.
    destruct (decide (d = c)) as [->|Hne].
    + rewrite (decide_True (P := c ∈ c :: ids)) by apply list_elem_of_here.
      by destruct (decide (c ∈ ids)).
    + destruct (decide (d ∈ ids)) as [Hin|Hin].
      * by rewrite decide_True by (by apply list_elem_of_further).
      * rewrite decide_False; [done|]. intros [?|?]%elem_of_cons; done.
Qed.

Lemma releaseAll_spec k :
  drawn k ->
  exists k', releaseAll k = Done tt k'
    /\ (forall c, pressed c k' = false)
    /\ (forall c, pressed c k = true -> marks k' !! c = None).
Proof.
  intros Hk. unfold releaseAll. monad.
  destruct (for_each_release (map fst (map_to_list (marks k))) k Hk) as (k' & Hrun & _ & Hm).
  exists k'. split; [done|].
  assert (Hin : forall c, pressed c k = true -> c ∈ map fst (map_to_list (marks k))).
  { intros c Hc. apply pressed_marks in Hc. apply list_elem_of_fmap.
    exists (c, true). split; [done|]. by apply elem_of_map_to_list. }
  split.
  - intros c. destruct (pressed c k') eqn:E; [|done].
    apply pressed_marks in E. rewrite Hm in E.
    destruct (pressed c k) eqn:Ec.
    + rewrite decide_True in E by auto. done.
    + assert (marks k !! c = Some true) by (by case_decide).
      apply pressed_marks in H. congruence.
  - intros c Hc. rewrite Hm, decide_True by auto. by rewrite Hc.
Qed.
End KeyboardFacts.

(** ** The handlers *)

Lemma note_text_keyboard note a t f :
  note_text note a = Done t a -> note_text note (set_keyboard f a) = Done t (set_keyboard f a).
Proof.
  unfold note_text, table_get. monad. cbn [settings notesDigits notesLily set_keyboard].
  destruct (String.eqb (output (settings a)) "digit").
  - destruct (json (notesDigits a)); [|discriminate]. by intros [= ->].
  - destruct (json (notesLily a)) as [ts|]; [|discriminate].
    destruct (ts !! output (settings a)); [|discriminate]. by intros [= ->].
Qed.

Lemma press_fresh c k e :
  Keyboard.pressed c k = false ->
  Keyboard.keys k !! c = Some e ->
  Keyboard.press c k =
    Done tt (Keyboard.set_keys (insert c (Keyboard.classList_add "key-pressed" e))
               (Keyboard.set_marks (insert c true) k)).
Proof.
  intros Hp Hk. unfold Keyboard.press, Keyboard.with_key. monad. rewrite Hp.
  cbn [Keyboard.keys Keyboard.set_marks]. rewrite Hk. reflexivity.
Qed.

Lemma press_again c k : Keyboard.pressed c k = true -> Keyboard.press c k = Done tt k.
Proof. intros Hp. unfold Keyboard.press. monad. by rewrite Hp. Qed.

(** [press] succeeds on a key that is on the page, and leaves it held and on the page. *)
Lemma press_drawn c k :
  is_Some (Keyboard.keys k !! c) ->
  exists k1, Keyboard.press c k = Done tt k1
    /\ Keyboard.pressed c k1 = true
    /\ is_Some (Keyboard.keys k1 !! c).
Proof.
  intros [e He]. destruct (Keyboard.pressed c k) eqn:Hp.
  - exists k. rewrite press_again by done. eauto.
  - eexists. rewrite (press_fresh c k e Hp He). split; [done|]. split.
    + unfold Keyboard.pressed. cbn [Keyboard.marks Keyboard.set_keys Keyboard.set_marks].
      by rewrite lookup_insert_eq.
    + cbn [Keyboard.keys Keyboard.set_keys]. rewrite lookup_insert_eq. eauto.
Qed.

Lemma arrow_false c :
  arrow c = false ->
  String.eqb c "ArrowRight" = false /\ String.eqb c "ArrowDown" = false
  /\ String.eqb c "ArrowLeft" = false.
Proof.
  unfold arrow. intros H. apply orb_false_elim in H as [H H3].
  apply orb_false_elim in H as [H1 H2]. done.
Qed.

Lemma keyDown_mapped a c cn note k1 text p entries :
  arrow c = false ->
  codesNotes a = Some cn -> cn !! c = Some note ->
  Keyboard.press c (keyboard a) = Done tt k1 ->
  note_text note a = Done text a ->
  player a = Some p ->
  json (notesBuffers a) = Some entries ->
  onKeyDown_running {| code := c; repeat := false |} a =
    Done tt
      (set_player (fun _ => Some (AudioPlayer.play note (bank_get entries note) p))
         (set_storage (fun _ => Some (Logger.export (Logger.insert (output (settings a)) text (logger a))))
            (set_logger (Logger.insert (output (settings a)) text)
               (set_keyboard (fun _ => k1) a)))).
Proof.
  intros Ha Hcn Hnote Hpress Htext Hp He.
  destruct (arrow_false c Ha) as (Ha1 & Ha2 & Ha3).
  unfold onKeyDown_running, note_of, onKeyboard, the_player, note_buffer. monad.
  cbn [code repeat]. rewrite Ha1, Ha2, Ha3, Hcn, Hnote, Hpress.
  rewrite (note_text_keyboard note a text (fun _ => k1) Htext).
  cbn [player set_storage set_logger set_keyboard]. rewrite Hp.
  cbn [json notesBuffers set_storage set_logger set_keyboard]. rewrite He.
  reflexivity.
Qed.

Lemma keyDown_ignored a e :
  ignored e a -> arrow (code e) = false -> onKeyDown_running e a = Done tt a.
Proof.
  intros Hi Ha. destruct (arrow_false _ Ha) as (Ha1 & Ha2 & Ha3).
  unfold onKeyDown_running, note_of. monad. rewrite Ha1, Ha2, Ha3.
  destruct (repeat e) eqn:Hr; [done|].
  destruct Hi as [Hi|(cn & Hcn & Hn)]; [congruence|]. by rewrite Hcn, Hn.
Qed.

Lemma keyUp_ignored a e : ignored e a -> onKeyUp e a = Done tt a.
Proof.
  intros Hi. unfold onKeyUp, note_of. monad. destruct (state a); try done.
  destruct (repeat e) eqn:Hr; [done|].
  destruct Hi as [Hi|(cn & Hcn & Hn)]; [congruence|]. by rewrite Hcn, Hn.
Qed.

Lemma keyUp_mapped a c cn note k3 p :
  state a = RUNNING ->
  codesNotes a = Some cn -> cn !! c = Some note ->
  Keyboard.release c (keyboard a) = Done tt k3 ->
  player a = Some p ->
  onKeyUp {| code := c; repeat := false |} a =
    Done tt (set_player (fun _ => Some (AudioPlayer.pause note p))
               (set_keyboard (fun _ => k3) a)).
Proof.
  intros Hs Hcn Hnote Hrel Hp.
  unfold onKeyUp, note_of, onKeyboard, the_player. monad.
  cbn [code repeat]. rewrite Hs, Hcn, Hnote, Hrel.
  cbn [player set_keyboard]. rewrite Hp. reflexivity.
Qed.

Lemma onApp_done {A} (c : M App A) w x a' :
  c (app w) = Done x a' -> onApp c w = Done x (set_app (fun _ => a') w).
Proof. intros H. unfold onApp, zoom. by rewrite H. Qed.

Lemma set_app_id w : set_app (fun _ => app w) w = w.
Proof. by destruct w. Qed.

Lemma handle_keyDown w e a' :
  state (app w) = RUNNING ->
  onKeyDown_running e (app w) = Done tt a' ->
  handle (KeyDown e) w = Done tt (set_app (fun _ => a') w).
Proof.
  intros Hs H. cbn [handle]. unfold onKeyDown. monad. rewrite Hs.
  by apply onApp_done.
Qed.

(** C3, amended. In the state RUNNING, the assets loaded and the logger
    switched on, for a key that the layout maps to a note, that is on the
    page and is none of ArrowRight, ArrowDown, ArrowLeft: key-down,
    repeated key-down, key-up leave the player as one [play] and then one
    [pause] of the note leave it, and the log and its stored copy one entry
    longer. A key-down that is a repeat or whose code is unmapped, and is
    none of the three arrows, changes nothing; so does every such key-up. *)
Theorem key_sequence_when_logging :
  (forall (w : World) (c : string) (cn : gmap string string) (note : string)
          (text : option string) (p : AudioPlayer.t) (entries : list (string * value)),
     let a := app w in
     state a = RUNNING ->
     Logger.enabled (logger a) = true ->
     arrow c = false ->
     codesNotes a = Some cn -> cn !! c = Some note ->
     is_Some (Keyboard.keys (keyboard a) !! c) ->
     note_text note a = Done text a ->
     player a = Some p ->
     json (notesBuffers a) = Some entries ->
     exists w1 w3,
       handle (KeyDown {| code := c; repeat := false |}) w = Done tt w1
       /\ handle (KeyDown {| code := c; repeat := true |}) w1 = Done tt w1
       /\ handle (KeyUp {| code := c; repeat := false |}) w1 = Done tt w3
       /\ player (app w1) = Some (AudioPlayer.play note (bank_get entries note) p)
       /\ player (app w3) =
            Some (AudioPlayer.pause note (AudioPlayer.play note (bank_get entries note) p))
       /\ Logger.tokens (logger (app w3)) = Logger.tokens (logger a) ++ [text]
       /\ storage (app w3) = Some (Logger.tokens (logger a) ++ [text]))
  /\ (forall (w : World) (e : KeyboardEvent),
        state (app w) = RUNNING -> ignored e (app w) -> arrow (code e) = false ->
        handle (KeyDown e) w = Done tt w)
  /\ (forall (w : World) (e : KeyboardEvent),
        ignored e (app w) -> handle (KeyUp e) w = Done tt w).
Proof.
  split; [|split].
  - intros w c cn note text p entries a Hs Hen Ha Hcn Hnote Hkey Htext Hp He.
    destruct (press_drawn c (keyboard a) Hkey) as (k1 & Hpress & Hheld & [e1 Hkey1]).
    pose proof (keyDown_mapped a c cn note k1 text p entries Ha Hcn Hnote Hpress Htext Hp He) as Hdown.
    set (a1 := set_player _ _) in Hdown.
    exists (set_app (fun _ => a1) w).
    pose proof (release_held c k1 e1 Hheld Hkey1) as Hrel.
    set (k3 := Keyboard.set_marks _ _) in Hrel.
    assert (Hup : onKeyUp {| code := c; repeat := false |} a1 =
                  Done tt (set_player (fun _ => Some (AudioPlayer.pause note
                             (AudioPlayer.play note (bank_get entries note) p)))
                             (set_keyboard (fun _ => k3) a1))).
    { apply (keyUp_mapped a1 c cn note k3); try done. }
    eexists. split; [by apply handle_keyDown|].
    split.
    { rewrite <- (set_app_id (set_app (fun _ => a1) w)) at 2.
      apply handle_keyDown; [done|]. apply keyDown_ignored; [by left|done]. }
    split.
    { cbn [handle]. apply onApp_done. exact Hup. }
    split; [done|]. split; [done|].
    unfold a1. cbn. unfold Logger.insert. rewrite Hen. cbn. done.
  - intros w e Hs Hi Ha. rewrite <- (set_app_id w) at 2.
    apply handle_keyDown; [done|]. by apply keyDown_ignored.
  - intros w e Hi. cbn [handle]. rewrite <- (set_app_id w) at 2.
    apply onApp_done. by apply keyUp_ignored.
Qed.

(** C10. With the logger switched off, [insert], [space], [return],
    [delete] and [clear] leave the logger as it is; in the state RUNNING a
    key-down without the repeat flag of a key that is mapped to a note, is
    none of ArrowRight, ArrowDown and ArrowLeft and has its element on the
    keyboard, the text of the note and the bank of samples loaded, still
    marks the key pressed and plays the note, and leaves the log as it
    was. *)
Theorem disabled_logger_keeps_log :
  (forall (output : string) (text : option string) (l : Logger.t),
     Logger.enabled l = false ->
     Logger.insert output text l = l /\ Logger.space output l = l
     /\ Logger.return_ output l = l /\ Logger.delete output l = l
     /\ Logger.clear output l = l)
  /\ (forall (w : World) (c : string) (cn : gmap string string) (note : string)
             (text : option string) (p : AudioPlayer.t) (entries : list (string * value)),
        let a := app w in
        state a = RUNNING ->
        Logger.enabled (logger a) = false ->
        arrow c = false ->
        codesNotes a = Some cn -> cn !! c = Some note ->
        is_Some (Keyboard.keys (keyboard a) !! c) ->
        note_text note a = Done text a ->
        player a = Some p ->
        json (notesBuffers a) = Some entries ->
        exists w1,
          handle (KeyDown {| code := c; repeat := false |}) w = Done tt w1
          /\ logger (app w1) = logger a
          /\ Keyboard.pressed c (keyboard (app w1)) = true
          /\ player (app w1) = Some (AudioPlayer.play note (bank_get entries note) p)
          /\ is_Some (AudioPlayer.sources
                        (AudioPlayer.play note (bank_get entries note) p) !! note)).
Proof.
  split.
  - intros output text l Hl.
    unfold Logger.insert, Logger.space, Logger.return_, Logger.delete, Logger.clear.
    by rewrite Hl.
  - intros w c cn note text p entries a Hs Hen Ha Hcn Hnote Hkey Htext Hp He.
    destruct (press_drawn c (keyboard a) Hkey) as (k1 & Hpress & Hheld & _).
    pose proof (keyDown_mapped a c cn note k1 text p entries Ha Hcn Hnote Hpress Htext Hp He) as Hdown.
    eexists. split; [by apply handle_keyDown|].
    cbn. unfold Logger.insert. rewrite Hen.
    split; [done|]. split; [done|]. split; [done|]. apply sources_play.
Qed.

Lemma visibility_hidden a v p k' :
  state a = RUNNING -> String.eqb v "visible" = false -> player a = Some p ->
  Keyboard.releaseAll (keyboard a) = Done tt k' ->
  onVisibilityChange v a =
    Done tt (set_keyboard (fun _ => k')
               (set_player (fun _ => Some (AudioPlayer.pauseAll p)) a)).
Proof.
  intros Hs Hv Hp Hk. unfold onVisibilityChange, the_player, onKeyboard. monad.
  rewrite Hs, Hv. cbn [negb]. rewrite Hp. cbn [keyboard set_player]. rewrite Hk. reflexivity.
Qed.

(** C8. In a state other than RUNNING a visibility change does nothing.
    In the state RUNNING, when the document is no longer visible and every
    key that is held has its element on the keyboard, the player is left as
    [pauseAll] leaves it: [sources] is empty, no note has a live voice, and
    each voice that was active has its stop scheduled as [pause] would have
    scheduled it, at the current time plus [stopDelay]; and no key is held
    any more. *)
Theorem hidden_document_releases_all :
  (forall (w : World) (v : string),
     state (app w) <> RUNNING -> handle (VisibilityChange v) w = Done tt w)
  /\ (forall (w : World) (v : string) (opts : option Q) (ops : list AudioPlayer.op),
        let a := app w in
        let p := AudioPlayer.run ops (AudioPlayer.constructor opts) in
        state a = RUNNING ->
        v <> "visible" ->
        player a = Some p ->
        Keyboard.drawn (keyboard a) ->
        exists w',
          handle (VisibilityChange v) w = Done tt w'
          /\ player (app w') = Some (AudioPlayer.pauseAll p)
          /\ AudioPlayer.sources (AudioPlayer.pauseAll p) = ∅
          /\ (forall id, AudioPlayer.voices id (AudioPlayer.pauseAll p) = [])
          /\ (forall id n, AudioPlayer.sources p !! id = Some n ->
                AudioPlayer.nodes (AudioPlayer.pauseAll p) !! n =
                  AudioPlayer.nodes (AudioPlayer.pause id p) !! n
                /\ exists nd,
                     AudioPlayer.nodes p !! n = Some nd
                     /\ AudioPlayer.nodes (AudioPlayer.pauseAll p) !! n =
                          Some (AudioPlayer.stop
                                  (AudioPlayer.currentTime p + AudioPlayer.stopDelay p)%Q nd))
          /\ (forall c, Keyboard.pressed c (keyboard (app w')) = false)
          /\ (forall c, Keyboard.pressed c (keyboard a) = true ->
                Keyboard.marks (keyboard (app w')) !! c = None)).
Proof.
  split.
  - intros w v Hs. cbn [handle]. rewrite <- (set_app_id w) at 2. apply onApp_done.
    unfold onVisibilityChange. monad. by destruct (state (app w)).
  - intros w v opts ops a p Hs Hv Hp Hk.
    assert (Hinv : AudioPlayer.inv p) by apply inv_run, inv_constructor.
    destruct (releaseAll_spec (keyboard a) Hk) as (k' & Hrel & Hnone & Hgone).
    assert (Hvis : String.eqb v "visible" = false) by (by apply String.eqb_neq).
    exists (set_app (fun _ => set_keyboard (fun _ => k')
                      (set_player (fun _ => Some (AudioPlayer.pauseAll p)) a)) w).
    split.
    { cbn [handle]. apply onApp_done. by apply visibility_hidden. }
    split; [done|]. split; [apply pauseAll_sources|].
    split.
    { intros id. apply voices_none; [by apply inv_pauseAll|].
      by rewrite pauseAll_sources, lookup_empty. }
    split; [intros id n Hn; by apply pauseAll_node|].
    split; [exact Hnone|exact Hgone].
Qed.

(** *** Instances on the small instrument *)

Lemma key_sequence_witness :
  exists w1 w3,
    handle (KeyDown {| code := "KeyA"; repeat := false |}) Demo.world = Done tt w1
    /\ handle (KeyDown {| code := "KeyA"; repeat := true |}) w1 = Done tt w1
    /\ handle (KeyUp {| code := "KeyA"; repeat := false |}) w1 = Done tt w3
    /\ Logger.tokens (logger (app w3)) = Logger.tokens (logger (app Demo.world)) ++ [Some "1"].
Proof.
  pose proof (proj1 key_sequence_when_logging Demo.world "KeyA" demo_notes "C4" (Some "1")
              (demo_player Demo.world) demo_bank) as H.
  cbv zeta in H.
  assert (H1 : state (app Demo.world) = RUNNING) by (vm_compute; reflexivity).
  assert (H2 : Logger.enabled (logger (app Demo.world)) = true) by (vm_compute; reflexivity).
  assert (H3 : arrow "KeyA" = false) by (vm_compute; reflexivity).
  assert (H4 : codesNotes (app Demo.world) = Some demo_notes) by (vm_compute; reflexivity).
  assert (H5 : demo_notes !! "KeyA" = Some "C4") by (vm_compute; reflexivity).
  assert (H6 : is_Some (Keyboard.keys (keyboard (app Demo.world)) !! "KeyA")) by (vm_compute; eexists; reflexivity).
  assert (H7 : note_text "C4" (app Demo.world) = Done (Some "1") (app Demo.world)) by (vm_compute; reflexivity).
  assert (H8 : player (app Demo.world) = Some (demo_player Demo.world)) by (vm_compute; reflexivity).
  assert (H9 : json (notesBuffers (app Demo.world)) = Some demo_bank) by (vm_compute; reflexivity).
  destruct (H H1 H2 H3 H4 H5 H6 H7 H8 H9) as (w1 & w3 & E1 & E2 & E3 & _ & _ & E6 & _).
  exists w1, w3.
  split; [exact E1|]. split; [exact E2|]. split; [exact E3|exact E6].
Defined.

(** C3, as the claim words it, fails twice on the loaded instrument, [KeyA]
    mapped to [C4]: with the logger switched off the three events return
    and append no log entry, and a key-down of ArrowRight with the repeat
    flag set appends a space to the log. *)
Lemma key_sequence_counterexample :
  state (app Demo.quiet) = RUNNING
  /\ (codesNotes (app Demo.quiet) ≫= fun cn => cn !! "KeyA") = Some "C4"
  /\ log_after (ret tt Demo.quiet) = Some []
  /\ log_after (handle_all [KeyDown {| code := "KeyA"; repeat := false |};
                            KeyDown {| code := "KeyA"; repeat := true |};
                            KeyUp {| code := "KeyA"; repeat := false |}] Demo.quiet) = Some []
  /\ state (app Demo.world) = RUNNING
  /\ log_after (ret tt Demo.world) = Some []
  /\ log_after (handle (KeyDown {| code := "ArrowRight"; repeat := true |}) Demo.world)
       = Some [Some " "].
Proof. evaluate. Qed.

Lemma disabled_logger_witness :
  exists w1,
    handle (KeyDown {| code := "KeyA"; repeat := false |}) Demo.quiet = Done tt w1
    /\ logger (app w1) = logger (app Demo.quiet)
    /\ Keyboard.pressed "KeyA" (keyboard (app w1)) = true.
Proof.
  pose proof (proj2 disabled_logger_keeps_log Demo.quiet "KeyA" demo_notes "C4" (Some "1")
                (demo_player Demo.quiet) demo_bank) as H.
  cbv zeta in H.
  assert (H1 : state (app Demo.quiet) = RUNNING) by (vm_compute; reflexivity).
  assert (H2 : Logger.enabled (logger (app Demo.quiet)) = false) by (vm_compute; reflexivity).
  assert (H3 : arrow "KeyA" = false) by (vm_compute; reflexivity).
  assert (H4 : codesNotes (app Demo.quiet) = Some demo_notes) by (vm_compute; reflexivity).
  assert (H5 : demo_notes !! "KeyA" = Some "C4") by (vm_compute; reflexivity).
  assert (H6 : is_Some (Keyboard.keys (keyboard (app Demo.quiet)) !! "KeyA"))
    by (vm_compute; eexists; reflexivity).
  assert (H7 : note_text "C4" (app Demo.quiet) = Done (Some "1") (app Demo.quiet))
    by (vm_compute; reflexivity).
  assert (H8 : player (app Demo.quiet) = Some (demo_player Demo.quiet))
    by (vm_compute; reflexivity).
  assert (H9 : json (notesBuffers (app Demo.quiet)) = Some demo_bank)
    by (vm_compute; reflexivity).
  destruct (H H1 H2 H3 H4 H5 H6 H7 H8 H9) as (w1 & E1 & E2 & E3 & _).
  exists w1. split; [exact E1|]. split; [exact E2|exact E3].
Defined.

Lemma hidden_document_witness :
  exists w',
    handle (VisibilityChange "hidden") Demo.held = Done tt w'
    /\ player (app w') = Some (AudioPlayer.pauseAll (demo_player Demo.held))
    /\ AudioPlayer.sources (AudioPlayer.pauseAll (demo_player Demo.held)) = ∅
    /\ Keyboard.pressed "KeyA" (keyboard (app Demo.held)) = true
    /\ Keyboard.pressed "KeyA" (keyboard (app w')) = false.
Proof.
  pose proof (proj2 hidden_document_releases_all Demo.held "hidden" None
                [AudioPlayer.Play "C4" (bank_get demo_bank "C4")]) as H.
  cbv zeta in H.
  assert (H1 : state (app Demo.held) = RUNNING) by (vm_compute; reflexivity).
  assert (H2 : "hidden" <> "visible") by discriminate.
  assert (H3 : player (app Demo.held) =
               Some (AudioPlayer.run [AudioPlayer.Play "C4" (bank_get demo_bank "C4")]
                       (AudioPlayer.constructor None))) by (vm_compute; reflexivity).
  assert (H4 : Keyboard.drawn (keyboard (app Demo.held))).
  { intros c Hc. unfold Keyboard.pressed in Hc.
    assert (Hm : Keyboard.marks (keyboard (app Demo.held)) = {[ "KeyA" := true ]})
      by (vm_compute; reflexivity).
    assert (Hk : is_Some (Keyboard.keys (keyboard (app Demo.held)) !! "KeyA"))
      by (vm_compute; eexists; reflexivity).
    rewrite Hm in Hc. destruct (decide (c = "KeyA")) as [->|Hne]; [exact Hk|].
    by rewrite lookup_singleton_ne in Hc. }
  destruct (H H1 H2 H3 H4) as (w' & E1 & E2 & E3 & _ & _ & E6 & _).
  assert (Hp : AudioPlayer.run [AudioPlayer.Play "C4" (bank_get demo_bank "C4")]
                 (AudioPlayer.constructor None) = demo_player Demo.held)
    by (vm_compute; reflexivity).
  rewrite Hp in E2, E3.
  exists w'. split; [exact E1|]. split; [exact E2|]. split; [exact E3|].
  split; [vm_compute; reflexivity|apply E6].
Defined.

(** C10, as the claim words it, fails twice with the logger switched off
    and the state RUNNING: on the page without its samples the key-down of
    [KeyA], mapped to [C4], marks the key and throws, and no voice is
    started; on the page whose layout maps ArrowRight to [D4] the key-down
    of ArrowRight changes nothing, and no voice is started either. *)
Lemma disabled_logger_counterexample :
  state (app NoBank.quiet) = RUNNING
  /\ Logger.enabled (logger (app NoBank.quiet)) = false
  /\ (codesNotes (app NoBank.quiet) ≫= fun cn => cn !! "KeyA") = Some "C4"
  /\ thrown (handle (KeyDown {| code := "KeyA"; repeat := false |}) NoBank.quiet)
     = Some (TypeError "Cannot read properties of null")
  /\ Keyboard.pressed "KeyA"
       (keyboard (app (final (handle (KeyDown {| code := "KeyA"; repeat := false |})
                                NoBank.quiet)))) = true
  /\ voices_made (final (handle (KeyDown {| code := "KeyA"; repeat := false |})
                           NoBank.quiet)) = Some []
  /\ state (app Arrows.quiet) = RUNNING
  /\ Logger.enabled (logger (app Arrows.quiet)) = false
  /\ (codesNotes (app Arrows.quiet) ≫= fun cn => cn !! "ArrowRight") = Some "D4"
  /\ handle (KeyDown {| code := "ArrowRight"; repeat := false |}) Arrows.quiet
     = Done tt Arrows.quiet
  /\ voices_made Arrows.quiet = Some [].
Proof. evaluate. Qed.

(** C8, as the claim words it, fails on the page without its digits, opened
    with the display [note] and RUNNING: the display switched to [digit],
    the new keyboard is not drawn; the keys [KeyS] and [KeyA] go down and
    are held; when the document is hidden the listener throws at the first
    of them, and [KeyA] is still held. *)
Lemma hidden_document_counterexample :
  NoDigits.loaded = Some NoDigits.world
  /\ state (app NoDigits.world) = RUNNING
  /\ thrown NoDigits.switched = Some (TypeError "Cannot read properties of null")
  /\ state (app NoDigits.held) = RUNNING
  /\ Keyboard.pressed "KeyS" (keyboard (app NoDigits.held)) = true
  /\ Keyboard.pressed "KeyA" (keyboard (app NoDigits.held)) = true
  /\ thrown (handle (VisibilityChange "hidden") NoDigits.held)
     = Some (TypeError "Cannot read properties of undefined (reading 'classList')")
  /\ Keyboard.pressed "KeyA"
       (keyboard (app (final (handle (VisibilityChange "hidden") NoDigits.held)))) = true.
Proof. evaluate. Qed.

Lemma pause_schedules_stop_witness :
  let p := AudioPlayer.run [AudioPlayer.Play "C4" VUndefined] (AudioPlayer.constructor None) in
  exists nd,
    AudioPlayer.nodes p !! 0%nat = Some nd
    /\ AudioPlayer.nodes (AudioPlayer.pause "C4" p) =
         <[0%nat := AudioPlayer.stop (AudioPlayer.currentTime p + AudioPlayer.stopDelay p)%Q nd]>
           (AudioPlayer.nodes p)
    /\ AudioPlayer.sources (AudioPlayer.pause "C4" p) = delete "C4" (AudioPlayer.sources p).
Proof.
  intros p.
  assert (H : AudioPlayer.sources p !! "C4" = Some 0%nat) by (vm_compute; reflexivity).
  destruct (proj1 (proj2 (pause_schedules_stop None [AudioPlayer.Play "C4" VUndefined] "C4"))
              0%nat H) as (nd & H1 & H2 & H3 & _).
  exists nd. split; [exact H1|]. split; [exact H2|exact H3].
Defined.

(** ** Loading *)

Section RenderTotal.
Variable params : Params.
Variables codesChars notesDigits : JSONAsset (gmap string string).
Variables (chars digits : gmap string string).
Hypothesis Hchars : json codesChars = Some chars.
Hypothesis Hdigits : json notesDigits = Some digits.

Lemma createKey_total key x y len k :
  exists k', Keyboard.createKey params codesChars notesDigits key x y len k = Done (fst key) k'.
Proof.
  unfold Keyboard.createKey, table_get. monad. rewrite Hchars, Hdigits.
  destruct (String.eqb (display params) "digit"); eauto.
Qed.

Lemma createRow_from_total keys : forall x y len element k,
  exists r k', Keyboard.createRow_from params codesChars notesDigits keys x y len element k
               = Done r k'.
Proof.
  induction keys as [|key keys IH]; intros x y len element k.
  - cbn. monad. eauto.
  - cbn [Keyboard.createRow_from]. unfold bind at 1.
    destruct (createKey_total key x y len k) as [k1 ->]. apply IH.
Qed.

Lemma render_rows_total rows : forall x k,
  exists k', for_index x rows
               (fun x row =>
                  do r <- Keyboard.createRow params codesChars notesDigits row x ;;
                  modify (Keyboard.set_container (fun c => c ++ [r]))) k = Done tt k'.
Proof.
  induction rows as [|row rows IH]; intros x k.
  - cbn. monad. eauto.
  - cbn [for_index]. unfold bind at 1. unfold bind at 1. unfold Keyboard.createRow.
    destruct (createRow_from_total row x 0 (Z.of_nat (length row)) [] k) as (r & k1 & ->).
    unfold modify at 1. apply IH.
Qed.

Lemma Keyboard_render_total asset rows k :
  json asset = Some rows ->
  exists k', Keyboard.render params codesChars notesDigits (Some asset) k = Done tt k'.
Proof.
  intros Hrows. unfold Keyboard.render. unfold bind at 1. unfold modify at 1.
  rewrite Hrows. apply render_rows_total.
Qed.
End RenderTotal.

Lemma render_total a chars digits asset rows :
  json (codesChars a) = Some chars ->
  json (notesDigits a) = Some digits ->
  layout_asset (Keyboard.layoutAsset (keyboard a)) a = Some asset ->
  json asset = Some rows ->
  exists k', render a =
    Done tt (set_logger (Logger.render (output (settings a))) (set_keyboard (fun _ => k') a)).
Proof.
  intros Hc Hd Ha Hr. unfold render, onKeyboard. monad. rewrite Ha.
  destruct (Keyboard_render_total (settings a) (codesChars a) (notesDigits a) chars digits
              Hc Hd asset rows (keyboard a) Hr) as [k' ->].
  exists k'. reflexivity.
Qed.

Lemma updateKeyboardLayout_total a asset rows :
  layout_asset (layout (settings a)) a = Some asset ->
  json asset = Some rows ->
  exists cn, updateKeyboardLayout a = Done tt (set_codesNotes (fun _ => Some cn) a).
Proof.
  intros Ha Hr. unfold updateKeyboardLayout. unfold bind at 1. unfold modify at 1.
  unfold bind at 1. unfold get at 1.
  cbn [settings set_codesNotes]. 
  assert (Hl : layout_asset (layout (settings a)) (set_codesNotes (fun _ => Some ∅) a) = Some asset) by exact Ha.
  rewrite Hl, Hr.
  assert (Hgen : forall rs (cn : gmap string string),
    exists cn', for_each rs (fun row => for_each row (fun key =>
        modify (set_codesNotes (fmap (insert (fst key) (snd key))))))
        (set_codesNotes (fun _ => Some cn) a) = Done tt (set_codesNotes (fun _ => Some cn') a)).
  { induction rs as [|row rs IH]; intros cn.
    - cbn. monad. eauto.
    - cbn [for_each]. unfold bind at 1.
      assert (Hrow : forall ks (cn : gmap string string),
        exists cn', for_each ks (fun key =>
          modify (set_codesNotes (fmap (insert (fst key) (snd key)))))
          (set_codesNotes (fun _ => Some cn) a) = Done tt (set_codesNotes (fun _ => Some cn') a)).
      { induction ks as [|key ks IHk]; intros cn0.
        - cbn. monad. eauto.
        - cbn [for_each]. unfold bind at 1. unfold modify at 1.
          apply (IHk (<[fst key := snd key]> cn0)). }
      destruct (Hrow row cn) as [cn1 ->]. apply IH. }
  apply Hgen.
Qed.

Lemma turns_app host fuel l1 l2 w :
  turns host fuel (l1 ++ l2) w = (w' ← turns host fuel l1 w; turns host fuel l2 w').
Proof.
  revert w. induction l1 as [|n l1 IH]; intros w; [reflexivity|].
  simpl. destruct (turn host fuel n w) as [w1|]; [|reflexivity]. apply IH.
Qed.

Lemma drain_step f w j rest :
  jobs w = j :: rest -> drain (S f) w = drain f (runJob j (set_jobs (fun _ => rest) w)).
Proof. intros H. simpl. by rewrite H. Qed.

Lemma drain_done f w : jobs w = [] -> drain f w = Some w.
Proof. intros H. destruct f; simpl; by rewrite H. Qed.

(** The callback of [start] succeeds when the documents that the keyboard
    is drawn from are loaded. *)
Lemma apply_Start_loaded w v chars digits asset rows asset' rows' :
  json (codesChars (app w)) = Some chars ->
  json (notesDigits (app w)) = Some digits ->
  layout_asset (layout (settings (app w))) (app w) = Some asset ->
  json asset = Some rows ->
  layout_asset (Keyboard.layoutAsset (keyboard (app w))) (app w) = Some asset' ->
  json asset' = Some rows' ->
  exists a', apply Start_loaded v w = Done VUndefined (set_app (fun _ => a') w)
    /\ state a' = RUNNING
    /\ notesBuffers a' = notesBuffers (app w).
Proof.
  intros Hc Hd Ha Hr Ha' Hr'.
  set (a0 := set_page (page_dialogMask false)
               (set_page (page_waitingCard false)
                  (set_page (page_loadingCard false) (app w)))).
  destruct (updateKeyboardLayout_total a0 asset rows Ha Hr) as [cn Hcn].
  destruct (render_total (set_codesNotes (fun _ => Some cn) a0) chars digits asset' rows'
              Hc Hd Ha' Hr') as [k' Hk].
  eexists. split; [|split].
  - cbn [apply]. unfold onApp. monad. cbn [app set_app].
    fold a0. rewrite Hcn. cbn [app set_app]. rewrite Hk. cbn [app set_app]. reflexivity.
  - reflexivity.
  - reflexivity.
Qed.

(** Replace the world that [drain] starts from by its value. *)
Ltac settle_world :=
  match goal with
  | |- context [drain _ ?w] =>
      let w' := eval vm_compute in w in
      let E := fresh in
      assert (E : w = w') by (vm_compute; reflexivity); rewrite E; clear E
  end.

(** Run the job at the head of the queue. *)
Ltac job := erewrite drain_step by reflexivity; settle_world.

(** C1, on the manifest of the specification's example, two notes of
    encoded silence served with status 200: the promise of
    [AudioAsset.loadAsync] is fulfilled and [onLoad] has counted the asset
    in the turn that delivers the manifest, when both entries of the bank
    are still encoded strings and the two decode timers have not fired;
    the entries are decoded four turns later. The application, all its
    assets served, is RUNNING with the bank still encoded. *)
Theorem load_resolves_before_decoding :
  let host := Demo.host (okay (JBank Demo.manifest)) in
  let encoded := [("C4", VString Demo.silence); ("D4", VString Demo.silence)] in
  let decoded := [("C4", VAudioBuffer (replicate 12 0)); ("D4", VAudioBuffer (replicate 12 0))] in
  exists p w1,
    AudioAsset_loadAsync None (Some OnLoad) (Some OnError) Demo.fresh = Done p w1
    /\ progress p w1 = (Pending, 0, None, 1%nat)
    /\ progress p <$> turns host Demo.fuel (in_order 2) w1
         = Some (Fulfilled VUndefined, 1, Some encoded, 2%nat)
    /\ progress p <$> turns host Demo.fuel (in_order 6) w1
         = Some (Fulfilled VUndefined, 1, Some decoded, 0%nat)
    /\ (w ← Demo.started;
         (fun w' => (state (app w'), json (notesBuffers (app w'))))
           <$> turns host Demo.fuel (in_order 18) w) = Some (RUNNING, Some encoded).
Proof. do 2 eexists. evaluate. Qed.

(** C2, as the claim words it, fails for a manifest answered with status
    404: the promise of the load is fulfilled, not rejected, and the
    application, LOADING while the other assets arrive, is RUNNING after the
    last of them. *)
Lemma manifest_not_found_still_runs :
  let host := Demo.host (Some {| ok := false; status := 404; body := None |}) in
  exists p w1,
    AudioAsset_loadAsync None (Some OnLoad) (Some OnError) Demo.fresh = Done p w1
    /\ promise_state p <$> turn host Demo.fuel 0 w1 = Some (Fulfilled VUndefined)
    /\ (fun w => state (app w)) <$> Demo.started = Some LOADING
    /\ (w ← Demo.started; (fun w' => state (app w')) <$> turns host Demo.fuel (in_order 16) w)
         = Some LOADING
    /\ (w ← Demo.started; (fun w' => state (app w')) <$> turns host Demo.fuel (in_order 17) w)
         = Some RUNNING.
Proof. do 2 eexists. evaluate. Qed.

Lemma for_each_enqueue_app {A} (rs : list A) (f : A -> Job) w :
  app (final (for_each rs (fun r => enqueueJob (f r)) w)) = app w.
Proof.
  revert w. induction rs as [|r rs IH]; intros w; [reflexivity|].
  cbn [for_each]. unfold bind at 1. unfold enqueueJob at 1, modify at 1.
  by rewrite IH.
Qed.

Lemma settle_app p s w : app (final (settle p s w)) = app w.
Proof.
  unfold settle. unfold bind at 1, get at 1.
  destruct (promises w !! p) as [[[] rs]|]; try reflexivity.
  destruct s; try reflexivity.
  - unfold bind, modify at 1. by rewrite for_each_enqueue_app.
  - unfold bind, modify at 1. by rewrite for_each_enqueue_app.
Qed.

Lemma resolvePromise_app p v w : app (final (resolvePromise p v w)) = app w.
Proof.
  destruct v; cbn [resolvePromise]; try apply settle_app.
  destruct (Nat.eqb _ _); [apply settle_app|reflexivity].
Qed.



(** The last of the nine assets arrives: the callback of [start] runs. *)
Ltac last_asset :=
  do 2 eexists; split; [vm_compute; reflexivity|]; split;
  [ intros n Hn; do 17 (destruct n as [|n]; [vm_compute; reflexivity|]); lia |];
  split; [vm_compute; reflexivity|];
  unfold turn;
  match goal with |- context [tasks ?w !! 0%nat] =>
    let t := eval vm_compute in (tasks w !! 0%nat) in
    change (tasks w !! 0%nat) with t end;
  cbn [mbind option_bind];
  match goal with |- context [complete ?h ?t ?w] =>
    let r := eval vm_compute in (complete h t w) in
    let E := fresh in
    assert (E : complete h t w = r) by (vm_compute; reflexivity); rewrite E; clear E end;
  cbn [mbind option_bind];
  do 4 job;
  erewrite drain_step by reflexivity;
  match goal with
  | known : In _ layoutNames |- _ =>
      cbn in known; destruct known as [<-|[<-|[<-|[<-|[<-|[]]]]]]
  end;
  (match goal with |- context [runJob (ReactionJob (Some Start_loaded) ?r ?v ?d) ?w] =>
     let a' := fresh in let Happly := fresh in let Hstate := fresh in let Hbank := fresh in
     edestruct (apply_Start_loaded w v) as (a' & Happly & Hstate & Hbank);
       [reflexivity..|];
     cbn [runJob]; rewrite Happly;
     eexists; split;
     [ rewrite drain_done by reflexivity; reflexivity
     | rewrite !resolvePromise_app; cbn [app set_app]; split; [exact Hstate|];
       rewrite Hbank; split; vm_compute; reflexivity ]
   end).

Lemma failed_start_transport digits lily chars layouts d o l stored checkbox :
  In l layoutNames ->
  exists w0 w16,
    dispatch 64 start (newWorld (newApp {| display := d; output := o; layout := l |} stored checkbox)) = Some w0
    /\ (forall n, (n <= 16)%nat ->
         (fun w => state (app w)) <$> turns (serving None digits lily chars layouts) 64 (in_order n) w0 = Some LOADING)
    /\ turns (serving None digits lily chars layouts) 64 (in_order 16) w0 = Some w16
    /\ exists w, turn (serving None digits lily chars layouts) 64 0 w16 = Some w
       /\ state (app w) = RUNNING
       /\ error (notesBuffers (app w)) = Some (fetch_error None)
       /\ json (notesBuffers (app w)) = None.
Proof.
  intros known. last_asset.
Qed.

Lemma failed_start_status digits lily chars layouts d o l stored checkbox s b :
  In l layoutNames ->
  let failure := Some {| ok := false; status := s; body := b |} in
  exists w0 w16,
    dispatch 64 start (newWorld (newApp {| display := d; output := o; layout := l |} stored checkbox)) = Some w0
    /\ (forall n, (n <= 16)%nat ->
         (fun w => state (app w)) <$> turns (serving failure digits lily chars layouts) 64 (in_order n) w0 = Some LOADING)
    /\ turns (serving failure digits lily chars layouts) 64 (in_order 16) w0 = Some w16
    /\ exists w, turn (serving failure digits lily chars layouts) 64 0 w16 = Some w
       /\ state (app w) = RUNNING
       /\ error (notesBuffers (app w)) = Some (fetch_error failure)
       /\ json (notesBuffers (app w)) = None.
Proof.
  intros known failure. subst failure. last_asset.
Qed.

Lemma failed_load digits lily chars layouts params stored checkbox failure :
  fails failure ->
  exists p w1,
    AudioAsset_loadAsync None (Some OnLoad) (Some OnError)
      (newWorld (set_player (fun _ => Some (AudioPlayer.constructor None))
                   (newApp params stored checkbox))) = Done p w1
    /\ promise_state p w1 = Pending
    /\ exists w2,
         turn (serving failure digits lily chars layouts) 64 0 w1 = Some w2
         /\ promise_state p w2 = Fulfilled VUndefined
         /\ error (notesBuffers (app w2)) = Some (fetch_error failure)
         /\ json (notesBuffers (app w2)) = None
         /\ errorText (page (app w2)) = true
         /\ errorMessage (page (app w2)) = toString (fetch_error failure)
         /\ console w2 = [fetch_error failure]
         /\ loaded (app w2) = 0.
Proof.
  intros Hfail. destruct params as [d o l].
  destruct failure as [[k s b]|]; simpl in Hfail; [subst k|];
    do 2 eexists; (split; [vm_compute; reflexivity|]);
    (split; [vm_compute; reflexivity|]); eexists; evaluate.
Qed.

(** C2, amended: a manifest whose fetch fails, in transport or with a
    status that is not a success, does not reject the promise of
    [AudioAsset.loadAsync].  The error is caught: it is stored in the
    asset, logged to the console and shown on the page, no asset is
    counted, and the promise is fulfilled.  The application is LOADING
    while the other eight assets arrive and, they being served, RUNNING
    after the last of them, its bank of samples empty. *)
Theorem failed_manifest_is_reported digits lily chars layouts params stored checkbox
    failure :
  fails failure ->
  In (layout params) layoutNames ->
  let host := serving failure digits lily chars layouts in
  (exists p w1,
     AudioAsset_loadAsync None (Some OnLoad) (Some OnError)
       (newWorld (set_player (fun _ => Some (AudioPlayer.constructor None))
                    (newApp params stored checkbox))) = Done p w1
     /\ promise_state p w1 = Pending
     /\ exists w2,
          turn host 64 0 w1 = Some w2
          /\ promise_state p w2 = Fulfilled VUndefined
          /\ error (notesBuffers (app w2)) = Some (fetch_error failure)
          /\ json (notesBuffers (app w2)) = None
          /\ errorText (page (app w2)) = true
          /\ errorMessage (page (app w2)) = toString (fetch_error failure)
          /\ console w2 = [fetch_error failure]
          /\ loaded (app w2) = 0)
  /\ (exists w0,
        dispatch 64 start (newWorld (newApp params stored checkbox)) = Some w0
        /\ (forall n, (n <= 16)%nat ->
              (fun w => state (app w)) <$> turns host 64 (in_order n) w0 = Some LOADING)
        /\ exists w,
             turns host 64 (in_order 17) w0 = Some w
             /\ state (app w) = RUNNING
             /\ error (notesBuffers (app w)) = Some (fetch_error failure)
             /\ json (notesBuffers (app w)) = None).
Proof.
  intros Hfail Hlayout host. split; [by apply failed_load|].
  assert (Hstart : exists w0 w16,
            dispatch 64 start (newWorld (newApp params stored checkbox)) = Some w0
            /\ (forall n, (n <= 16)%nat ->
                  (fun w => state (app w)) <$> turns host 64 (in_order n) w0 = Some LOADING)
            /\ turns host 64 (in_order 16) w0 = Some w16
            /\ exists w, turn host 64 0 w16 = Some w
               /\ state (app w) = RUNNING
               /\ error (notesBuffers (app w)) = Some (fetch_error failure)
               /\ json (notesBuffers (app w)) = None).
  { subst host. destruct params as [d o l]. destruct failure as [[k s b]|].
    - simpl in Hfail. subst k. by apply failed_start_status.
    - by apply failed_start_transport. }
  destruct Hstart as (w0 & w16 & H0 & Hloading & H16 & w & Hw & Hrest).
  exists w0. split; [exact H0|]. split; [exact Hloading|].
  exists w. split; [|exact Hrest].
  change (in_order 17) with (in_order 16 ++ [0%nat]).
  rewrite turns_app, H16. simpl. by rewrite Hw.
Qed.

Lemma failed_manifest_witness :
  exists w0 w,
    dispatch 64 start (newWorld (newApp Demo.params None true)) = Some w0
    /\ turns (Demo.host (Some {| ok := false; status := 404; body := None |})) 64
         (in_order 17) w0 = Some w
    /\ state (app w) = RUNNING
    /\ error (notesBuffers (app w))
       = Some (VError "Error" "Unexpected HTTP status code 404").
Proof.
  destruct (failed_manifest_is_reported Demo.digits ∅ Demo.chars (fun _ => Demo.layout)
              Demo.params None true (Some {| ok := false; status := 404; body := None |}))
    as [_ (w0 & H0 & _ & w & Hw & Hs & He & _)].
  - reflexivity.
  - left. reflexivity.
  - exists w0, w. exact (conj H0 (conj Hw (conj Hs He))).
Defined.

(** ** Base64Decoder: what it decodes *)

Section Base64RoundTrip.
Import Base64Decoder Base64.

Lemma range_forallb (P : Z -> bool) (n : nat) :
  forallb (fun k => P (Z.of_nat k)) (seq 0 n) = true ->
  forall k, 0 <= k < Z.of_nat n -> P k = true.
Proof.
  intros H k Hk. rewrite forallb_forall in H.
  specialize (H (Z.to_nat k)). rewrite Z2Nat.id in H by lia.
  apply H. apply in_seq. lia.
Qed.

(** A symbol is read back as its value, is in the character class and is
    not the padding symbol. *)
Lemma symbol_index k :
  0 <= k < 64 ->
  indexOf keyStr (String (symbol k) "") = k
  /\ in_class (symbol k) = true /\ is_pad (symbol k) = false.
Proof.
  intros Hk.
  pose proof (range_forallb
    (fun k => (indexOf keyStr (String (symbol k) "") =? k)
              && in_class (symbol k) && negb (is_pad (symbol k))) 64) as H.
  specialize (H ltac:(vm_compute; reflexivity) k Hk).
  apply andb_true_iff in H as [H H3]. apply andb_true_iff in H as [H1 H2].
  apply Z.eqb_eq in H1. apply negb_true_iff in H3. done.
Qed.

(** The three bytes of a group, from its four 6-bit values. *)
Lemma chr1_sextets x r :
  byte x -> 0 <= r < 16 -> chr1 (x / 4) (x mod 4 * 16 + r) mod 256 = x.
Proof.
  intros Hx Hr. apply Z.eqb_eq.
  apply (range_forallb (fun r => chr1 (x / 4) (x mod 4 * 16 + r) mod 256 =? x) 16);
    [|exact Hr].
  apply (range_forallb
           (fun x => forallb (fun k => chr1 (x / 4) (x mod 4 * 16 + Z.of_nat k) mod 256 =? x)
                       (seq 0 16)) 256); [vm_compute; reflexivity|exact Hx].
Qed.

Lemma chr2_sextets x p q :
  byte x -> 0 <= p < 4 -> 0 <= q < 4 ->
  chr2 (p * 16 + x / 16) (x mod 16 * 4 + q) mod 256 = x.
Proof.
  intros Hx Hp Hq. apply Z.eqb_eq.
  apply (range_forallb (fun q => chr2 (p * 16 + x / 16) (x mod 16 * 4 + q) mod 256 =? x) 4);
    [|exact Hq].
  apply (range_forallb
           (fun p => forallb (fun k => chr2 (p * 16 + x / 16) (x mod 16 * 4 + Z.of_nat k)
                                         mod 256 =? x) (seq 0 4)) 4); [|exact Hp].
  apply (range_forallb
           (fun x => forallb (fun j => forallb (fun k =>
              chr2 (Z.of_nat j * 16 + x / 16) (x mod 16 * 4 + Z.of_nat k) mod 256 =? x)
              (seq 0 4)) (seq 0 4)) 256); [vm_compute; reflexivity|exact Hx].
Qed.

Lemma chr3_sextets x r :
  byte x -> 0 <= r < 16 -> chr3 (r * 4 + x / 64) (x mod 64) mod 256 = x.
Proof.
  intros Hx Hr. apply Z.eqb_eq.
  apply (range_forallb (fun r => chr3 (r * 4 + x / 64) (x mod 64) mod 256 =? x) 16);
    [|exact Hr].
  apply (range_forallb
           (fun x => forallb (fun k => chr3 (Z.of_nat k * 4 + x / 64) (x mod 64) mod 256 =? x)
                       (seq 0 16)) 256); [vm_compute; reflexivity|exact Hx].
Qed.

(** Lists by groups of three. *)
Lemma triple_ind (P : list Z -> Prop) :
  P [] -> (forall b1, P [b1]) -> (forall b1 b2, P [b1; b2]) ->
  (forall b1 b2 b3 rest, P rest -> P (b1 :: b2 :: b3 :: rest)) ->
  forall bytes, P bytes.
Proof.
  intros H0 H1 H2 H3 bytes.
  assert (H : P bytes /\ (forall b1, P (b1 :: bytes)) /\ (forall b1 b2, P (b1 :: b2 :: bytes))).
  { induction bytes as [|b bytes (IH0 & IH1 & IH2)]; [by auto|].
    split; [exact (IH1 b)|]. split; [exact (fun b1 => IH2 b1 b)|].
    intros b1 b2. by apply H3. }
  apply H.
Qed.

Ltac sextet := unfold byte in *; Z.div_mod_to_equations; lia.

Lemma sextets_bound b1 b2 :
  byte b1 -> byte b2 ->
  0 <= b1 / 4 < 64 /\ 0 <= b1 mod 4 * 16 + b2 / 16 < 64
  /\ 0 <= b1 mod 16 * 4 + b2 / 64 < 64 /\ 0 <= b1 mod 64 < 64
  /\ 0 <= b1 mod 4 * 16 < 64 /\ 0 <= b1 mod 16 * 4 < 64.
Proof. intros H1 H2. repeat split; sextet. Qed.

(** The symbols of [n] bytes take the room of [n] bytes. *)
Lemma length_symbols bytes :
  3 * Z.of_nat (String.length (symbols bytes)) / 4 = Z.of_nat (length bytes).
Proof.
  induction bytes as [|b1|b1 b2|b1 b2 b3 rest IH] using triple_ind; try reflexivity.
  cbn [symbols String.length length].
  replace (3 * Z.of_nat (S (S (S (S (String.length (symbols rest)))))))
    with (3 * Z.of_nat (String.length (symbols rest)) + 3 * 4) by lia.
  rewrite Z.div_add by lia. lia.
Qed.

(** The symbols are in the character class and none is the padding
    symbol: lines 47 and 48 take the padding off an encoding and nothing
    else. *)
Lemma strip_symbols bytes : Forall byte bytes -> strip (symbols bytes) = symbols bytes.
Proof.
  induction bytes as [|b1|b1 b2|b1 b2 b3 rest IH] using triple_ind; intros Hb;
    [reflexivity|..].
  - apply Forall_cons in Hb as [H1 _].
    destruct (sextets_bound b1 0 H1 ltac:(sextet)) as (S1 & _ & _ & _ & S2 & _).
    cbn [symbols strip].
    by rewrite (proj1 (proj2 (symbol_index _ S1))), (proj1 (proj2 (symbol_index _ S2))).
  - apply Forall_cons in Hb as [H1 Hb]. apply Forall_cons in Hb as [H2 _].
    destruct (sextets_bound b1 b2 H1 H2) as (S1 & S2 & _).
    destruct (sextets_bound b2 0 H2 ltac:(sextet)) as (_ & _ & _ & _ & _ & S3).
    cbn [symbols strip].
    by rewrite (proj1 (proj2 (symbol_index _ S1))), (proj1 (proj2 (symbol_index _ S2))),
      (proj1 (proj2 (symbol_index _ S3))).
  - apply Forall_cons in Hb as [H1 Hb]. apply Forall_cons in Hb as [H2 Hb].
    apply Forall_cons in Hb as [H3 Hb].
    destruct (sextets_bound b1 b2 H1 H2) as (S1 & S2 & _).
    destruct (sextets_bound b2 b3 H2 H3) as (_ & _ & S3 & _).
    destruct (sextets_bound b3 0 H3 ltac:(sextet)) as (_ & _ & _ & S4 & _).
    cbn [symbols strip].
    rewrite (proj1 (proj2 (symbol_index _ S1))), (proj1 (proj2 (symbol_index _ S2))),
      (proj1 (proj2 (symbol_index _ S3))), (proj1 (proj2 (symbol_index _ S4))).
    by rewrite IH.
Qed.

Lemma strip_append s t : strip (s +:+ t) = strip s +:+ strip t.
Proof.
  induction s as [|c s IH]; [reflexivity|].
  simpl. destruct (in_class c); simpl; by rewrite IH.
Qed.

Lemma strip_padding n : strip (padding n) = padding n.
Proof. unfold padding. by destruct (n mod 3)%nat as [|[|[|]]]. Qed.

Lemma trailing_pads_symbols bytes :
  Forall byte bytes ->
  trailing_pads (symbols bytes) = O
  /\ (bytes <> [] -> forall p, all_pads (symbols bytes +:+ p) = false).
Proof.
  induction bytes as [|b1|b1 b2|b1 b2 b3 rest IH] using triple_ind; intros Hb;
    [done|..].
  - apply Forall_cons in Hb as [H1 _].
    destruct (sextets_bound b1 0 H1 ltac:(sextet)) as (S1 & _ & _ & _ & S2 & _).
    pose proof (proj2 (proj2 (symbol_index _ S1))) as P1.
    pose proof (proj2 (proj2 (symbol_index _ S2))) as P2.
    split; [|intros _ p]; simpl; rewrite ?P1, ?P2; reflexivity.
  - apply Forall_cons in Hb as [H1 Hb]. apply Forall_cons in Hb as [H2 _].
    destruct (sextets_bound b1 b2 H1 H2) as (S1 & S2 & _).
    destruct (sextets_bound b2 0 H2 ltac:(sextet)) as (_ & _ & _ & _ & _ & S3).
    pose proof (proj2 (proj2 (symbol_index _ S1))) as P1.
    pose proof (proj2 (proj2 (symbol_index _ S2))) as P2.
    pose proof (proj2 (proj2 (symbol_index _ S3))) as P3.
    split; [|intros _ p]; simpl; rewrite ?P1, ?P2, ?P3; reflexivity.
  - apply Forall_cons in Hb as [H1 Hb]. apply Forall_cons in Hb as [H2 Hb].
    apply Forall_cons in Hb as [H3 Hb].
    destruct (sextets_bound b1 b2 H1 H2) as (S1 & S2 & _).
    destruct (sextets_bound b2 b3 H2 H3) as (_ & _ & S3 & _).
    destruct (sextets_bound b3 0 H3 ltac:(sextet)) as (_ & _ & _ & S4 & _).
    pose proof (proj2 (proj2 (symbol_index _ S1))) as P1.
    pose proof (proj2 (proj2 (symbol_index _ S2))) as P2.
    pose proof (proj2 (proj2 (symbol_index _ S3))) as P3.
    pose proof (proj2 (proj2 (symbol_index _ S4))) as P4.
    split; [|intros _ p].
    + change (symbols (b1 :: b2 :: b3 :: rest)) with
        (String (symbol (b1 / 4)) (String (symbol (b1 mod 4 * 16 + b2 / 16))
          (String (symbol (b2 mod 16 * 4 + b3 / 64)) (String (symbol (b3 mod 64))
            (symbols rest))))).
      cbn [trailing_pads all_pads]. rewrite P1, P2, P3, P4. cbn [andb].
      by apply IH.
    + simpl. by rewrite P1.
Qed.

Lemma substring_append s t : substring 0 (String.length s) (s +:+ t) = s.
Proof. induction s as [|c s IH]; simpl; [by destruct t|by rewrite IH]. Qed.

Lemma all_pads_append s p : all_pads (s +:+ p) = all_pads s && all_pads p.
Proof.
  induction s as [|c s IH]; [reflexivity|].
  simpl. rewrite IH. by rewrite andb_assoc.
Qed.

Lemma trailing_pads_append s p :
  all_pads p = true ->
  all_pads s = false ->
  trailing_pads (s +:+ p) = (trailing_pads s + String.length p)%nat.
Proof.
  intros Hp. induction s as [|c s IH]; intros Hs; [done|].
  change (String c s +:+ p) with (String c (s +:+ p)).
  cbn [trailing_pads].
  change (all_pads (String c (s +:+ p))) with (is_pad c && all_pads (s +:+ p)).
  rewrite all_pads_append, Hp, andb_true_r.
  change (is_pad c && all_pads s) with (all_pads (String c s)). rewrite Hs.
  destruct (all_pads s) eqn:Es.
  - pose proof (proj1 (all_pads_trailing s) Es) as Et.
    assert (Ea : all_pads (s +:+ p) = true) by (by rewrite all_pads_append, Es, Hp).
    apply all_pads_trailing in Ea. rewrite Ea, Et, length_append. done.
  - by apply IH.
Qed.

(** Lines 47 and 48 on an encoding, with or without its padding. *)
Lemma cleaned_encode bytes :
  Forall byte bytes ->
  cleaned (encode bytes) = symbols bytes /\ cleaned (symbols bytes) = symbols bytes.
Proof.
  intros Hb. destruct (trailing_pads_symbols bytes Hb) as [Ht Ha].
  assert (Hgen : forall p, all_pads p = true -> strip p = p -> (bytes = [] -> p = "") ->
            cleaned (symbols bytes +:+ p) = symbols bytes).
  { intros p Hp Hs He. unfold cleaned, removePaddingChars.
    rewrite strip_append, strip_symbols, Hs by done.
    rewrite removePaddingChars_from_spec by lia. rewrite substring_all.
    destruct bytes as [|b bytes].
    - by rewrite He.
    - pose proof (Ha ltac:(done) "") as Hn. rewrite all_pads_append in Hn.
      apply andb_false_iff in Hn as [Hn|Hn]; [|done].
      rewrite Ha by done. rewrite trailing_pads_append by auto.
      rewrite Ht, length_append.
      replace (String.length (symbols (b :: bytes)) + String.length p - (0 + String.length p))%nat
        with (String.length (symbols (b :: bytes))) by lia.
      apply substring_append. }
  split.
  - apply Hgen; [|apply strip_padding|by intros ->].
    unfold padding. by destruct (length bytes mod 3)%nat as [|[|[|]]].
  - specialize (Hgen "" eq_refl eq_refl ltac:(done)).
    replace (symbols bytes +:+ "") with (symbols bytes) in Hgen; [done|].
    clear. induction (symbols bytes) as [|c s IH]; [reflexivity|].
    change (String c s +:+ "") with (String c (s +:+ "")). congruence.
Qed.

(** The cells of the groups after the first are those of the rest of the
    input. *)
Lemma charAt_shift c1 c2 c3 c4 s j :
  0 <= j ->
  charAt (String c1 (String c2 (String c3 (String c4 s)))) (j + 4) = charAt s j.
Proof.
  intros Hj.
  replace (j + 4) with (Z.of_nat (S (S (S (S (Z.to_nat j)))))) by lia.
  rewrite !charAt_cons. f_equal. lia.
Qed.

Lemma group_cell_shift c1 c2 c3 c4 s u (idx : nat) :
  group_cell (String c1 (String c2 (String c3 (String c4 s)))) u (3 + idx)
  = group_cell s (drop 3 u) idx.
Proof.
  unfold group_cell, stored, sym, enc.
  assert (Hd : ((3 + idx) / 3 = S (idx / 3))%nat).
  { replace (3 + idx)%nat with (idx + 1 * 3)%nat by lia. rewrite Nat.div_add by lia. lia. }
  assert (Hm : ((3 + idx) mod 3 = idx mod 3)%nat).
  { replace (3 + idx)%nat with (idx + 1 * 3)%nat by lia. by rewrite Nat.Div0.mod_add. }
  rewrite Hd, Hm, !lookup_drop.
  cbn [String.length].
  replace (4 * Z.of_nat (S (idx / 3)) + 0) with (4 * Z.of_nat (idx / 3) + 0 + 4) by lia.
  replace (4 * Z.of_nat (S (idx / 3)) + 1) with (4 * Z.of_nat (idx / 3) + 1 + 4) by lia.
  replace (4 * Z.of_nat (S (idx / 3)) + 2) with (4 * Z.of_nat (idx / 3) + 2 + 4) by lia.
  replace (4 * Z.of_nat (S (idx / 3)) + 3) with (4 * Z.of_nat (idx / 3) + 3 + 4) by lia.
  rewrite !charAt_shift by lia.
  destruct (Z.ltb_spec (4 * Z.of_nat (S (idx / 3)))
              (Z.of_nat (S (S (S (S (String.length s))))))),
           (Z.ltb_spec (4 * Z.of_nat (idx / 3)) (Z.of_nat (String.length s)));
    try lia; reflexivity.
Qed.

Lemma enc_at0 c s : enc (String c s) 0 = indexOf keyStr (String c "").
Proof. reflexivity. Qed.
Lemma enc_at1 c0 c s : enc (String c0 (String c s)) 1 = indexOf keyStr (String c "").
Proof. reflexivity. Qed.
Lemma enc_at2 c0 c1 c s :
  enc (String c0 (String c1 (String c s))) 2 = indexOf keyStr (String c "").
Proof. reflexivity. Qed.
Lemma enc_at3 c0 c1 c2 c s :
  enc (String c0 (String c1 (String c2 (String c s)))) 3 = indexOf keyStr (String c "").
Proof. reflexivity. Qed.

(** The cells of the first group. *)
Lemma group_cell_first c s u :
  group_cell (String c s) u 0 = stored u 0 (chr1 (enc (String c s) 0) (enc (String c s) 1))
  /\ group_cell (String c s) u 1 =
       (if enc (String c s) 2 =? 64 then u !! 1%nat
        else stored u 1 (chr2 (enc (String c s) 1) (enc (String c s) 2)))
  /\ group_cell (String c s) u 2 =
       (if enc (String c s) 3 =? 64 then u !! 2%nat
        else stored u 2 (chr3 (enc (String c s) 2) (enc (String c s) 3))).
Proof.
  unfold group_cell, sym.
  change (0 / 3)%nat with 0%nat. change (1 / 3)%nat with 0%nat.
  change (2 / 3)%nat with 0%nat.
  change (0 mod 3)%nat with 0%nat. change (1 mod 3)%nat with 1%nat.
  change (2 mod 3)%nat with 2%nat.
  change (4 * Z.of_nat 0 + 0) with 0. change (4 * Z.of_nat 0 + 1) with 1.
  change (4 * Z.of_nat 0 + 2) with 2. change (4 * Z.of_nat 0 + 3) with 3.
  change (4 * Z.of_nat 0) with 0.
  destruct (Z.ltb_spec 0 (Z.of_nat (String.length (String c s)))) as [_|H];
    [done|simpl in H; lia].
Qed.

(** Each cell of the buffer gets the byte that was encoded. *)
Lemma group_cell_symbols bytes :
  Forall byte bytes ->
  forall u (idx : nat) b,
    bytes !! idx = Some b -> group_cell (symbols bytes) u idx = (fun _ => b) <$> u !! idx.
Proof.
  induction bytes as [|b1|b1 b2|b1 b2 b3 rest IH] using triple_ind; intros Hb u idx b Hi;
    [done|..].
  - apply Forall_cons in Hb as [H1 _].
    destruct (sextets_bound b1 0 H1 ltac:(sextet)) as (S1 & _ & _ & _ & S2 & _).
    pose proof (proj1 (symbol_index _ S1)) as P1.
    pose proof (proj1 (symbol_index _ S2)) as P2.
    destruct idx as [|[|]]; [|done..]. injection Hi as <-.
    cbn [symbols].
    rewrite (proj1 (group_cell_first _ _ u)), enc_at0, enc_at1, P1, P2.
    replace (b1 mod 4 * 16) with (b1 mod 4 * 16 + 0) by lia.
    unfold stored. by rewrite chr1_sextets by (done || lia).
  - apply Forall_cons in Hb as [H1 Hb]. apply Forall_cons in Hb as [H2 _].
    destruct (sextets_bound b1 b2 H1 H2) as (S1 & S2 & _).
    destruct (sextets_bound b2 0 H2 ltac:(sextet)) as (_ & _ & _ & _ & _ & S3).
    pose proof (proj1 (symbol_index _ S1)) as P1.
    pose proof (proj1 (symbol_index _ S2)) as P2.
    pose proof (proj1 (symbol_index _ S3)) as P3.
    cbn [symbols].
    destruct idx as [|[|[|]]]; [| |done..]; injection Hi as <-.
    + rewrite (proj1 (group_cell_first _ _ u)), enc_at0, enc_at1, P1, P2.
      unfold stored. by rewrite chr1_sextets by (done || sextet).
    + rewrite (proj1 (proj2 (group_cell_first _ _ u))), enc_at1, enc_at2, P2, P3.
      destruct (Z.eqb_spec (b2 mod 16 * 4) 64); [lia|].
      replace (b2 mod 16 * 4) with (b2 mod 16 * 4 + 0) by lia.
      unfold stored. by rewrite chr2_sextets by (done || sextet).
  - pose proof Hb as Hall.
    apply Forall_cons in Hb as [H1 Hb]. apply Forall_cons in Hb as [H2 Hb].
    apply Forall_cons in Hb as [H3 Hb].
    destruct (sextets_bound b1 b2 H1 H2) as (S1 & S2 & _).
    destruct (sextets_bound b2 b3 H2 H3) as (_ & _ & S3 & _).
    destruct (sextets_bound b3 0 H3 ltac:(sextet)) as (_ & _ & _ & S4 & _).
    pose proof (proj1 (symbol_index _ S1)) as P1.
    pose proof (proj1 (symbol_index _ S2)) as P2.
    pose proof (proj1 (symbol_index _ S3)) as P3.
    pose proof (proj1 (symbol_index _ S4)) as P4.
    change (symbols (b1 :: b2 :: b3 :: rest)) with
      (String (symbol (b1 / 4)) (String (symbol (b1 mod 4 * 16 + b2 / 16))
        (String (symbol (b2 mod 16 * 4 + b3 / 64)) (String (symbol (b3 mod 64))
          (symbols rest))))).
    destruct idx as [|[|[|idx]]].
    + injection Hi as <-.
      rewrite (proj1 (group_cell_first _ _ u)), enc_at0, enc_at1, P1, P2.
      unfold stored. by rewrite chr1_sextets by (done || sextet).
    + injection Hi as <-.
      rewrite (proj1 (proj2 (group_cell_first _ _ u))), enc_at1, enc_at2, P2, P3.
      destruct (Z.eqb_spec (b2 mod 16 * 4 + b3 / 64) 64); [lia|].
      unfold stored. by rewrite chr2_sextets by (done || sextet).
    + injection Hi as <-.
      rewrite (proj2 (proj2 (group_cell_first _ _ u))), enc_at2, enc_at3, P3, P4.
      destruct (Z.eqb_spec (b3 mod 64) 64); [lia|].
      unfold stored. by rewrite chr3_sextets by (done || sextet).
    + change (S (S (S idx))) with (3 + idx)%nat.
      rewrite group_cell_shift, (IH Hb _ idx b Hi), lookup_drop. reflexivity.
Qed.

Lemma decode_symbols s bytes :
  Forall byte bytes -> cleaned s = symbols bytes -> decode s = Some bytes.
Proof.
  intros Hb Hs. unfold decode.
  destruct (decode_from_total (newArrayBuffer (bytes_of (cleaned s))) s) as (r & Hr & Hl).
  rewrite Hr. f_equal.
  assert (Hlen : length r = length bytes).
  { rewrite Hl. unfold newArrayBuffer. rewrite length_replicate, Qfloor_bytes, Hs.
    rewrite length_symbols. lia. }
  unfold decode_from in Hr.
  pose proof (decode_loop_lookup (cleaned s) _ 0 _ r Hr) as Hcell.
  apply list_eq. intros idx. rewrite Hcell.
  replace (idx <? 3 * 0)%nat with false by (symmetry; apply Nat.ltb_ge; lia).
  destruct (bytes !! idx) as [b|] eqn:Eb.
  - rewrite Hs, (group_cell_symbols bytes Hb _ idx b Eb).
    assert (Hlt : (idx < length bytes)%nat) by (apply lookup_lt_is_Some; eauto).
    unfold newArrayBuffer. rewrite lookup_replicate_2; [done|].
    rewrite Qfloor_bytes, length_symbols. lia.
  - apply lookup_ge_None in Eb.
    assert (Hr' : r !! idx = None) by (apply lookup_ge_None; lia).
    rewrite <- Hr'. rewrite Hcell.
    replace (idx <? 3 * 0)%nat with false by (symmetry; apply Nat.ltb_ge; lia).
    reflexivity.
Qed.

(** X1. [decode] undoes the Base64 encoding: for every sequence of bytes,
    it returns the sequence from its encoding, and also from the encoding
    without its padding. *)
Theorem decode_encode (bytes : list Z) :
  Forall byte bytes ->
  decode (encode bytes) = Some bytes /\ decode (symbols bytes) = Some bytes.
Proof.
  intros Hb. destruct (cleaned_encode bytes Hb) as [He Hs].
  split; by apply decode_symbols.
Qed.

(** The bytes of [Man], of [Ma] and of [M], with the padding that each
    needs. *)
Lemma decode_encode_witness :
  decode (encode [77; 97; 110; 77; 97]) = Some [77; 97; 110; 77; 97]
  /\ decode (symbols [77; 97; 110; 77; 97]) = Some [77; 97; 110; 77; 97].
Proof.
  apply (decode_encode [77; 97; 110; 77; 97]).
  repeat constructor; unfold byte; lia.
Defined.

(** *** What the decoder passes over *)

Lemma strip_in_class s :
  Forall (fun c => in_class c = true) (list_ascii_of_string s) -> strip s = s.
Proof.
  induction s as [|c s IH]; [done|]. cbn [list_ascii_of_string strip].
  intros H. apply Forall_cons in H as [-> H]. by rewrite IH.
Qed.

Lemma strip_outside s :
  Forall (fun c => in_class c = false) (list_ascii_of_string s) -> strip s = "".
Proof.
  induction s as [|c s IH]; [done|]. cbn [list_ascii_of_string strip].
  intros H. apply Forall_cons in H as [-> H]. by apply IH.
Qed.

Lemma in_class_strip s : Forall (fun c => in_class c = true) (list_ascii_of_string (strip s)).
Proof.
  induction s as [|c s IH]; [constructor|]. cbn [strip].
  destruct (in_class c) eqn:E; [|done]. by constructor.
Qed.

Lemma in_class_substring s (n : nat) :
  Forall (fun c => in_class c = true) (list_ascii_of_string s) ->
  Forall (fun c => in_class c = true) (list_ascii_of_string (substring 0 n s)).
Proof.
  revert n. induction s as [|c s IH]; intros [|n] H; simpl; try constructor.
  - by apply Forall_cons in H as [? ?].
  - apply IH. by apply Forall_cons in H as [? ?].
Qed.

Lemma charAt_substring s (n i : nat) :
  (i < n)%nat -> charAt (substring 0 n s) (Z.of_nat i) = charAt s (Z.of_nat i).
Proof.
  revert n i. induction s as [|c s IH]; intros [|n] [|i] Hi; simpl; try done; try lia.
  rewrite !charAt_cons. apply IH. lia.
Qed.

(** The loop of [removePaddingChars] returns the input itself when all it
    has seen is padding, and otherwise the input up to a symbol that is no
    padding. *)
Lemma removePaddingChars_from_cases s (n : nat) :
  (n <= String.length s)%nat ->
  (removePaddingChars_from s n = s /\ all_pads (substring 0 n s) = true)
  \/ exists i : nat, (i < n)%nat /\ removePaddingChars_from s n = substring 0 (S i) s
       /\ charAt s (Z.of_nat i) <> "=".
Proof.
  induction n as [|n IH]; intros Hn.
  - left. split; [done|]. by destruct s.
  - cbn [removePaddingChars_from].
    destruct (String.eqb_spec (charAt s (Z.of_nat n)) "=") as [E|E].
    + destruct IH as [[H1 H2]|(i & Hi & H1 & H2)]; [lia| |].
      * left. split; [done|]. rewrite substring_snoc by lia.
        rewrite E, all_pads_snoc, H2. done.
      * right. exists i. split; [lia|]. done.
    + right. exists n. split; [lia|]. done.
Qed.

Lemma removePaddingChars_idem s :
  removePaddingChars (removePaddingChars s) = removePaddingChars s.
Proof.
  unfold removePaddingChars at 2 3.
  destruct (removePaddingChars_from_cases s (String.length s)) as [[H1 H2]|(i & Hi & H1 & H2)];
    [lia| |].
  - rewrite H1. unfold removePaddingChars.
    destruct (removePaddingChars_from_cases s (String.length s))
      as [[H3 H4]|(i & Hi & H3 & H4)]; [lia|done|].
    rewrite H1 in H3. done.
  - rewrite H1. unfold removePaddingChars.
    rewrite length_substring by lia. cbn [removePaddingChars_from].
    rewrite charAt_substring by lia.
    destruct (String.eqb_spec (charAt s (Z.of_nat i)) "=") as [E|E]; [done|].
    rewrite <- (length_substring s (S i)) at 1 by lia. apply substring_all.
Qed.

Lemma cleaned_idem input : cleaned (cleaned input) = cleaned input.
Proof.
  unfold cleaned at 1 2.
  assert (Hs : strip (removePaddingChars (strip input)) = removePaddingChars (strip input)).
  { apply strip_in_class. unfold removePaddingChars.
    destruct (removePaddingChars_from_cases (strip input) (String.length (strip input)))
      as [[H1 H2]|(i & Hi & H1 & H2)]; [lia| |]; rewrite H1.
    - apply in_class_strip.
    - apply in_class_substring, in_class_strip. }
  rewrite Hs. apply removePaddingChars_idem.
Qed.

(** X2. [decode] reads the symbols of the alphabet and nothing else:
    characters outside the alphabet (line breaks, spaces) anywhere in the
    input do not change what it returns, and neither does removing them and
    the padding at the end beforehand. *)
Theorem decode_ignores_other_characters (input : string) :
  decode (cleaned input) = decode input
  /\ forall before junk after,
       input = before +:+ junk +:+ after ->
       Forall (fun c => in_class c = false) (list_ascii_of_string junk) ->
       decode input = decode (before +:+ after).
Proof.
  split.
  - unfold decode, decode_from. by rewrite !cleaned_idem.
  - intros a junk b -> Hj.
    assert (Hc : cleaned (a +:+ junk +:+ b) = cleaned (a +:+ b)).
    { unfold cleaned. by rewrite !strip_append, (strip_outside junk Hj). }
    unfold decode, decode_from. by rewrite Hc.
Qed.

(** The encoding of [Man] broken over two lines. *)
Lemma decode_ignores_other_characters_witness :
  decode (String "T" (String "W" (String "010" (String " " "Fu"))))
  = decode ("TW" +:+ "Fu").
Proof.
  apply (proj2 (decode_ignores_other_characters _) "TW" (String "010" " ") "Fu").
  - reflexivity.
  - repeat constructor.
Defined.

Lemma substring_split (s : string) (k : nat) :
  (k <= String.length s)%nat ->
  s = substring 0 k s +:+ substring k (String.length s - k) s.
Proof.
  revert k. induction s as [|c s IH]; intros [|k] Hk; try done.
  - change (String c s = "" +:+ substring 0 (String.length (String c s)) (String c s)).
    rewrite substring_all. reflexivity.
  - simpl in Hk. specialize (IH k ltac:(lia)).
    change (String c s = String c (substring 0 k s +:+ substring k (String.length s - k) s)).
    by rewrite <- IH.
Qed.

Lemma length_substring_from (s : string) (k m : nat) :
  (k + m <= String.length s)%nat -> String.length (substring k m s) = m.
Proof.
  revert k m. induction s as [|c s IH]; intros [|k] [|m] Hk; simpl in *; try done; try lia.
  - f_equal. apply (IH 0%nat). lia.
  - apply IH. lia.
  - apply IH. lia.
Qed.

(** X3. [removePaddingChars] takes the padding symbols off the end of its
    input, down to the last symbol that is no padding, and doing it twice
    changes nothing more. An input that is padding and nothing else, not
    only the empty one, is returned as it is. *)
Theorem removePaddingChars_spec (input : string) :
  (all_pads input = true -> removePaddingChars input = input)
  /\ (all_pads input = false ->
        exists pads,
          input = removePaddingChars input +:+ pads
          /\ all_pads pads = true
          /\ String.length pads = trailing_pads input
          /\ charAt (removePaddingChars input)
               (Z.of_nat (String.length (removePaddingChars input)) - 1) <> "="
          /\ removePaddingChars input <> "")
  /\ removePaddingChars (removePaddingChars input) = removePaddingChars input.
Proof.
  split; [|split; [|apply removePaddingChars_idem]].
  - intros Ha. unfold removePaddingChars.
    rewrite removePaddingChars_from_spec by lia. by rewrite substring_all, Ha.
  - intros Ha. unfold removePaddingChars.
    destruct (removePaddingChars_from_cases input (String.length input))
      as [[H1 H2]|(i & Hi & H1 & H2)]; [lia| |].
    { rewrite substring_all in H2. congruence. }
    pose proof (removePaddingChars_from_spec input (String.length input) ltac:(lia)) as Hs.
    rewrite substring_all, Ha in Hs.
    assert (Hlen : S i = (String.length input - trailing_pads input)%nat).
    { rewrite H1 in Hs. apply (f_equal String.length) in Hs.
      pose proof (trailing_pads_le input).
      rewrite !length_substring in Hs by lia. done. }
    rewrite H1.
    exists (substring (S i) (String.length input - S i) input).
    pose proof (trailing_pads_le input) as Hle.
    split; [apply substring_split; lia|].
    assert (Hpl : String.length (substring (S i) (String.length input - S i) input)
                  = trailing_pads input) by (rewrite length_substring_from; lia).
    split; [|split; [exact Hpl|split]].
    + pose proof (substring_split input (S i) ltac:(lia)) as Hin.
      set (r := substring 0 (S i) input) in *.
      set (p := substring (S i) (String.length input - S i) input) in *.
      assert (Hr : all_pads r = false).
      { destruct (all_pads r) eqn:Er; [|done]. exfalso.
        assert (Hc : exists c, charAt input (Z.of_nat i) = String c "")
          by (apply charAt_inside; lia).
        destruct Hc as [c Hc].
        unfold r in Er. rewrite substring_snoc, Hc, all_pads_snoc in Er by lia.
        apply andb_true_iff in Er as [_ Er]. unfold is_pad in Er.
        apply Ascii.eqb_eq in Er. subst c. done. }
      assert (Htr : trailing_pads r = 0%nat).
      { unfold r. rewrite substring_snoc by lia.
        destruct (charAt_inside input i ltac:(lia)) as [c Hc]. rewrite Hc.
        rewrite trailing_pads_snoc. destruct (is_pad c) eqn:Ec; [|done].
        unfold is_pad in Ec. apply Ascii.eqb_eq in Ec. subst c. done. }
      destruct (all_pads p) eqn:Ep; [done|]. exfalso.
      (* the padding at the end of [p] would be that of the input, and shorter *)
      assert (Hgen : forall a b, all_pads b = false ->
                trailing_pads (a +:+ b) = trailing_pads b).
      { clear. induction a as [|c a IH]; intros b Hb; [done|].
        change (String c a +:+ b) with (String c (a +:+ b)). cbn [trailing_pads].
        change (all_pads (String c (a +:+ b))) with (is_pad c && all_pads (a +:+ b)).
        rewrite all_pads_append, Hb, !andb_false_r. by apply IH. }
      pose proof (Hgen r p Ep) as Ht. rewrite <- Hin in Ht.
      pose proof (trailing_pads_le p) as Hle'.
      assert (Hne : trailing_pads p <> String.length p).
      { intros Heq. apply all_pads_trailing in Heq. congruence. }
      lia.
    + rewrite length_substring by lia.
      replace (Z.of_nat (S i) - 1) with (Z.of_nat i) by lia.
      by rewrite charAt_substring by lia.
    + intros Heq. apply (f_equal String.length) in Heq.
      rewrite length_substring in Heq by lia. done.
Qed.

(** Two symbols with their padding, and padding alone. *)
Lemma removePaddingChars_spec_witness :
  removePaddingChars "====" = "===="
  /\ exists pads, "QQ==" = removePaddingChars "QQ==" +:+ pads /\ all_pads pads = true.
Proof.
  destruct (removePaddingChars_spec "====") as (H1 & _ & _).
  destruct (removePaddingChars_spec "QQ==") as (_ & H2 & _).
  split; [apply H1; reflexivity|].
  destruct (H2 eq_refl) as (pads & Hp & Ha & _). by exists pads.
Defined.

(** *** An input of padding alone *)

Lemma charAt_all_pads s (j : nat) :
  all_pads s = true -> (j < String.length s)%nat -> charAt s (Z.of_nat j) = "=".
Proof.
  revert j. induction s as [|c s IH]; intros j Ha Hj; simpl in Hj; [lia|].
  simpl in Ha. apply andb_true_iff in Ha as [Hc Ha].
  destruct j as [|j].
  - unfold is_pad in Hc. apply Ascii.eqb_eq in Hc. by subst c.
  - rewrite charAt_cons. apply IH; [done|lia].
Qed.

Lemma enc_all_pads s j :
  all_pads s = true -> 0 <= j < Z.of_nat (String.length s) -> enc s j = 64.
Proof.
  intros Ha Hj. unfold enc.
  replace j with (Z.of_nat (Z.to_nat j)) by lia.
  rewrite charAt_all_pads by (done || lia). reflexivity.
Qed.

Lemma strip_all_pads s : all_pads s = true -> strip s = s.
Proof.
  induction s as [|c s IH]; [done|]. simpl. intros Ha.
  apply andb_true_iff in Ha as [Hc Ha].
  unfold is_pad in Hc. apply Ascii.eqb_eq in Hc. subst c. simpl. by rewrite IH.
Qed.

(** X4. An input that is padding symbols and nothing else is not taken for
    empty: [decode] returns floor(3n/4) bytes for [n] padding symbols, the
    first byte of each group 4 and the others 0. *)
Theorem decode_padding_only (input : string) :
  all_pads input = true ->
  exists buffer,
    decode input = Some buffer
    /\ Z.of_nat (length buffer) = 3 * Z.of_nat (String.length input) / 4
    /\ forall (idx : nat) b,
         buffer !! idx = Some b -> b = if (idx mod 3 =? 0)%nat then 4 else 0.
Proof.
  intros Ha.
  assert (Hc : cleaned input = input).
  { unfold cleaned, removePaddingChars. rewrite strip_all_pads by done.
    rewrite removePaddingChars_from_spec by lia. by rewrite substring_all, Ha. }
  unfold decode.
  destruct (decode_from_total (newArrayBuffer (bytes_of (cleaned input))) input)
    as (r & Hr & Hl).
  assert (Hlen : Z.of_nat (length r) = 3 * Z.of_nat (String.length input) / 4).
  { rewrite Hl, length_newArrayBuffer, Hc. f_equal. lia. }
  exists r. split; [done|]. split; [done|].
  intros idx b Hb.
  unfold decode_from in Hr.
  pose proof (decode_loop_lookup (cleaned input) _ 0 _ r Hr idx) as Hcell.
  replace (idx <? 3 * 0)%nat with false in Hcell by (symmetry; apply Nat.ltb_ge; lia).
  rewrite Hc, Hb in Hcell.
  assert (Hlt : (idx < length r)%nat) by (apply lookup_lt_is_Some; eauto).
  assert (Hidx : 4 * (Z.of_nat idx + 1) <= 3 * Z.of_nat (String.length input)).
  { assert (Z.of_nat idx + 1 <= 3 * Z.of_nat (String.length input) / 4) by lia.
    pose proof (Z.mul_div_le (3 * Z.of_nat (String.length input)) 4 ltac:(lia)). lia. }
  assert (Hzero : newArrayBuffer (bytes_of input) !! idx = Some 0).
  { unfold newArrayBuffer. apply lookup_replicate_2.
    rewrite Qfloor_bytes. lia. }
  pose proof (Nat.div_mod_eq idx 3) as Hdm.
  pose proof (Nat.mod_upper_bound idx 3 ltac:(lia)) as Hmb.
  unfold group_cell, stored, sym in Hcell. rewrite Hzero in Hcell.
  destruct (Z.ltb_spec (4 * Z.of_nat (idx / 3)) (Z.of_nat (String.length input)));
    [|lia].
  destruct (idx mod 3)%nat as [|[|m]] eqn:Em.
  - rewrite !enc_all_pads in Hcell by (done || lia).
    injection Hcell as ->. reflexivity.
  - rewrite !enc_all_pads in Hcell by (done || lia).
    injection Hcell as ->. reflexivity.
  - rewrite !enc_all_pads in Hcell by (done || lia).
    injection Hcell as ->. reflexivity.
Qed.

(** Four padding symbols. *)
Lemma decode_padding_only_witness :
  exists buffer, decode "====" = Some buffer /\ Z.of_nat (length buffer) = 3.
Proof.
  destruct (decode_padding_only "====" eq_refl) as (buffer & Hb & Hl & _).
  exists buffer. split; [exact Hb|exact Hl].
Defined.

End Base64RoundTrip.

(** ** AudioPlayer: the nodes it makes *)

Section AudioPlayerNodes.
Import AudioPlayer.

(** What [play] leaves every node with. *)
Lemma made_step p o :
  Forall (fun nd => connected nd = true /\ is_Some (buffer nd) /\ is_Some (startAt nd))
    (nodes p) ->
  Forall (fun nd => connected nd = true /\ is_Some (buffer nd) /\ is_Some (startAt nd))
    (nodes (step p o)).
Proof.
  assert (Hpause : forall id q,
    Forall (fun nd => connected nd = true /\ is_Some (buffer nd) /\ is_Some (startAt nd))
      (nodes q) ->
    Forall (fun nd => connected nd = true /\ is_Some (buffer nd) /\ is_Some (startAt nd))
      (nodes (pause id q))).
  { intros id q H. unfold pause. destruct (sources q !! id) as [n|]; [|done].
    simpl. apply Forall_alter; [done|]. intros nd _ Hnd. exact Hnd. }
  intros H. destruct o as [id buf|id| |dt]; simpl.
  - destruct (sources p !! id) as [n|] eqn:E.
    + by rewrite play_taken by eauto.
    + rewrite play_fresh by done. simpl. apply Forall_app. split; [done|].
      repeat constructor; simpl; eauto.
  - by apply Hpause.
  - unfold pauseAll. generalize (map fst (map_to_list (sources p))) as ids.
    intros ids. revert p H. induction ids as [|id ids IH]; intros p H; [done|].
    simpl. by apply IH, Hpause.
  - done.
Qed.

Lemma made_run ops : forall p,
  Forall (fun nd => connected nd = true /\ is_Some (buffer nd) /\ is_Some (startAt nd))
    (nodes p) ->
  Forall (fun nd => connected nd = true /\ is_Some (buffer nd) /\ is_Some (startAt nd))
    (nodes (run ops p)).
Proof.
  induction ops as [|o ops IH]; intros p H; [done|]. apply IH, made_step, H.
Qed.

(** X5. Every node that the player has made is connected, has its buffer
    and has been started, and [sources] holds it for its note exactly as
    long as no stop is scheduled for it: no voice that sounds on is lost
    track of, and none that is stopped is kept. *)
Theorem sources_track_the_sounding_voices (opts : option Q) (ops : list op)
    (n : nat) (nd : SourceNode) :
  let p := run ops (constructor opts) in
  nodes p !! n = Some nd ->
  connected nd = true /\ is_Some (buffer nd) /\ is_Some (startAt nd)
  /\ (stopAt nd = None <-> sources p !! note nd = Some n).
Proof.
  intros p Hn.
  assert (Hp : inv p) by apply inv_run, inv_constructor.
  assert (Hm : Forall (fun nd => connected nd = true /\ is_Some (buffer nd)
                                 /\ is_Some (startAt nd)) (nodes p))
    by (apply made_run; constructor).
  rewrite Forall_lookup in Hm. destruct (Hm _ _ Hn) as (Hc & Hb & [s Hs]).
  split; [done|]. split; [done|]. split; [eauto|].
  destruct Hp as [H1 H2]. split.
  - intros Hstop. apply H2; [done|]. unfold live. by rewrite Hs, Hstop.
  - intros Hsrc. destruct (H1 _ _ Hsrc) as (nd' & Hn' & Hl & _).
    rewrite Hn in Hn'. injection Hn' as <-.
    unfold live in Hl. destruct (startAt nd), (stopAt nd); done.
Qed.

(** Two notes played, the first released. *)
Lemma sources_track_the_sounding_voices_witness :
  exists nd,
    nodes (run [Play "C4" VUndefined; Play "D4" VUndefined; Pause "C4"] (constructor None))
      !! 0%nat = Some nd
    /\ connected nd = true /\ is_Some (buffer nd) /\ is_Some (startAt nd).
Proof.
  pose proof (sources_track_the_sounding_voices None
                [Play "C4" VUndefined; Play "D4" VUndefined; Pause "C4"] 0
                {| buffer := Some VUndefined; connected := true; startAt := Some 0%Q;
                   stopAt := Some (3 # 10)%Q; note := "C4" |}) as H.
  cbv zeta in H.
  assert (Hn : nodes (run [Play "C4" VUndefined; Play "D4" VUndefined; Pause "C4"]
                        (constructor None)) !! 0%nat
               = Some {| buffer := Some VUndefined; connected := true; startAt := Some 0%Q;
                         stopAt := Some (3 # 10)%Q; note := "C4" |})
    by (vm_compute; reflexivity).
  destruct (H Hn) as (Hc & Hb & Hs & _).
  eexists. split; [exact Hn|]. split; [exact Hc|]. split; [exact Hb|exact Hs].
Defined.

(** *** A node changes once *)

Lemma changes_pause id p n nd :
  nodes p !! n = Some nd ->
  exists nd', nodes (pause id p) !! n = Some nd'
    /\ (nd' = nd
        \/ sources p !! id = Some n /\ nd' = stop (currentTime p + stopDelay p)%Q nd).
Proof.
  intros Hn. unfold pause. destruct (sources p !! id) as [m|] eqn:E; [|eauto].
  simpl. destruct (decide (m = n)) as [->|Hne].
  - rewrite list_lookup_alter_eq, Hn. simpl. eauto.
  - rewrite list_lookup_alter_ne by done. eauto.
Qed.

Lemma changes_fold_pause ids : forall p n nd,
  inv p -> nodes p !! n = Some nd ->
  exists nd', nodes (foldl (fun p id => pause id p) p ids) !! n = Some nd'
    /\ (nd' = nd
        \/ live nd = true /\ nd' = stop (currentTime p + stopDelay p)%Q nd).
Proof.
  induction ids as [|id ids IH]; intros p n nd Hp Hn; [eauto|].
  simpl. destruct (changes_pause id p n nd Hn) as (nd1 & H1 & [->|[Hs ->]]).
  - destruct (IH (pause id p) n nd (inv_pause _ _ Hp) H1) as (nd' & H' & Hc).
    exists nd'. split; [done|]. destruct (clock_pause id p) as [Ec Ed].
    by rewrite Ec, Ed in Hc.
  - exists (stop (currentTime p + stopDelay p)%Q nd). split; [|right].
    + apply fold_pause_stopped; [by apply inv_pause|done|].
      unfold live, stop. simpl. by destruct (startAt nd).
    + split; [|done]. destruct Hp as [Hp1 _].
      destruct (Hp1 _ _ Hs) as (x & Hx & Hl & _). congruence.
Qed.

Lemma changes_step p o n nd :
  inv p -> nodes p !! n = Some nd ->
  exists nd', nodes (step p o) !! n = Some nd'
    /\ (nd' = nd
        \/ live nd = true /\ nd' = stop (currentTime p + stopDelay p)%Q nd).
Proof.
  intros Hp Hn. destruct o as [id buf|id| |dt]; simpl.
  - destruct (sources p !! id) as [m|] eqn:E.
    + rewrite play_taken by eauto. eauto.
    + rewrite play_fresh by done. simpl. exists nd. split; [|by left].
      by apply lookup_app_l_Some.
  - destruct (changes_pause id p n nd Hn) as (nd' & H' & [->|[Hs ->]]); [eauto|].
    eexists. split; [done|]. right. split; [|done].
    destruct Hp as [Hp1 _]. destruct (Hp1 _ _ Hs) as (x & Hx & Hl & _). congruence.
  - by apply changes_fold_pause.
  - eauto.
Qed.

(** X6. A node, once made, stays where it is in the context and keeps its
    buffer, its note and its start; all that ever changes of it is that
    its stop is scheduled, once: a scheduled stop is never moved or taken
    back, and a stopped voice is never started again. *)
Theorem node_changes_once (opts : option Q) (ops more : list op)
    (n : nat) (nd : SourceNode) :
  let p := run ops (constructor opts) in
  nodes p !! n = Some nd ->
  exists nd',
    nodes (run more p) !! n = Some nd'
    /\ (nd' = nd \/ stopAt nd = None /\ exists t, nd' = stop t nd).
Proof.
  intros p Hn.
  assert (Hp : inv p) by apply inv_run, inv_constructor.
  clearbody p. revert p nd Hp Hn.
  induction more as [|o more IH]; intros p nd Hp Hn; [eauto|].
  change (run (o :: more) p) with (run more (step p o)).
  destruct (changes_step p o n nd Hp Hn) as (nd1 & H1 & Hc).
  destruct (IH (step p o) nd1 (inv_step _ _ Hp) H1) as (nd' & H' & Hc').
  exists nd'. split; [done|].
  destruct Hc as [->|[Hl ->]]; [done|].
  assert (Hnone : stopAt nd = None).
  { unfold live in Hl. by destruct (startAt nd), (stopAt nd). }
  destruct Hc' as [->|[Hs _]]; [|done].
  right. eauto.
Qed.

(** A note played and released, and then played and released again. *)
Lemma node_changes_once_witness :
  exists nd',
    nodes (run [Advance 1; Play "C4" VUndefined; Pause "C4"; PauseAll]
             (run [Play "C4" VUndefined; Pause "C4"] (constructor None))) !! 0%nat
    = Some nd'.
Proof.
  pose proof (node_changes_once None [Play "C4" VUndefined; Pause "C4"]
                [Advance 1; Play "C4" VUndefined; Pause "C4"; PauseAll] 0
                {| buffer := Some VUndefined; connected := true; startAt := Some 0%Q;
                   stopAt := Some (3 # 10)%Q; note := "C4" |}) as H.
  cbv zeta in H.
  assert (Hn : nodes (run [Play "C4" VUndefined; Pause "C4"] (constructor None)) !! 0%nat
               = Some {| buffer := Some VUndefined; connected := true; startAt := Some 0%Q;
                         stopAt := Some (3 # 10)%Q; note := "C4" |})
    by (vm_compute; reflexivity).
  destruct (H Hn) as (nd' & H' & _).
  exists nd'. exact H'.
Defined.

(** *** The order of start and stop

    The time of a stop is a sum, [currentTime + stopDelay], which the
    program rounds to a double; what is stated here is the order of the
    start and the stop of a voice, which a rounded sum keeps as the exact
    one does, and not the length of the time between them. *)





(** *** The order of [pauseAll] *)

Lemma length_fold_pause ids : forall p,
  length (nodes (foldl (fun p id => pause id p) p ids)) = length (nodes p)
  /\ gain (foldl (fun p id => pause id p) p ids) = gain p.
Proof.
  induction ids as [|id ids IH]; intros p; [done|]. simpl.
  destruct (IH (pause id p)) as [-> ->].
  unfold pause. destruct (sources p !! id); [|done]. simpl. by rewrite length_alter.
Qed.

Lemma fold_pause_all ids p :
  inv p ->
  (forall id, is_Some (sources p !! id) -> id ∈ ids) ->
  let q := foldl (fun p id => pause id p) p ids in
  currentTime q = currentTime p /\ gain q = gain p /\ stopDelay q = stopDelay p
  /\ sources q = ∅
  /\ forall n, nodes q !! n =
       (fun nd => if live nd then stop (currentTime p + stopDelay p)%Q nd else nd)
         <$> nodes p !! n.
Proof.
  intros Hp Hall q.
  destruct (fold_pause_clock ids p) as [Hc Hd].
  destruct (length_fold_pause ids p) as [Hl Hg].
  split; [done|]. split; [done|]. split; [done|]. split.
  - apply map_eq. intros id. unfold q. rewrite fold_pause_sources, lookup_empty.
    case_decide as Hin; [done|].
    destruct (sources p !! id) as [n|] eqn:E; [|done].
    destruct Hin. apply Hall. eauto.
  - intros n. destruct (nodes p !! n) as [nd|] eqn:En; simpl.
    + destruct (live nd) eqn:El.
      * destruct Hp as [H1 H2]. pose proof (H2 _ _ En El) as Hs.
        apply (fold_pause_node ids p (note nd)); [by split| |done..].
        apply Hall. eauto.
      * by apply fold_pause_stopped.
    + apply lookup_ge_None. apply lookup_ge_None in En. unfold q. lia.
Qed.

(** X8. [pauseAll] does not depend on the order in which [sources] is
    gone through: pausing the notes of any list that has every sounding
    note, in the order of the list, repetitions and silent notes included,
    leaves the player as [pauseAll] leaves it. *)
Theorem pauseAll_in_any_order (opts : option Q) (ops : list op) (ids : list string) :
  let p := run ops (constructor opts) in
  (forall id, is_Some (sources p !! id) -> id ∈ ids) ->
  foldl (fun q id => pause id q) p ids = pauseAll p.
Proof.
  intros p Hall.
  assert (Hp : inv p) by apply inv_run, inv_constructor.
  destruct (fold_pause_all ids p Hp Hall) as (H1 & H2 & H3 & H4 & H5).
  destruct (fold_pause_all (map fst (map_to_list (sources p))) p Hp)
    as (K1 & K2 & K3 & K4 & K5).
  { intros id [n Hn]. apply list_elem_of_fmap. exists (id, n). split; [done|].
    by apply elem_of_map_to_list. }
  fold (pauseAll p) in K1, K2, K3, K4, K5.
  assert (Hnodes : nodes (foldl (fun q id => pause id q) p ids) = nodes (pauseAll p)).
  { apply list_eq. intros n. by rewrite H5, K5. }
  destruct (foldl (fun q id => pause id q) p ids), (pauseAll p). simpl in *.
  congruence.
Qed.

(** Two notes sound; they are paused last first, with a silent note and a
    repetition between. *)
Lemma pauseAll_in_any_order_witness :
  foldl (fun q id => pause id q)
    (run [Play "C4" VUndefined; Play "D4" VUndefined] (constructor None))
    ["D4"; "E4"; "C4"; "D4"]
  = pauseAll (run [Play "C4" VUndefined; Play "D4" VUndefined] (constructor None)).
Proof.
  apply (pauseAll_in_any_order None [Play "C4" VUndefined; Play "D4" VUndefined]
           ["D4"; "E4"; "C4"; "D4"]).
  intros id [n Hn].
  destruct (decide (id = "C4")) as [->|H1]; [set_solver|].
  destruct (decide (id = "D4")) as [->|H2]; [set_solver|].
  exfalso. revert Hn.
  change (sources (run [Play "C4" VUndefined; Play "D4" VUndefined] (constructor None)))
    with (<["D4" := 1%nat]> (<["C4" := 0%nat]> (∅ : gmap string nat))).
  rewrite !lookup_insert_ne by done. by rewrite lookup_empty.
Defined.

End AudioPlayerNodes.

(** ** Keyboard: what is drawn and what is held *)

Section Keeps.
Context {S : Type}.
Variable I : S -> Prop.

Lemma keeps_ret {A} (a : A) : keeps I (ret a).
Proof. by intros s H. Qed.

Lemma keeps_throw {A} e : keeps I (@throw S A e).
Proof. by intros s H. Qed.

Lemma keeps_get : keeps I get.
Proof. by intros s H. Qed.

Lemma keeps_modify (f : S -> S) : (forall s, I s -> I (f s)) -> keeps I (modify f).
Proof. intros Hf s H. by apply Hf. Qed.

Lemma keeps_bind {A B} (c : M S A) (k : A -> M S B) :
  keeps I c -> (forall a s, c s = Done a (final (c s)) -> keeps I (k a)) -> keeps I (bind c k).
Proof.
  intros Hc Hk s H. unfold bind. specialize (Hc s H).
  destruct (c s) as [a s'|e s'] eqn:E; simpl in *; [|done].
  apply (Hk a s); [by rewrite E|done].
Qed.

Lemma keeps_for_each {A} (xs : list A) (body : A -> M S unit) :
  (forall x, keeps I (body x)) -> keeps I (for_each xs body).
Proof.
  intros Hb. induction xs as [|x xs IH]; [apply keeps_ret|].
  cbn [for_each]. apply keeps_bind; [apply Hb|]. intros _ _ _. exact IH.
Qed.

Lemma keeps_for_index {A} (xs : list A) (body : Z -> A -> M S unit) :
  (forall i x, keeps I (body i x)) -> forall i, keeps I (for_index i xs body).
Proof.
  intros Hb. induction xs as [|x xs IH]; intros i; [apply keeps_ret|].
  cbn [for_index]. apply keeps_bind; [apply Hb|]. intros _ _ _. apply IH.
Qed.
End Keeps.

Section KeyboardDrawn.
Import Keyboard.

Lemma flex_item_not_pressed layout x y len : flex_item layout x y len <> "key-pressed".
Proof.
  unfold flex_item.
  repeat match goal with |- context [if ?b then _ else _] => destruct b end; discriminate.
Qed.

(** *** The keyboard as [render] leaves it: nothing held, nothing shown
    as pressed. *)
Lemma render_clean params codesChars notesDigits layoutDocument :
  keeps (fun k => marks k = ∅
                  /\ forall c e, keys k !! c = Some e -> "key-pressed" ∉ classList e)
    (render params codesChars notesDigits layoutDocument).
Proof.
  set (I := fun k => marks k = ∅
              /\ forall c e, keys k !! c = Some e -> "key-pressed" ∉ classList e).
  assert (Hkey : forall key x y len, keeps I (createKey params codesChars notesDigits key x y len)).
  { intros key x y len. unfold createKey.
    apply keeps_bind.
    { unfold table_get. destruct (json codesChars); [apply keeps_ret|apply keeps_throw]. }
    intros upper _ _. apply keeps_bind.
    { destruct (String.eqb (display params) "digit"); [|apply keeps_ret].
      unfold table_get. destruct (json notesDigits); [apply keeps_ret|apply keeps_throw]. }
    intros lower _ _. apply keeps_bind; [|intros; apply keeps_ret].
    apply keeps_modify. intros k [Hm Hk]. split; [done|].
    intros c e. cbn [keys set_keys]. rewrite lookup_insert. case_decide as Hc.
    - intros [= <-]. cbn [classList].
      rewrite !not_elem_of_cons. repeat split; try discriminate.
      + intros Heq. symmetry in Heq. by apply flex_item_not_pressed in Heq.
      + apply not_elem_of_nil.
    - apply Hk. }
  assert (Hrow : forall ks x y len element,
            keeps I (createRow_from params codesChars notesDigits ks x y len element)).
  { induction ks as [|key ks IH]; intros x y len element; [apply keeps_ret|].
    cbn [createRow_from]. apply keeps_bind; [apply Hkey|]. intros; apply IH. }
  unfold render. apply keeps_bind.
  { apply keeps_modify. by intros k [Hm Hk]. }
  intros _ _ _. destruct layoutDocument as [asset|]; [|apply keeps_throw].
  destruct (json asset) as [rows|]; [|apply keeps_throw].
  apply keeps_for_index. intros x row. apply keeps_bind; [apply Hrow|].
  intros r _ _. apply keeps_modify. by intros k [Hm Hk].
Qed.

(** *** Held and shown as held *)




(** *** Press and release *)

Lemma filter_all {A} (P : A -> Prop) `{forall x, Decision (P x)} (l : list A) :
  Forall P l -> filter P l = l.
Proof.
  induction 1 as [|x l Hx Hl IH]; [done|].
  rewrite filter_cons, decide_True by done. by rewrite IH.
Qed.

Lemma classList_remove_add e :
  "key-pressed" ∉ classList e ->
  classList_remove "key-pressed" (classList_add "key-pressed" e) = e.
Proof.
  intros Hn. destruct e as [i cl h]. unfold classList_remove, classList_add. simpl in *.
  f_equal. rewrite bool_decide_eq_false_2 by done.
  rewrite filter_app, filter_cons, decide_False by (intros Hne; by apply Hne).
  rewrite filter_nil, app_nil_r. apply filter_all.
  apply Forall_forall. intros x Hx ->. done.
Qed.

(** X10. [release] undoes [press]: a key on the page that is neither held
    nor shown as pressed is back as it was after a press and a release,
    and is held between the two. *)
Theorem release_undoes_press (c : string) (k : t) (e : Element) :
  keys k !! c = Some e ->
  marks k !! c = None ->
  "key-pressed" ∉ classList e ->
  exists k1,
    press c k = Done tt k1
    /\ pressed c k1 = true
    /\ (exists e1, keys k1 !! c = Some e1 /\ "key-pressed" ∈ classList e1)
    /\ release c k1 = Done tt k.
Proof.
  intros Hk Hm Hn.
  assert (Hp : pressed c k = false) by (unfold pressed; by rewrite Hm).
  eexists. split; [apply (press_fresh c k e Hp Hk)|].
  assert (Hp1 : pressed c (set_keys (insert c (classList_add "key-pressed" e))
                             (set_marks (insert c true) k)) = true).
  { unfold pressed. simpl. by rewrite lookup_insert_eq. }
  split; [done|]. split.
  { eexists. split; [simpl; apply lookup_insert_eq|].
    cbn [classList classList_add]. rewrite bool_decide_eq_false_2 by done.
    apply elem_of_app. right. apply list_elem_of_here. }
  erewrite release_held; [|done|simpl; apply lookup_insert_eq].
  f_equal. destruct k as [la co ks ms]. unfold set_marks, set_keys. simpl in *. f_equal.
  - rewrite classList_remove_add by done.
    apply map_eq. intros d. destruct (decide (c = d)) as [<-|Hne].
    + by rewrite lookup_insert_eq.
    + by rewrite !lookup_insert_ne.
  - apply map_eq. intros d. destruct (decide (c = d)) as [<-|Hne].
    + by rewrite lookup_delete_eq.
    + by rewrite lookup_delete_ne, !lookup_insert_ne.
Qed.

(** The key [KeyA] of a drawn keyboard. *)
Lemma release_undoes_press_witness :
  exists k1,
    press "KeyA" (keyboard (app Demo.world)) = Done tt k1
    /\ release "KeyA" k1 = Done tt (keyboard (app Demo.world)).
Proof.
  destruct (release_undoes_press "KeyA" (keyboard (app Demo.world))
              {| id := "KeyA"; classList := ["card"; "key"; "center"; "flex-item-4"];
                 innerHTML := "A<br>1" |}) as (k1 & H1 & _ & _ & H2).
  - vm_compute. reflexivity.
  - vm_compute. reflexivity.
  - cbn [classList]. rewrite !not_elem_of_cons. repeat split; try discriminate.
    apply not_elem_of_nil.
  - exists k1. split; [exact H1|exact H2].
Defined.

(** *** What [render] draws *)

Section Draw.
Variable params : Params.
Variables codesChars notesDigits : JSONAsset Table.
Variable chars : Table.
Hypothesis Hchars : json codesChars = Some chars.
Hypothesis Hdigits : display params = "digit" -> is_Some (json notesDigits).

(** The keys of [k'] are those of [k] and one element for each of [ks]. *)
Lemma draws_createKey key x y len k :
  exists el,
    createKey params codesChars notesDigits key x y len k
      = Done (fst key) (set_keys (insert (fst key) el) k)
    /\ id el = fst key /\ "key-pressed" ∉ classList el.
Proof.
  unfold createKey, table_get. monad. rewrite Hchars.
  destruct (String.eqb_spec (display params) "digit") as [Hd|Hd].
  - destruct (Hdigits Hd) as [digits ->].
    eexists. split; [reflexivity|]. split; [done|]. cbn [classList].
    rewrite !not_elem_of_cons. repeat split; try discriminate.
    + intros Heq. symmetry in Heq. by apply flex_item_not_pressed in Heq.
    + apply not_elem_of_nil.
  - eexists. split; [reflexivity|]. split; [done|]. cbn [classList].
    rewrite !not_elem_of_cons. repeat split; try discriminate.
    + intros Heq. symmetry in Heq. by apply flex_item_not_pressed in Heq.
    + apply not_elem_of_nil.
Qed.

Lemma draws_createRow_from ks : forall x y len element k,
  exists k',
    createRow_from params codesChars notesDigits ks x y len element k
      = Done (element ++ map fst ks) k'
    /\ container k' = container k /\ marks k' = marks k /\ layoutAsset k' = layoutAsset k
    /\ (forall c, c ∉ map fst ks -> keys k' !! c = keys k !! c)
    /\ (forall c, c ∈ map fst ks ->
          exists el, keys k' !! c = Some el /\ id el = c /\ "key-pressed" ∉ classList el).
Proof.
  induction ks as [|key ks IH]; intros x y len element k.
  - exists k. cbn [createRow_from map]. rewrite app_nil_r. split; [done|].
    repeat split; try done. intros c Hc. by apply elem_of_nil in Hc.
  - cbn [createRow_from]. unfold bind at 1.
    destruct (draws_createKey key x y len k) as (el & -> & Hid & Hcl).
    destruct (IH x (y + 1) len (element ++ [fst key]) (set_keys (insert (fst key) el) k))
      as (k' & Hrun & Hco & Hma & Hla & Hout & Hin).
    exists k'. split; [rewrite Hrun; cbn [map]; by rewrite <- app_assoc|].
    split; [done|]. split; [done|]. split; [done|]. split.
    + intros c Hc. cbn [map] in Hc. apply not_elem_of_cons in Hc as [Hne Hc].
      rewrite (Hout c Hc). simpl. by rewrite lookup_insert_ne.
    + intros c Hc. destruct (decide (c ∈ map fst ks)) as [Hks|Hks]; [by apply Hin|].
      cbn [map] in Hc. apply elem_of_cons in Hc as [->|Hc]; [|done].
      rewrite (Hout _ Hks). simpl. rewrite lookup_insert_eq. eauto.
Qed.

Lemma draws_rows rows : forall x k,
  exists k',
    for_index x rows
      (fun x row =>
         do r <- createRow params codesChars notesDigits row x ;;
         modify (set_container (fun c => c ++ [r]))) k = Done tt k'
    /\ container k' = container k ++ map (map fst) rows
    /\ marks k' = marks k /\ layoutAsset k' = layoutAsset k
    /\ (forall c, c ∉ map fst (layout_entries rows) -> keys k' !! c = keys k !! c)
    /\ (forall c, c ∈ map fst (layout_entries rows) ->
          exists el, keys k' !! c = Some el /\ id el = c /\ "key-pressed" ∉ classList el).
Proof.
  induction rows as [|row rows IH]; intros x k.
  - exists k. cbn [for_index map]. rewrite app_nil_r. split; [done|].
    repeat split; try done. intros c Hc. by apply elem_of_nil in Hc.
  - cbn [for_index]. unfold bind at 1. unfold bind at 1. unfold createRow.
    destruct (draws_createRow_from row x 0 (Z.of_nat (length row)) [] k)
      as (k1 & -> & Hco1 & Hma1 & Hla1 & Hout1 & Hin1).
    unfold modify at 1.
    destruct (IH (x + 1) (set_container (fun c => c ++ [[] ++ map fst row]) k1))
      as (k' & Hrun & Hco & Hma & Hla & Hout & Hin).
    exists k'. split; [exact Hrun|].
    split; [rewrite Hco; simpl; rewrite Hco1; by rewrite <- app_assoc|].
    split; [by rewrite Hma|]. split; [by rewrite Hla|].
    unfold layout_entries in *. cbn [concat]. rewrite map_app. split.
    + intros c Hc. apply not_elem_of_app in Hc as [Hr Hc].
      rewrite (Hout c Hc). simpl. by apply Hout1.
    + intros c Hc. destruct (decide (c ∈ map fst (concat rows))) as [Hrs|Hrs];
        [by apply Hin|].
      apply elem_of_app in Hc as [Hc|Hc]; [|done].
      rewrite (Hout _ Hrs). simpl. by apply Hin1.
Qed.
End Draw.

Lemma draws_render (params : Params)
    (codesChars notesDigits : JSONAsset Table) (asset : JSONAsset Rows)
    (chars : Table) (rows : Rows) (k : t) :
  json codesChars = Some chars ->
  (display params = "digit" -> is_Some (json notesDigits)) ->
  json asset = Some rows ->
  exists k',
    render params codesChars notesDigits (Some asset) k = Done tt k'
    /\ container k' = map (map fst) rows
    /\ marks k' = marks k
    /\ (forall c, is_Some (keys k' !! c) <->
                  c ∈ map fst (layout_entries rows) \/ is_Some (keys k !! c))
    /\ (forall c, c ∈ map fst (layout_entries rows) ->
          exists el, keys k' !! c = Some el /\ id el = c /\ "key-pressed" ∉ classList el).
Proof.
  intros Hc Hd Hr. unfold render. unfold bind at 1. unfold modify at 1. rewrite Hr.
  destruct (draws_rows params codesChars notesDigits chars Hc Hd rows 0
              (set_container (fun _ => []) k))
    as (k' & Hrun & Hco & Hma & Hla & Hout & Hin).
  exists k'. split; [exact Hrun|]. split; [exact Hco|]. split; [exact Hma|].
  split; [|exact Hin].
  intros c. destruct (decide (c ∈ map fst (layout_entries rows))) as [Hm|Hm].
  - destruct (Hin c Hm) as (el & -> & _). split; eauto.
  - rewrite (Hout c Hm). simpl. split; [eauto|]. by intros [?|?].
Qed.

(** X11. With the key labels loaded, [render] draws the layout: the
    container gets the rows of the layout with their keys in order, and the
    page has, besides the keys it had, one element for each code of the
    layout, with the code as its id and not shown as pressed; what is held
    is not touched. *)
Theorem render_draws_the_layout (params : Params)
    (codesChars notesDigits : JSONAsset Table) (asset : JSONAsset Rows)
    (chars : Table) (rows : Rows) (k : t) :
  json codesChars = Some chars ->
  (display params = "digit" -> is_Some (json notesDigits)) ->
  json asset = Some rows ->
  exists k',
    render params codesChars notesDigits (Some asset) k = Done tt k'
    /\ container k' = map (map fst) rows
    /\ marks k' = marks k
    /\ (forall c, is_Some (keys k' !! c) <->
                  c ∈ map fst (layout_entries rows) \/ is_Some (keys k !! c))
    /\ (forall c, c ∈ map fst (layout_entries rows) ->
          exists el, keys k' !! c = Some el /\ id el = c /\ "key-pressed" ∉ classList el).
Proof. apply draws_render. Qed.

(** The two keys of the small instrument. *)
Lemma render_draws_the_layout_witness :
  exists k',
    render Demo.params (set_json (Some Demo.chars) (newAsset "c"))
      (set_json (Some Demo.digits) (newAsset "d"))
      (Some (set_json (Some Demo.layout) (newAsset "l"))) (constructor "default")
    = Done tt k'
    /\ container k' = [["KeyA"; "KeyS"]].
Proof.
  destruct (render_draws_the_layout Demo.params (set_json (Some Demo.chars) (newAsset "c"))
              (set_json (Some Demo.digits) (newAsset "d"))
              (set_json (Some Demo.layout) (newAsset "l")) Demo.chars Demo.layout
              (constructor "default")) as (k' & H1 & H2 & _).
  - reflexivity.
  - intros _. eexists. reflexivity.
  - reflexivity.
  - exists k'. split; [exact H1|exact H2].
Defined.

(** *** The keys of the page

    The container is modelled by the codes of its keys, row by row, and
    the elements are those of [keys]. That names every key element of the
    page when no code is repeated in the layout; an element whose code is
    created a second time stays in its row on the page, but [keys] then
    holds the later element, the only one that [press] and [release]
    reach. *)









End KeyboardDrawn.

(** ** App: the layout, mapped and drawn *)

Lemma fold_insert_outside (l : list (string * string)) : forall (m : Table) c,
  c ∉ map fst l -> foldl (fun m key => <[fst key := snd key]> m) m l !! c = m !! c.
Proof.
  induction l as [|key l IH]; intros m c Hc; [done|].
  cbn [map] in Hc. apply not_elem_of_cons in Hc as [Hne Hc].
  cbn [foldl]. rewrite IH by done. by rewrite lookup_insert_ne.
Qed.

Lemma fold_insert_last (l1 l2 : list (string * string)) (m : Table) c note :
  c ∉ map fst l2 ->
  foldl (fun m key => <[fst key := snd key]> m) m (l1 ++ (c, note) :: l2) !! c = Some note.
Proof.
  intros Hc. rewrite foldl_app. cbn [foldl fst snd].
  rewrite fold_insert_outside by done. by rewrite lookup_insert_eq.
Qed.

Lemma last_entry (l : list (string * string)) c :
  c ∈ map fst l ->
  exists l1 note l2, l = l1 ++ (c, note) :: l2 /\ c ∉ map fst l2.
Proof.
  induction l as [|[d n] l IH]; intros Hc; [by apply elem_of_nil in Hc|].
  destruct (decide (c ∈ map fst l)) as [Hin|Hout].
  - destruct (IH Hin) as (l1 & note & l2 & -> & H2).
    exists ((d, n) :: l1), note, l2. done.
  - cbn [map fst] in Hc. apply elem_of_cons in Hc as [->|Hc]; [|done].
    exists [], n, l. done.
Qed.

Lemma codes_to_notes_spec rows :
  (forall c, is_Some (codes_to_notes rows !! c) <-> c ∈ map fst (layout_entries rows))
  /\ (forall before c note after,
        layout_entries rows = before ++ (c, note) :: after -> c ∉ map fst after ->
        codes_to_notes rows !! c = Some note).
Proof.
  unfold codes_to_notes. split.
  - intros c. destruct (decide (c ∈ map fst (layout_entries rows))) as [Hin|Hout].
    + destruct (last_entry _ c Hin) as (l1 & note & l2 & Heq & H2).
      split; [by intros _|intros _]. rewrite Heq. rewrite fold_insert_last by done. eauto.
    + rewrite fold_insert_outside by done. rewrite lookup_empty.
      split; [by intros [? ?]|done].
  - intros l1 c note l2 -> H2. by apply fold_insert_last.
Qed.

Lemma updateKeyboardLayout_loaded a asset rows :
  layout_asset (layout (settings a)) a = Some asset ->
  json asset = Some rows ->
  updateKeyboardLayout a = Done tt (set_codesNotes (fun _ => Some (codes_to_notes rows)) a).
Proof.
  intros Ha Hr. unfold updateKeyboardLayout. unfold bind at 1. unfold modify at 1.
  unfold bind at 1. unfold get at 1.
  cbn [settings set_codesNotes].
  assert (Hl : layout_asset (layout (settings a)) (set_codesNotes (fun _ => Some ∅) a)
               = Some asset) by exact Ha.
  rewrite Hl, Hr.
  assert (Hrow : forall ks (cn : Table),
    for_each ks (fun key => modify (set_codesNotes (fmap (insert (fst key) (snd key)))))
      (set_codesNotes (fun _ => Some cn) a)
    = Done tt (set_codesNotes
                 (fun _ => Some (foldl (fun m key => <[fst key := snd key]> m) cn ks)) a)).
  { induction ks as [|key ks IHk]; intros cn; [reflexivity|].
    cbn [for_each foldl]. unfold bind at 1. unfold modify at 1.
    apply (IHk (<[fst key := snd key]> cn)). }
  assert (Hgen : forall rs (cn : Table),
    for_each rs (fun row => for_each row (fun key =>
        modify (set_codesNotes (fmap (insert (fst key) (snd key))))))
      (set_codesNotes (fun _ => Some cn) a)
    = Done tt (set_codesNotes
                 (fun _ => Some (foldl (fun m key => <[fst key := snd key]> m) cn
                                   (concat rs))) a)).
  { induction rs as [|row rs IH]; intros cn; [reflexivity|].
    cbn [for_each concat]. unfold bind at 1. rewrite Hrow, foldl_app. apply IH. }
  apply Hgen.
Qed.

(** X12. With its layout loaded, [updateKeyboardLayout] maps the codes of
    the layout and no others, each to the note of its entry, the last
    entry if the layout has several for a code. With the layout not loaded
    it throws, the map already emptied. *)
Theorem updateKeyboardLayout_maps_the_layout (a : App) (asset : JSONAsset Rows) :
  layout_asset (layout (settings a)) a = Some asset ->
  (forall rows, json asset = Some rows ->
     exists cn,
       updateKeyboardLayout a = Done tt (set_codesNotes (fun _ => Some cn) a)
       /\ (forall c, is_Some (cn !! c) <-> c ∈ map fst (layout_entries rows))
       /\ (forall before c note after,
             layout_entries rows = before ++ (c, note) :: after -> c ∉ map fst after ->
             cn !! c = Some note))
  /\ (json asset = None ->
        updateKeyboardLayout a
        = Threw (TypeError "null is not iterable") (set_codesNotes (fun _ => Some ∅) a)).
Proof.
  intros Ha. split.
  - intros rows Hr. exists (codes_to_notes rows).
    split; [by apply (updateKeyboardLayout_loaded a asset)|]. apply codes_to_notes_spec.
  - intros Hr. unfold updateKeyboardLayout. unfold bind at 1. unfold modify at 1.
    unfold bind at 1. unfold get at 1. cbn [settings set_codesNotes].
    assert (Hl : layout_asset (layout (settings a)) (set_codesNotes (fun _ => Some ∅) a)
                 = Some asset) by exact Ha.
    by rewrite Hl, Hr.
Qed.

(** The loaded instrument: [KeyA] is mapped to C4. *)
Lemma updateKeyboardLayout_maps_the_layout_witness :
  exists cn,
    updateKeyboardLayout (app Demo.world)
    = Done tt (set_codesNotes (fun _ => Some cn) (app Demo.world))
    /\ cn !! "KeyA" = Some "C4".
Proof.
  destruct (updateKeyboardLayout_maps_the_layout (app Demo.world)
              {| path := "assets/layouts/default.json"; json := Some Demo.layout;
                 error := None |}) as [H _].
  - vm_compute. reflexivity.
  - destruct (H Demo.layout eq_refl) as (cn & Hrun & _ & Hlast).
    exists cn. split; [exact Hrun|].
    apply (Hlast [] "KeyA" "C4" [("KeyS", "D4")]); [reflexivity|].
    cbn [map fst]. rewrite not_elem_of_cons. split; [discriminate|apply not_elem_of_nil].
Defined.

(** *** The callback of [start] *)

Lemma render_loaded a chars digits asset rows :
  json (codesChars a) = Some chars ->
  json (notesDigits a) = Some digits ->
  layout_asset (Keyboard.layoutAsset (keyboard a)) a = Some asset ->
  json asset = Some rows ->
  exists k',
    render a = Done tt (set_logger (Logger.render (output (settings a)))
                          (set_keyboard (fun _ => k') a))
    /\ Keyboard.container k' = map (map fst) rows
    /\ Keyboard.marks k' = Keyboard.marks (keyboard a)
    /\ (forall c, c ∈ map fst (layout_entries rows) -> is_Some (Keyboard.keys k' !! c)).
Proof.
  intros Hc Hd Ha Hr. unfold render, onKeyboard. monad. rewrite Ha.
  destruct (draws_render (settings a) (codesChars a) (notesDigits a) asset chars rows
              (keyboard a) Hc ltac:(eauto) Hr) as (k' & -> & Hco & Hma & Hdom & _).
  exists k'. split; [reflexivity|]. split; [done|]. split; [done|].
  intros c Hin. apply Hdom. by left.
Qed.

(** X13. When the key labels, the digits and the chosen layout are loaded,
    the callback of [start] ends in the state RUNNING with the dialog
    hidden, the layout mapped and drawn row by row, a key on the page for
    every mapped code, and the log shown; the player and the assets are as
    they were. *)
Theorem start_callback_maps_and_draws (w : World) (v : value) (chars digits : Table)
    (asset : JSONAsset Rows) (rows : Rows) :
  json (codesChars (app w)) = Some chars ->
  json (notesDigits (app w)) = Some digits ->
  layout_asset (layout (settings (app w))) (app w) = Some asset ->
  json asset = Some rows ->
  Keyboard.layoutAsset (keyboard (app w)) = layout (settings (app w)) ->
  exists a',
    apply Start_loaded v w = Done VUndefined (set_app (fun _ => a') w)
    /\ state a' = RUNNING
    /\ dialogMask (page a') = false /\ loadingCard (page a') = false
    /\ waitingCard (page a') = false
    /\ (exists cn, codesNotes a' = Some cn
          /\ (forall c, is_Some (cn !! c) <-> c ∈ map fst (layout_entries rows))
          /\ (forall c, is_Some (cn !! c) -> is_Some (Keyboard.keys (keyboard a') !! c)))
    /\ Keyboard.container (keyboard a') = map (map fst) rows
    /\ Logger.textarea (logger a')
       = Logger.join (output (settings (app w))) (logger (app w)) +:+ "_"
    /\ Logger.tokens (logger a') = Logger.tokens (logger (app w))
    /\ player a' = player (app w)
    /\ notesBuffers a' = notesBuffers (app w).
Proof.
  intros Hc Hd Ha Hr Hk.
  set (a0 := set_page (page_dialogMask false)
               (set_page (page_waitingCard false)
                  (set_page (page_loadingCard false) (app w)))).
  pose proof (updateKeyboardLayout_loaded a0 asset rows Ha Hr) as Hcn.
  destruct (render_loaded (set_codesNotes (fun _ => Some (codes_to_notes rows)) a0)
              chars digits asset rows Hc Hd ltac:(cbn; by rewrite Hk) Hr)
    as (k' & Hrender & Hco & Hma & Hdom).
  eexists. split.
  { cbn [apply]. unfold onApp. monad. cbn [app set_app].
    fold a0. rewrite Hcn. cbn [app set_app]. rewrite Hrender. cbn [app set_app].
    reflexivity. }
  split; [reflexivity|]. split; [reflexivity|]. split; [reflexivity|].
  split; [reflexivity|]. split.
  { exists (codes_to_notes rows). split; [reflexivity|].
    destruct (codes_to_notes_spec rows) as [Hspec _].
    split; [exact Hspec|]. intros c Hs. apply Hdom. by apply Hspec. }
  split; [exact Hco|]. repeat split.
Qed.

(** The small instrument, its nine assets loaded. *)
Lemma start_callback_maps_and_draws_witness :
  exists a',
    apply Start_loaded VUndefined Demo.world
    = Done VUndefined (set_app (fun _ => a') Demo.world)
    /\ state a' = RUNNING.
Proof.
  destruct (start_callback_maps_and_draws Demo.world VUndefined Demo.chars Demo.digits
              {| path := "assets/layouts/default.json"; json := Some Demo.layout;
                 error := None |} Demo.layout)
    as (a' & Hrun & Hs & _); try (vm_compute; reflexivity).
  exists a'. split; [exact Hrun|exact Hs].
Defined.

(** X14. When the chosen layout is not loaded (its request failed), the
    callback of [start] throws after it has hidden the dialog: the page
    shows the instrument, with no key mapped, and the state is still what
    it was, so that the keys do nothing. *)
Theorem start_callback_without_layout (w : World) (v : value) (asset : JSONAsset Rows) :
  layout_asset (layout (settings (app w))) (app w) = Some asset ->
  json asset = None ->
  exists a',
    apply Start_loaded v w
    = Threw (TypeError "null is not iterable") (set_app (fun _ => a') w)
    /\ state a' = state (app w)
    /\ dialogMask (page a') = false /\ loadingCard (page a') = false
    /\ waitingCard (page a') = false
    /\ codesNotes a' = Some ∅
    /\ keyboard a' = keyboard (app w).
Proof.
  intros Ha Hr.
  set (a0 := set_page (page_dialogMask false)
               (set_page (page_waitingCard false)
                  (set_page (page_loadingCard false) (app w)))).
  assert (Hthrow : updateKeyboardLayout a0
            = Threw (TypeError "null is not iterable") (set_codesNotes (fun _ => Some ∅) a0)).
  { unfold updateKeyboardLayout. unfold bind at 1. unfold modify at 1.
    unfold bind at 1. unfold get at 1. cbn [settings set_codesNotes].
    assert (Hl : layout_asset (layout (settings a0)) (set_codesNotes (fun _ => Some ∅) a0)
                 = Some asset) by exact Ha.
    by rewrite Hl, Hr. }
  eexists. split.
  { cbn [apply]. unfold onApp. monad. cbn [app set_app].
    fold a0. rewrite Hthrow. cbn [app set_app]. reflexivity. }
  repeat split.
Qed.

(** The application as it is while it loads. *)
Lemma start_callback_without_layout_witness :
  exists a',
    apply Start_loaded VUndefined (default Demo.world Demo.started)
    = Threw (TypeError "null is not iterable")
        (set_app (fun _ => a') (default Demo.world Demo.started))
    /\ state a' = LOADING.
Proof.
  destruct (start_callback_without_layout (default Demo.world Demo.started) VUndefined
              (newAsset "assets/layouts/default.json"))
    as (a' & Hrun & Hs & _); try (vm_compute; reflexivity).
  exists a'. split; [exact Hrun|]. rewrite Hs. vm_compute. reflexivity.
Defined.

(** ** Logger *)

Section LoggerFacts.
Import Logger.

Lemma shown_log_step output l o :
  textarea l = join output l +:+ "_" ->
  textarea (log_step output l o) = join output (log_step output l o) +:+ "_".
Proof.
  intros H. destruct o as [text| | | | |[b|]]; cbn [log_step];
    unfold insert, space, return_, delete, clear, switch;
    try (destruct (enabled l); [reflexivity|exact H]); exact H.
Qed.

(** X15. Once the log is shown, the text area shows it after every
    operation of the logger: the entries joined, without a separator in the
    output mode [digit] and with a space otherwise, and an underscore as the
    cursor behind them. *)
Theorem textarea_shows_the_log (output : string) (ops : list log_op) (l : t) :
  let l' := log_run output ops (render output l) in
  textarea l' = join output l' +:+ "_".
Proof.
  intros l'. unfold l'. clear l'.
  assert (H0 : textarea (render output l) = join output (render output l) +:+ "_")
    by reflexivity.
  revert H0. generalize (render output l) as l0.
  induction ops as [|o ops IH]; intros l0 H0; [exact H0|].
  change (log_run output (o :: ops) l0) with (log_run output ops (log_step output l0 o)).
  apply IH. by apply shown_log_step.
Qed.

(** X16. With the logger switched on, [delete] takes back the last entry:
    after [insert], [space] or [return] it leaves the log as it was; on an
    empty log it leaves the log empty; and [clear] empties the log. Each of
    them shows the log again. *)
Theorem delete_takes_back_the_last_entry (output : string) (text : option string) (l : t) :
  enabled l = true ->
  delete output (insert output text l) = render output l
  /\ delete output (space output l) = render output l
  /\ delete output (return_ output l) = render output l
  /\ (tokens l = [] -> delete output l = render output l)
  /\ tokens (clear output l) = [] /\ textarea (clear output l) = "_".
Proof.
  intros He.
  assert (Hgen : forall t, delete output
            (render output (set_tokens (fun ts => ts ++ [t]) l)) = render output l).
  { intros t. unfold delete, render, set_tokens, set_textarea, join. cbn.
    rewrite He, removelast_last. by destruct l. }
  unfold insert, space, return_, clear. rewrite He.
  split; [apply Hgen|]. split; [apply Hgen|]. split; [apply Hgen|].
  split; [|done].
  intros Ht. unfold delete. rewrite He. destruct l as [en ts ta ch]. simpl in *.
  subst ts. reflexivity.
Qed.

(** A log of two notes. *)
Lemma delete_takes_back_the_last_entry_witness :
  delete "digit" (insert "digit" (Some "3")
    {| enabled := true; tokens := [Some "1"; Some "2"]; textarea := "12_"; checked := true |})
  = {| enabled := true; tokens := [Some "1"; Some "2"]; textarea := "12_"; checked := true |}.
Proof.
  apply (proj1 (delete_takes_back_the_last_entry "digit" (Some "3")
    {| enabled := true; tokens := [Some "1"; Some "2"]; textarea := "12_"; checked := true |}
    eq_refl)).
Defined.

End LoggerFacts.

(** ** The events *)

Lemma keeps_zoom {S T A} (I : S -> Prop) (J : T -> Prop) (proj : S -> T)
    (inj : T -> S -> S) (c : M T A) :
  keeps J c -> (forall s, I s -> J (proj s)) -> (forall t s, I s -> J t -> I (inj t s)) ->
  keeps I (zoom proj inj c).
Proof.
  intros Hc Hp Hi s Hs. unfold zoom. specialize (Hc (proj s) (Hp s Hs)).
  destruct (c (proj s)) as [a t|e t]; simpl in *; by apply Hi.
Qed.

Lemma keeps_pure {S A} (I : S -> Prop) (c : M S A) :
  (forall s, final (c s) = s) -> keeps I c.
Proof. intros H s Hs. by rewrite H. Qed.

Lemma same_app_refl a : same_app a a.
Proof. by repeat split. Qed.

Lemma note_of_pure c a : final (note_of c a) = a.
Proof. unfold note_of. monad. by destruct (codesNotes a). Qed.

Lemma note_text_pure n a : final (note_text n a) = a.
Proof.
  unfold note_text, table_get. monad.
  destruct (String.eqb (output (settings a)) "digit").
  - by destruct (json (notesDigits a)).
  - destruct (json (notesLily a)) as [ts|]; [|done].
    by destruct (ts !! output (settings a)).
Qed.

Lemma the_player_pure a : final (the_player a) = a.
Proof. unfold the_player. monad. by destruct (player a). Qed.

Lemma note_buffer_pure n a : final (note_buffer n a) = a.
Proof. unfold note_buffer. monad. by destruct (json (notesBuffers a)). Qed.

Lemma keeps_onKeyboard {A} a0 (c : M Keyboard.t A) : keeps (same_app a0) (onKeyboard c).
Proof.
  unfold onKeyboard. apply (keeps_zoom _ (fun _ => True)); [done|done|].
  intros t s Hs _. exact Hs.
Qed.

Lemma keeps_set_logger a0 f : keeps (same_app a0) (modify (set_logger f)).
Proof. apply keeps_modify. intros s Hs. exact Hs. Qed.

Lemma keeps_set_player a0 f : keeps (same_app a0) (modify (set_player f)).
Proof. apply keeps_modify. intros s Hs. exact Hs. Qed.

Lemma keeps_onKeyDown_running a0 e : keeps (same_app a0) (onKeyDown_running e).
Proof.
  unfold onKeyDown_running. apply keeps_bind; [apply keeps_get|]. intros a _ _.
  destruct (String.eqb (code e) "ArrowRight"); [apply keeps_set_logger|].
  destruct (String.eqb (code e) "ArrowDown"); [apply keeps_set_logger|].
  destruct (String.eqb (code e) "ArrowLeft"); [apply keeps_set_logger|].
  destruct (repeat e); [apply keeps_ret|].
  apply keeps_bind; [apply keeps_pure, note_of_pure|]. intros [note|] _ _; [|apply keeps_ret].
  apply keeps_bind; [apply keeps_onKeyboard|]. intros _ _ _.
  apply keeps_bind; [apply keeps_pure, note_text_pure|]. intros text _ _.
  apply keeps_bind; [apply keeps_set_logger|]. intros _ _ _.
  apply keeps_bind; [apply keeps_modify; by intros s Hs|]. intros _ _ _.
  apply keeps_bind; [apply keeps_pure, the_player_pure|]. intros p _ _.
  apply keeps_bind; [apply keeps_pure, note_buffer_pure|]. intros buf _ _.
  apply keeps_set_player.
Qed.

Lemma keeps_onKeyUp a0 e : keeps (same_app a0) (onKeyUp e).
Proof.
  unfold onKeyUp. apply keeps_bind; [apply keeps_get|]. intros a _ _.
  destruct (state a); try apply keeps_ret.
  destruct (repeat e); [apply keeps_ret|].
  apply keeps_bind; [apply keeps_pure, note_of_pure|]. intros [note|] _ _; [|apply keeps_ret].
  apply keeps_bind; [apply keeps_onKeyboard|]. intros _ _ _.
  apply keeps_bind; [apply keeps_pure, the_player_pure|]. intros p _ _.
  apply keeps_set_player.
Qed.

Lemma keeps_onVisibilityChange a0 v : keeps (same_app a0) (onVisibilityChange v).
Proof.
  unfold onVisibilityChange. apply keeps_bind; [apply keeps_get|]. intros a _ _.
  destruct (state a); try apply keeps_ret.
  destruct (negb (String.eqb v "visible")); [|apply keeps_ret].
  apply keeps_bind; [apply keeps_pure, the_player_pure|]. intros p _ _.
  apply keeps_bind; [apply keeps_set_player|]. intros _ _ _.
  apply keeps_onKeyboard.
Qed.

Lemma keeps_onApp {A} w0 (c : M App A) :
  keeps (same_app (app w0)) c ->
  keeps (fun w => same_app (app w0) (app w) /\ same_host w0 w) (onApp c).
Proof.
  intros Hc. unfold onApp.
  apply (keeps_zoom _ (same_app (app w0))); [exact Hc|by intros s [? ?]|].
  intros t s [_ Hh] Ht. split; [exact Ht|exact Hh].
Qed.

(** X17. In the state RUNNING a handler, whether it returns or throws,
    changes the logger, the keyboard, the player and the stored log, and
    nothing else: the state stays RUNNING, the page, the settings, the map
    from codes to notes and the assets are as they were, and nothing is
    requested, scheduled or reported. *)
Theorem running_handlers_keep_the_rest (ev : event) (w : World) :
  state (app w) = RUNNING ->
  let w' := final (handle ev w) in
  state (app w') = RUNNING /\ same_app (app w) (app w') /\ same_host w w'.
Proof.
  intros Hs w'.
  assert (H : same_app (app w) (app w') /\ same_host w w').
  { unfold w'. assert (H0 : same_app (app w) (app w) /\ same_host w w)
      by (split; [apply same_app_refl|by repeat split]).
    revert H0. generalize w at 2 4 6 8.
    change (keeps (fun w1 => same_app (app w) (app w1) /\ same_host w w1) (handle ev)).
    destruct ev as [e|e|v]; cbn [handle].
    - unfold onKeyDown. intros w1 H1. unfold bind, get.
      pose proof H1 as [(Hst & _) _]. rewrite Hst, Hs.
      exact (keeps_onApp w (onKeyDown_running e) (keeps_onKeyDown_running _ e) w1 H1).
    - apply keeps_onApp, keeps_onKeyUp.
    - apply keeps_onApp, keeps_onVisibilityChange. }
  split; [|exact H]. destruct H as [(Hst & _) _]. by rewrite Hst.
Qed.

(** A key of the loaded instrument goes down. *)
Lemma running_handlers_keep_the_rest_witness :
  state (app (final (handle (KeyDown {| code := "KeyA"; repeat := false |}) Demo.world)))
  = RUNNING.
Proof.
  apply (running_handlers_keep_the_rest (KeyDown {| code := "KeyA"; repeat := false |})
           Demo.world).
  vm_compute. reflexivity.
Defined.

(** X18. In the state RUNNING the keys ArrowRight, ArrowDown and ArrowLeft
    go to the logger, as [space], [return] and [delete], whether or not the
    event is a repeat and whatever the layout maps them to; the log is
    edited and the stored log is not written. *)
Theorem arrows_edit_the_log (w : World) (e : KeyboardEvent) :
  state (app w) = RUNNING ->
  arrow (code e) = true ->
  let output := output (settings (app w)) in
  let edit := if String.eqb (code e) "ArrowRight" then Logger.space output
              else if String.eqb (code e) "ArrowDown" then Logger.return_ output
              else Logger.delete output in
  handle (KeyDown e) w = Done tt (set_app (set_logger edit) w)
  /\ storage (app (set_app (set_logger edit) w)) = storage (app w)
  /\ player (app (set_app (set_logger edit) w)) = player (app w)
  /\ keyboard (app (set_app (set_logger edit) w)) = keyboard (app w).
Proof.
  intros Hs Ha output edit. split; [|done].
  cbn [handle]. unfold onKeyDown. monad. rewrite Hs. unfold onApp, zoom.
  unfold onKeyDown_running. monad. unfold edit, output.
  unfold arrow in Ha.
  destruct (String.eqb (code e) "ArrowRight"); [by destruct w|].
  destruct (String.eqb (code e) "ArrowDown"); [by destruct w|].
  destruct (String.eqb (code e) "ArrowLeft"); [by destruct w|].
  discriminate.
Qed.

(** ArrowLeft, held down, on the loaded instrument with a note logged. *)
Lemma arrows_edit_the_log_witness :
  log_after (handle (KeyDown {| code := "ArrowLeft"; repeat := true |}) Demo.held)
  = Some [].
Proof.
  rewrite (proj1 (arrows_edit_the_log Demo.held {| code := "ArrowLeft"; repeat := true |}
                    eq_refl eq_refl)).
  vm_compute. reflexivity.
Defined.

(** X19. Before the state RUNNING: while the application waits, a key that
    goes down, whatever the key, does what the start button does, and a
    key that goes up or a change of visibility does nothing; while it
    loads, no event does anything. Started, the application is in the
    state LOADING with a player, its dialog showing 9 assets to load, and
    the nine requests in flight. *)
Theorem events_before_running :
  (forall w e, state (app w) = WAITING -> handle (KeyDown e) w = start w)
  /\ (forall w e, state (app w) = WAITING -> handle (KeyUp e) w = Done tt w)
  /\ (forall w v, state (app w) = WAITING -> handle (VisibilityChange v) w = Done tt w)
  /\ (forall w ev, state (app w) = LOADING -> handle ev w = Done tt w)
  /\ (forall params stored checkbox,
        exists w',
          start (newWorld (newApp params stored checkbox)) = Done tt w'
          /\ state (app w') = LOADING
          /\ player (app w') = Some (AudioPlayer.constructor None)
          /\ tasks w' = requests
          /\ jobs w' = []
          /\ page (app w') = {| dialogMask := true; waitingCard := false; loadingCard := true;
                                errorText := false; totalText := "9"; loadedText := "";
                                errorMessage := "" |}
          /\ logger (app w') = logger (newApp params stored checkbox)).
Proof.
  split; [|split; [|split; [|split]]].
  - intros w e Hs. cbn [handle]. unfold onKeyDown. monad. by rewrite Hs.
  - intros w e Hs. cbn [handle]. unfold onApp, zoom, onKeyUp. monad. rewrite Hs.
    by destruct w.
  - intros w v Hs. cbn [handle]. unfold onApp, zoom, onVisibilityChange. monad. rewrite Hs.
    by destruct w.
  - intros w [e|e|v] Hs; cbn [handle].
    + unfold onKeyDown. monad. by rewrite Hs.
    + unfold onApp, zoom, onKeyUp. monad. rewrite Hs. by destruct w.
    + unfold onApp, zoom, onVisibilityChange. monad. rewrite Hs. by destruct w.
  - intros [d o l] stored checkbox. eexists. split; [vm_compute; reflexivity|].
    repeat split.
Qed.

(** ** Loading a [JSONAsset] *)

(** One turn of the event loop whose task is a request. *)
Lemma turn_fetch host fuel w path p rest :
  tasks w = Fetch path p :: rest ->
  turn host fuel 0 w =
    drain fuel (final (match serve host path with
                       | Some response => resolvePromise p (VResponse response)
                       | None => rejectPromise p (TypeError "Failed to fetch")
                       end (set_tasks (fun _ => rest) w))).
Proof.
  intros Ht. unfold turn. rewrite Ht. cbn [lookup list_lookup mbind option_bind complete].
  assert (Hd : set_tasks (delete 0%nat) w = set_tasks (fun _ => rest) w).
  { unfold set_tasks. by rewrite Ht. }
  rewrite Hd. by destruct (serve host path).
Qed.

(** Evaluate the world that a turn starts from, then the turn. *)
Ltac fetch_turn H :=
  erewrite turn_fetch by (vm_compute; reflexivity);
  rewrite H; vm_compute; reflexivity.

(** Evaluate the path in what the host is assumed to serve. *)
Ltac served H :=
  match type of H with
  | serve ?h ?path = _ =>
      let p := eval vm_compute in path in change path with p in H
  end.

Lemma turns_two host fuel w w1 w2 :
  turn host fuel 0 w = Some w1 -> turn host fuel 0 w1 = Some w2 ->
  turns host fuel [0%nat; 0%nat] w = Some w2.
Proof. intros H1 H2. cbn [turns]. rewrite H1. cbn. rewrite H2. reflexivity. Qed.

Section JSONAssetLoad.
Variable host : Host.
Variables (params : Params) (stored : option (list (option string))) (checkbox : bool).

Let fresh := newWorld (newApp params stored checkbox).

(** The request answered with a document. *)
Lemma JSONAsset_loaded a status doc :
  In a json_assets ->
  serve host (asset_path a (app fresh)) = Some {| ok := true; status := status; body := Some doc |} ->
  in_format a doc = true ->
  exists p w1 w3,
    JSONAsset_loadAsync a None (Some OnLoad) (Some OnError) fresh = Done p w1
    /\ promise_state p w1 = Pending
    /\ tasks w1 = [Fetch (asset_path a (app fresh)) 0]
    /\ turns host 64 [0%nat; 0%nat] w1 = Some w3
    /\ promise_state p w3 = Fulfilled VUndefined
    /\ holds a doc (app w3) /\ asset_error a (app w3) = None
    /\ loaded (app w3) = 1 /\ loadedText (page (app w3)) = "1"
    /\ errorText (page (app w3)) = false
    /\ tasks w3 = [] /\ console w3 = [].
Proof.
  subst fresh. destruct params as [d o l].
  intros Ha Hs Hf. cbn in Ha.
  repeat (destruct Ha as [<-|Ha]); try (by destruct Ha);
    served Hs; destruct doc; try discriminate Hf;
    (do 3 eexists; split; [vm_compute; reflexivity|];
     split; [vm_compute; reflexivity|]; split; [vm_compute; reflexivity|];
     split; [eapply turns_two; [fetch_turn Hs|vm_compute; reflexivity]|];
     repeat split).
Qed.
(** The request failed. *)
Lemma JSONAsset_failed a r :
  In a json_assets ->
  serve host (asset_path a (app fresh)) = r ->
  fails r ->
  exists p w1 w2,
    JSONAsset_loadAsync a None (Some OnLoad) (Some OnError) fresh = Done p w1
    /\ turn host 64 0 w1 = Some w2
    /\ promise_state p w2 = Fulfilled VUndefined
    /\ asset_error a (app w2) = Some (fetch_error r) /\ unloaded a (app w2)
    /\ errorText (page (app w2)) = true
    /\ errorMessage (page (app w2)) = toString (fetch_error r)
    /\ console w2 = [fetch_error r]
    /\ loaded (app w2) = 0 /\ tasks w2 = [].
Proof.
  subst fresh. destruct params as [d o l].
  intros Ha Hs Hf. cbn in Ha.
  destruct r as [[k st bd]|]; simpl in Hf; [subst k|];
    repeat (destruct Ha as [<-|Ha]); try (by destruct Ha);
    served Hs;
    (do 3 eexists; split; [vm_compute; reflexivity|];
     split; [fetch_turn Hs|]; evaluate).
Qed.

(** The request answered with a body that is no JSON. *)
Lemma JSONAsset_not_json a status :
  In a json_assets ->
  serve host (asset_path a (app fresh)) = Some {| ok := true; status := status; body := None |} ->
  exists p w1 w3,
    JSONAsset_loadAsync a None (Some OnLoad) (Some OnError) fresh = Done p w1
    /\ turns host 64 [0%nat; 0%nat] w1 = Some w3
    /\ promise_state p w3 = Fulfilled VUndefined
    /\ asset_error a (app w3) = Some (VError "SyntaxError" "Unexpected token")
    /\ unloaded a (app w3)
    /\ errorText (page (app w3)) = true
    /\ loaded (app w3) = 0 /\ tasks w3 = [].
Proof.
  subst fresh. destruct params as [d o l].
  intros Ha Hs. cbn in Ha.
  repeat (destruct Ha as [<-|Ha]); try (by destruct Ha);
    served Hs;
    (do 3 eexists; split; [vm_compute; reflexivity|];
     split; [eapply turns_two; [fetch_turn Hs|vm_compute; reflexivity]|];
     repeat split).
Qed.

(** X20. [JSONAsset.loadAsync] on a new page, for each of the eight JSON
    assets: the promise it returns is pending while the one request is in
    flight and is never rejected. Answered with a document, the asset
    holds the document and [onLoad] has counted it; answered with a status
    that is no success or not answered at all, or answered with a body that
    is no JSON, the asset holds the error, which is logged and shown, and
    no document; in each case the promise is fulfilled with undefined. *)
Theorem JSONAsset_loadAsync_settles (a : asset_id) :
  In a json_assets ->
  let path := asset_path a (app fresh) in
  (exists p w1,
     JSONAsset_loadAsync a None (Some OnLoad) (Some OnError) fresh = Done p w1
     /\ promise_state p w1 = Pending /\ tasks w1 = [Fetch path 0] /\ jobs w1 = []
     /\ app w1 = app fresh)
  /\ (forall status doc,
        serve host path = Some {| ok := true; status := status; body := Some doc |} ->
        in_format a doc = true ->
        exists p w1 w3,
          JSONAsset_loadAsync a None (Some OnLoad) (Some OnError) fresh = Done p w1
          /\ turns host 64 [0%nat; 0%nat] w1 = Some w3
          /\ promise_state p w3 = Fulfilled VUndefined
          /\ holds a doc (app w3) /\ asset_error a (app w3) = None
          /\ loaded (app w3) = 1 /\ loadedText (page (app w3)) = "1"
          /\ errorText (page (app w3)) = false /\ console w3 = [])
  /\ (forall r,
        serve host path = r -> fails r ->
        exists p w1 w2,
          JSONAsset_loadAsync a None (Some OnLoad) (Some OnError) fresh = Done p w1
          /\ turn host 64 0 w1 = Some w2
          /\ promise_state p w2 = Fulfilled VUndefined
          /\ asset_error a (app w2) = Some (fetch_error r) /\ unloaded a (app w2)
          /\ errorText (page (app w2)) = true
          /\ errorMessage (page (app w2)) = toString (fetch_error r)
          /\ console w2 = [fetch_error r] /\ loaded (app w2) = 0)
  /\ (forall status,
        serve host path = Some {| ok := true; status := status; body := None |} ->
        exists p w1 w3,
          JSONAsset_loadAsync a None (Some OnLoad) (Some OnError) fresh = Done p w1
          /\ turns host 64 [0%nat; 0%nat] w1 = Some w3
          /\ promise_state p w3 = Fulfilled VUndefined
          /\ asset_error a (app w3) = Some (VError "SyntaxError" "Unexpected token")
          /\ unloaded a (app w3)
          /\ errorText (page (app w3)) = true /\ loaded (app w3) = 0).
Proof.
  intros Ha path. split; [|split; [|split]].
  - subst path fresh. destruct params as [d o l]. cbn in Ha.
    repeat (destruct Ha as [<-|Ha]); try (by destruct Ha);
      (do 2 eexists; split; [vm_compute; reflexivity|]; repeat split).
  - intros status doc Hs Hf.
    destruct (JSONAsset_loaded a status doc Ha Hs Hf)
      as (p & w1 & w3 & H1 & _ & _ & H2 & H3 & H4 & H5 & H6 & H7 & H8 & _ & H9).
    exists p, w1, w3. done.
  - intros r Hs Hf.
    destruct (JSONAsset_failed a r Ha Hs Hf)
      as (p & w1 & w2 & H1 & H2 & H3 & H4 & H5 & H6 & H7 & H8 & H9 & _).
    exists p, w1, w2. done.
  - intros status Hs.
    destruct (JSONAsset_not_json a status Ha Hs)
      as (p & w1 & w3 & H1 & H2 & H3 & H4 & H5 & H6 & H7 & _).
    exists p, w1, w3. done.
Qed.
End JSONAssetLoad.

(** The digits of the small instrument, served. *)
Lemma JSONAsset_loadAsync_settles_witness :
  exists p w1 w3,
    JSONAsset_loadAsync NotesDigits None (Some OnLoad) (Some OnError)
      (newWorld (newApp Demo.params None true)) = Done p w1
    /\ turns (Demo.host None) 64 [0%nat; 0%nat] w1 = Some w3
    /\ promise_state p w3 = Fulfilled VUndefined
    /\ json (notesDigits (app w3)) = Some Demo.digits.
Proof.
  destruct (JSONAsset_loadAsync_settles (Demo.host None) Demo.params None true NotesDigits)
    as (_ & H & _).
  { cbn. auto. }
  destruct (H 200 (JTable Demo.digits) eq_refl eq_refl)
    as (p & w1 & w3 & H1 & H2 & H3 & H4 & _).
  exists p, w1, w3. split; [exact H1|]. split; [exact H2|]. split; [exact H3|exact H4].
Defined.

(** ** Base64Decoder.decodeAsync *)

Lemma delete_last {A} (l : list A) (x : A) : delete (length l) (l ++ [x]) = l.
Proof. induction l as [|y l IH]; [done|]. simpl. by rewrite IH. Qed.

(** X21. [decodeAsync] returns a new promise that is pending until the
    timer it has set runs; when it runs, with no other job waiting, the
    promise is fulfilled with what [decode] returns for the input. It is
    never rejected, and nothing else of the world changes. *)
Theorem decodeAsync_resolves_later (host : Host) (fuel : nat) (input : string) (w : World) :
  jobs w = [] ->
  exists p w1 w2 buffer,
    decodeAsync input w = Done p w1
    /\ p = length (promises w)
    /\ promise_state p w1 = Pending
    /\ tasks w1 = tasks w ++ [Timeout input p]
    /\ app w1 = app w /\ jobs w1 = []
    /\ Base64Decoder.decode input = Some buffer
    /\ turn host fuel (length (tasks w)) w1 = Some w2
    /\ promise_state p w2 = Fulfilled (VArrayBuffer buffer)
    /\ tasks w2 = tasks w /\ app w2 = app w /\ jobs w2 = []
    /\ (forall q, q <> p -> promise_state q w2 = promise_state q w).
Proof.
  intros Hj. destruct (length_decode input) as (buffer & Hb & _).
  destruct w as [a ps js ts als co]. simpl in Hj. subst js.
  eexists. eexists. eexists. exists buffer.
  split; [reflexivity|]. split; [reflexivity|].
  split.
  { unfold promise_state. simpl. by rewrite lookup_app_r, Nat.sub_diag by lia. }
  split; [reflexivity|]. split; [reflexivity|]. split; [reflexivity|]. split; [exact Hb|].
  assert (Hturn : turn host fuel (length ts)
            {| app := a; promises := ps ++ [{| settled := Pending; reactions := [] |}];
               jobs := []; tasks := ts ++ [Timeout input (length ps)]; alls := als;
               console := co |}
          = Some {| app := a;
                    promises := <[length ps := {| settled := Fulfilled (VArrayBuffer buffer);
                                                  reactions := [] |}]>
                                  (ps ++ [{| settled := Pending; reactions := [] |}]);
                    jobs := []; tasks := ts; alls := als; console := co |}).
  { unfold turn. cbn [tasks]. rewrite lookup_app_r, Nat.sub_diag by lia.
    cbn [lookup list_lookup mbind option_bind complete]. rewrite Hb.
    cbn [mbind option_bind resolvePromise]. unfold settle. monad.
    cbn [promises set_tasks]. rewrite lookup_app_r, Nat.sub_diag by lia.
    cbn [lookup list_lookup for_each final set_promises set_tasks promises tasks app jobs
         alls console].
    unfold ret, set_promises, set_tasks. cbn [final app promises jobs tasks alls console].
    rewrite delete_last. apply drain_done. reflexivity. }
  split; [exact Hturn|]. split.
  { unfold promise_state. cbn [promises].
    rewrite list_lookup_insert_eq; [done|]. rewrite length_app. simpl. lia. }
  split; [reflexivity|]. split; [reflexivity|]. split; [reflexivity|].
  intros q Hq. simpl in Hq. unfold promise_state. cbn [promises].
  rewrite list_lookup_insert_ne by done.
  destruct (decide (q < length ps)%nat) as [Hlt|Hge].
  - by rewrite lookup_app_l.
  - rewrite lookup_app_r by lia. rewrite (lookup_ge_None_2 ps q) by lia.
    destruct (q - length ps)%nat as [|k] eqn:E; [lia|]. done.
Qed.

(** The text [TWFu] on a new page. *)
Lemma decodeAsync_resolves_later_witness :
  exists p w1 w2,
    decodeAsync "TWFu" Demo.fresh = Done p w1
    /\ turn (Demo.host None) 0 0 w1 = Some w2
    /\ promise_state p w2 = Fulfilled (VArrayBuffer [77; 97; 110]).
Proof.
  destruct (decodeAsync_resolves_later (Demo.host None) 0 "TWFu" Demo.fresh eq_refl)
    as (p & w1 & w2 & buffer & H1 & _ & _ & _ & _ & _ & Hb & H2 & H3 & _).
  exists p, w1, w2. split; [exact H1|]. split; [exact H2|].
  rewrite H3. f_equal. f_equal.
  assert (Hd : Base64Decoder.decode "TWFu" = Some [77; 97; 110]) by (vm_compute; reflexivity).
  congruence.
Defined.

(** ** Settings *)

(** The keyboard drawn anew for the layout of the settings. *)
Lemma redraw_loaded a chars digits asset rows :
  json (codesChars a) = Some chars ->
  json (notesDigits a) = Some digits ->
  layout_asset (layout (settings a)) a = Some asset ->
  json asset = Some rows ->
  exists k',
    redraw a = Done tt (set_keyboard (fun _ => k')
                          (set_codesNotes (fun _ => Some (codes_to_notes rows)) a))
    /\ Keyboard.container k' = map (map fst) rows
    /\ Keyboard.marks k' = ∅
    /\ (forall c, is_Some (Keyboard.keys k' !! c) <-> c ∈ map fst (layout_entries rows)).
Proof.
  intros Hc Hd Ha Hr. unfold redraw. unfold bind at 1. unfold modify at 1.
  set (a1 := set_keyboard (fun _ => Keyboard.constructor (layout (settings a))) a).
  unfold bind at 1.
  rewrite (updateKeyboardLayout_loaded a1 asset rows Ha Hr).
  unfold bind at 1. unfold get at 1. unfold onKeyboard, zoom.
  cbn [settings codesChars notesDigits keyboard set_codesNotes a1 set_keyboard
       Keyboard.layoutAsset Keyboard.constructor].
  assert (Hl : layout_asset (layout (settings a))
                 (set_codesNotes (fun _ => Some (codes_to_notes rows)) a1) = Some asset)
    by exact Ha.
  rewrite Hl.
  destruct (draws_render (settings a) (codesChars a) (notesDigits a) asset chars rows
              (Keyboard.constructor (layout (settings a))) Hc ltac:(eauto) Hr)
    as (k' & -> & Hco & Hma & Hdom & _).
  exists k'. split; [reflexivity|]. split; [done|]. split; [done|].
  intros c. rewrite Hdom. simpl. rewrite lookup_empty. split; [|by left].
  intros [?|[? ?]]; done.
Qed.

Section SettingsFacts.
Import Settings.

Lemma get_cons other e sp :
  get other (e :: sp) = if String.eqb (fst e) other then Some (snd e) else get other sp.
Proof. unfold get. simpl. by destruct (String.eqb (fst e) other). Qed.

Lemma get_set_eq name value sp : get name (set name value sp) = Some value.
Proof.
  induction sp as [|e sp IH]; cbn [set].
  - rewrite get_cons. simpl. by rewrite String.eqb_refl.
  - destruct (String.eqb (fst e) name) eqn:E; rewrite get_cons; simpl.
    + by rewrite String.eqb_refl.
    + by rewrite E.
Qed.

Lemma get_filter_ne name other sp :
  other <> name ->
  get other (filter (fun e' => String.eqb (fst e') name = false) sp) = get other sp.
Proof.
  intros Hne. induction sp as [|e sp IH]; [done|].
  rewrite filter_cons. destruct (String.eqb_spec (fst e) name) as [He|He].
  - rewrite decide_False by done. rewrite get_cons.
    destruct (String.eqb_spec (fst e) other) as [Ho|Ho]; [congruence|]. exact IH.
  - rewrite decide_True by done. rewrite !get_cons.
    destruct (String.eqb (fst e) other); [done|]. exact IH.
Qed.

Lemma get_set_ne name other value sp :
  other <> name -> get other (set name value sp) = get other sp.
Proof.
  intros Hne. induction sp as [|e sp IH]; cbn [set].
  - rewrite get_cons. simpl. destruct (String.eqb_spec name other); [congruence|done].
  - destruct (String.eqb_spec (fst e) name) as [He|He]; rewrite !get_cons; simpl.
    + destruct (String.eqb_spec name other) as [?|_]; [congruence|].
      destruct (String.eqb_spec (fst e) other) as [?|_]; [congruence|].
      by apply get_filter_ne.
    + destruct (String.eqb (fst e) other); [done|]. exact IH.
Qed.

Lemma includes_In options v : In v options -> includes options (Some v) = true.
Proof.
  intros H. simpl. apply existsb_exists. exists v. split; [done|apply String.eqb_refl].
Qed.

Lemma param_set_eq name value sp options fallback :
  In value options -> param (set name value sp) options name fallback = value.
Proof.
  intros H. unfold param, has. rewrite get_set_eq. by rewrite includes_In.
Qed.

Lemma param_set_ne name other value sp options fallback :
  other <> name ->
  param (set name value sp) options other fallback = param sp options other fallback.
Proof. intros H. unfold param, has. by rewrite get_set_ne. Qed.

Lemma keeps_updateKeyboardLayout (I : App -> Prop) :
  (forall a f, I a -> I (set_codesNotes f a)) -> keeps I updateKeyboardLayout.
Proof.
  intros HI. unfold updateKeyboardLayout.
  apply keeps_bind; [by apply keeps_modify; intros; apply HI|]. intros _ _ _.
  apply keeps_bind; [apply keeps_get|]. intros a _ _.
  destruct (layout_asset (layout (settings a)) a) as [asset|]; [|apply keeps_throw].
  destruct (json asset) as [rows|]; [|apply keeps_throw].
  apply keeps_for_each. intros row. apply keeps_for_each. intros key.
  apply keeps_modify. intros; by apply HI.
Qed.

Lemma keeps_redraw (I : App -> Prop) :
  (forall a f, I a -> I (set_codesNotes f a)) ->
  (forall a f, I a -> I (set_keyboard f a)) ->
  keeps I redraw.
Proof.
  intros H1 H2. unfold redraw.
  apply keeps_bind; [apply keeps_modify; intros; by apply H2|]. intros _ _ _.
  apply keeps_bind; [by apply keeps_updateKeyboardLayout|]. intros _ _ _.
  apply keeps_bind; [apply keeps_get|]. intros a _ _.
  unfold onKeyboard. apply (keeps_zoom _ (fun _ => True)); [done|done|].
  intros t s Hs _. by apply H2.
Qed.

Lemma reload_choose o s i :
  offered o i ->
  constructor (location (the_settings s)) o = settings (application s)
  /\ searchParams (the_settings s) = location (the_settings s)
  /\ options (the_settings s) = o ->
  constructor (location (the_settings (choose s i))) o = settings (application (choose s i))
  /\ searchParams (the_settings (choose s i)) = location (the_settings (choose s i))
  /\ options (the_settings (choose s i)) = o.
Proof.
  intros Hi (Hc & Hq & Ho).
  destruct s as [[sp loc opts] a]. simpl in Hc, Hq, Ho. subst loc opts.
  assert (Hredraw : forall p sp' (a0 : App), settings a0 = p ->
            let s' := final (onApplication redraw
                        {| the_settings := {| searchParams := sp'; location := sp';
                                              options := o |};
                           application := a0 |}) in
            settings (application s') = p
            /\ the_settings s' = {| searchParams := sp'; location := sp'; options := o |}).
  { intros p sp' a0 Hp s'. unfold s', onApplication, zoom.
    pose proof (keeps_redraw (fun a => settings a = p) ltac:(done) ltac:(done) a0 Hp) as Hk.
    simpl. destruct (redraw a0) as [x a1|e a1]; simpl in *; done. }
  destruct i as [option|option|option]; simpl in Hi; cbn [choose].
  - assert (E : onDisplayInput option
                  {| the_settings := {| searchParams := sp; location := sp; options := o |};
                     application := a |}
                = onApplication redraw
                    {| the_settings := {| searchParams := set "display" option sp;
                                          location := set "display" option sp;
                                          options := o |};
                       application := set_settings (fun p =>
                         {| display := option; output := output p; layout := layout p |}) a |})
      by reflexivity.
    rewrite E.
    destruct (Hredraw _ (set "display" option sp)
                (set_settings (fun p =>
                   {| display := option; output := output p; layout := layout p |}) a)
                eq_refl) as [Hs Ht].
    rewrite Hs, Ht. cbn [location searchParams options]. split; [|done].
    unfold constructor. rewrite param_set_eq by done.
    rewrite !param_set_ne by discriminate.
    cbn [settings set_settings]. rewrite <- Hc. reflexivity.
  - unfold onOutputInput. monad. cbn. split; [|done].
    unfold constructor. rewrite param_set_eq by done.
    rewrite !param_set_ne by discriminate.
    cbn [settings set_settings]. rewrite <- Hc. reflexivity.
  - assert (E : onLayoutInput option
                  {| the_settings := {| searchParams := sp; location := sp; options := o |};
                     application := a |}
                = onApplication redraw
                    {| the_settings := {| searchParams := set "layout" option sp;
                                          location := set "layout" option sp;
                                          options := o |};
                       application := set_settings (fun p =>
                         {| display := display p; output := output p; layout := option |}) a |})
      by reflexivity.
    rewrite E.
    destruct (Hredraw _ (set "layout" option sp)
                (set_settings (fun p =>
                   {| display := display p; output := output p; layout := option |}) a)
                eq_refl) as [Hs Ht].
    rewrite Hs, Ht. cbn [location searchParams options]. split; [|done].
    unfold constructor. rewrite param_set_eq by done.
    rewrite !param_set_ne by discriminate.
    cbn [settings set_settings]. rewrite <- Hc. reflexivity.
Qed.

Lemma reload_run (sp : Query) (o : Options)
    (stored : option (list (option string))) (checkbox : bool) (inputs : list choice) :
  Forall (offered o) inputs ->
  let s := foldl choose (newSession sp o stored checkbox) inputs in
  constructor (location (the_settings s)) o = settings (application s).
Proof.
  intros Hin s.
  assert (H : constructor (location (the_settings s)) o = settings (application s)
              /\ searchParams (the_settings s) = location (the_settings s)
              /\ options (the_settings s) = o); [|by destruct H].
  unfold s. clear s.
  assert (H0 : constructor (location (the_settings (newSession sp o stored checkbox))) o
               = settings (application (newSession sp o stored checkbox))
               /\ searchParams (the_settings (newSession sp o stored checkbox))
                  = location (the_settings (newSession sp o stored checkbox))
               /\ options (the_settings (newSession sp o stored checkbox)) = o)
    by done.
  revert H0. generalize (newSession sp o stored checkbox) as s0.
  induction Hin as [|i inputs Hi Hin IH]; intros s0 H0; [exact H0|].
  cbn [foldl]. apply IH. by apply reload_choose.
Qed.

(** X22. The address of the page keeps up with the settings: whatever
    options are chosen in the three select elements, and whether or not the
    keyboard could be drawn again, the parameters that the constructor of
    [Settings] reads from the query of the address are the ones in use, so
    that a reload restores them. *)
Theorem reload_restores_the_settings (sp : Query) (o : Options)
    (stored : option (list (option string))) (checkbox : bool) (inputs : list choice) :
  Forall (offered o) inputs ->
  let s := foldl choose (newSession sp o stored checkbox) inputs in
  constructor (location (the_settings s)) o = settings (application s).
Proof. apply reload_run. Qed.

(** A page opened with a layout in its address; the output mode and then
    the layout are changed. *)
Lemma reload_restores_the_settings_witness :
  constructor
    (location (the_settings
       (foldl choose (newSession [("layout", "hhkb")] demo_options None true)
          [OutputInput "lily"; LayoutInput "jp"]))) demo_options
  = {| display := "digit"; output := "lily"; layout := "jp" |}.
Proof.
  rewrite (reload_restores_the_settings [("layout", "hhkb")] demo_options None true
             [OutputInput "lily"; LayoutInput "jp"]).
  - vm_compute. reflexivity.
  - constructor; [simpl; auto|constructor; [simpl; auto 10|constructor]].
Defined.

Lemma param_offered sp options name fallback :
  In (param sp options name fallback) options \/ param sp options name fallback = fallback.
Proof.
  unfold param, has. destruct (get name sp) as [v|]; simpl; [|by right].
  destruct (existsb (String.eqb v) options) eqn:E; [|by right].
  left. apply existsb_exists in E as (x & Hx & Heq). apply String.eqb_eq in Heq. by subst x.
Qed.

(** X23. The parameters in use are never anything but options of the
    select elements or the defaults: a value given in the address that is
    no option is replaced by [digit] (display, output) or [default]
    (layout), and the first value counts when a name is given twice. *)
Theorem settings_are_options_or_defaults (sp : Query) (o : Options)
    (stored : option (list (option string))) (checkbox : bool) (inputs : list choice) :
  Forall (offered o) inputs ->
  let p := settings (application (foldl choose (newSession sp o stored checkbox) inputs)) in
  (In (display p) (displayOptions o) \/ display p = "digit")
  /\ (In (output p) (outputOptions o) \/ output p = "digit")
  /\ (In (layout p) (layoutOptions o) \/ layout p = "default")
  /\ (inputs = [] ->
      forall v rest, sp = ("layout", v) :: rest ->
        layout p = if includes (layoutOptions o) (Some v) then v else "default").
Proof.
  intros Hin p. unfold p. rewrite <- (reload_run sp o stored checkbox inputs Hin).
  unfold constructor. cbn [display output layout].
  split; [apply param_offered|]. split; [apply param_offered|].
  split; [apply param_offered|].
  intros -> v rest ->. reflexivity.
Qed.

(** A layout in the address that the page does not offer. *)
Lemma settings_are_options_or_defaults_witness :
  layout (settings (application
    (newSession [("layout", "qwertz"); ("layout", "jp")] demo_options None true)))
  = "default".
Proof.
  destruct (settings_are_options_or_defaults [("layout", "qwertz"); ("layout", "jp")]
              demo_options None true [] ltac:(constructor))
    as (_ & _ & _ & H).
  exact (H eq_refl "qwertz" [("layout", "jp")] eq_refl).
Defined.

(** *** A choice of layout *)


(** X24. A layout chosen while the instrument runs, the labels and the
    layout loaded: the keyboard is replaced by a new one, drawn for the
    chosen layout, on which no key is held, and the codes are mapped to the
    notes of that layout; the player is not touched, so that a note that
    sounds goes on sounding, and neither are the log and the state. *)
Theorem layout_input_redraws (s : Session) (option : string) (chars digits : Table)
    (asset : JSONAsset Rows) (rows : Rows) :
  let a := application s in
  json (codesChars a) = Some chars ->
  json (notesDigits a) = Some digits ->
  layout_asset option a = Some asset ->
  json asset = Some rows ->
  exists s',
    onLayoutInput option s = Done tt s'
    /\ layout (settings (application s')) = option
    /\ get "layout" (location (the_settings s')) = Some option
    /\ (exists cn, codesNotes (application s') = Some cn
          /\ (forall c, is_Some (cn !! c) <-> c ∈ map fst (layout_entries rows))
          /\ (forall c, is_Some (cn !! c) <->
                        is_Some (Keyboard.keys (keyboard (application s')) !! c)))
    /\ Keyboard.container (keyboard (application s')) = map (map fst) rows
    /\ (forall c, Keyboard.pressed c (keyboard (application s')) = false)
    /\ player (application s') = player a
    /\ logger (application s') = logger a
    /\ state (application s') = state a.
Proof.
  intros a Hc Hd Ha Hr. destruct s as [[sp loc opts] a0]. simpl in a. subst a.
  set (a1 := set_settings (fun p =>
               {| display := display p; output := output p; layout := option |}) a0).
  destruct (redraw_loaded a1 chars digits asset rows Hc Hd Ha Hr)
    as (k' & Hrun & Hco & Hma & Hdom).
  assert (E : onLayoutInput option
                {| the_settings := {| searchParams := sp; location := loc; options := opts |};
                   application := a0 |}
              = onApplication redraw
                  {| the_settings := {| searchParams := set "layout" option sp;
                                        location := set "layout" option sp;
                                        options := opts |};
                     application := a1 |}) by reflexivity.
  rewrite E. unfold onApplication, zoom. cbn [application]. rewrite Hrun.
  eexists. split; [reflexivity|].
  cbn. split; [reflexivity|]. split; [apply get_set_eq|]. split.
  { exists (codes_to_notes rows). split; [reflexivity|].
    destruct (codes_to_notes_spec rows) as [Hspec _].
    split; [exact Hspec|]. intros c. by rewrite Hspec, Hdom. }
  split; [exact Hco|]. split; [|done].
  intros c. unfold Keyboard.pressed. by rewrite Hma, lookup_empty.
Qed.

(** The loaded instrument with the key [KeyA] held. *)
Lemma layout_input_redraws_witness :
  exists s',
    onLayoutInput "default"
      {| the_settings := {| searchParams := []; location := [];
                            options := demo_options |};
         application := app Demo.held |} = Done tt s'
    /\ Keyboard.pressed "KeyA" (keyboard (application s')) = false
    /\ player (application s') = player (app Demo.held).
Proof.
  destruct (layout_input_redraws
              {| the_settings := {| searchParams := []; location := [];
                                    options := demo_options |};
                 application := app Demo.held |} "default" Demo.chars Demo.digits
              {| path := "assets/layouts/default.json"; json := Some Demo.layout;
                 error := None |} Demo.layout)
    as (s' & H1 & _ & _ & _ & _ & H2 & H3 & _); try (vm_compute; reflexivity).
  exists s'. split; [exact H1|]. split; [apply H2|exact H3].
Defined.

End SettingsFacts.

(** ** One sample of the bank *)

Lemma turns_cons host fuel n rest w w1 :
  turn host fuel n w = Some w1 ->
  turns host fuel (n :: rest) w = turns host fuel rest w1.
Proof. intros H. cbn [turns]. by rewrite H. Qed.

(** One turn of the event loop whose task is the timer of [decodeAsync],
    and one whose task is [decodeAudioData]. *)
Lemma turn_timeout host fuel w input p rest buffer :
  tasks w = Timeout input p :: rest ->
  Base64Decoder.decode input = Some buffer ->
  turn host fuel 0 w =
    drain fuel (final (resolvePromise p (VArrayBuffer buffer) (set_tasks (fun _ => rest) w))).
Proof.
  intros Ht Hb. unfold turn. rewrite Ht.
  cbn [lookup list_lookup mbind option_bind complete]. rewrite Hb.
  cbn [mbind option_bind].
  assert (Hd : set_tasks (delete 0%nat) w = set_tasks (fun _ => rest) w).
  { unfold set_tasks. by rewrite Ht. }
  by rewrite Hd.
Qed.

Lemma turn_decodeAudio host fuel w bytes p rest :
  tasks w = DecodeAudio (VArrayBuffer bytes) p :: rest ->
  turn host fuel 0 w =
    drain fuel (final ((if decodable host bytes
                        then resolvePromise p (VAudioBuffer bytes)
                        else rejectPromise p
                               (VError "EncodingError" "Unable to decode audio data"))
                         (set_tasks (fun _ => rest) w))).
Proof.
  intros Ht. unfold turn. rewrite Ht.
  cbn [lookup list_lookup mbind option_bind complete].
  assert (Hd : set_tasks (delete 0%nat) w = set_tasks (fun _ => rest) w).
  { unfold set_tasks. by rewrite Ht. }
  rewrite Hd. by destruct (decodable host bytes).
Qed.

Section OneSample.
Variable accepts : list Z -> bool.
Variables (params : Params) (stored : option (list (option string))) (checkbox : bool).
Variable s : string.

Let host := with_decoder accepts (Demo.host (okay (JBank [("C4", s)]))).
Let fresh := newWorld (set_player (fun _ => Some (AudioPlayer.constructor None))
                         (newApp params stored checkbox)).

(** X25. A bank of one sample, whatever its text: the load promise is
    fulfilled and the asset counted two turns after the request, while the
    entry is still the encoded string.  The text behind the header of the
    data URI is Base64-decoded and given to the audio decoder; two turns
    later the entry is the decoded sample if the decoder accepts the bytes,
    and is left the encoded string if it rejects them, and then no error is
    stored, logged or shown. *)
Theorem sample_is_decoded_or_left_encoded :
  exists p w1 buffer w2 w4,
    AudioAsset_loadAsync None (Some OnLoad) (Some OnError) fresh = Done p w1
    /\ Base64Decoder.decode (substring_from OGG_HEADER_LENGTH s) = Some buffer
    /\ turns host 64 (in_order 2) w1 = Some w2
    /\ promise_state p w2 = Fulfilled VUndefined /\ loaded (app w2) = 1
    /\ json (notesBuffers (app w2)) = Some [("C4", VString s)]
    /\ turns host 64 (in_order 2) w2 = Some w4
    /\ json (notesBuffers (app w4))
       = Some [("C4", if accepts buffer then VAudioBuffer buffer else VString s)]
    /\ error (notesBuffers (app w4)) = None
    /\ console w4 = [] /\ errorText (page (app w4)) = false
    /\ loaded (app w4) = 1 /\ tasks w4 = [].
Proof.
  subst host fresh. destruct params as [d o l].
  destruct (length_decode (substring_from OGG_HEADER_LENGTH s)) as (buffer & Hb & _).
  destruct (accepts buffer) eqn:Ea;
    (eexists; eexists; exists buffer; eexists; eexists;
     split; [vm_compute; reflexivity|]; split; [exact Hb|];
     split; [vm_compute; reflexivity|];
     split; [vm_compute; reflexivity|]; split; [vm_compute; reflexivity|];
     split; [vm_compute; reflexivity|];
     split;
     [ change (in_order 2) with [0%nat; 0%nat];
       erewrite turns_cons; cycle 1;
       [ erewrite (turn_timeout _ _ _ (substring_from OGG_HEADER_LENGTH s)); cycle 1;
         [vm_compute; reflexivity|exact Hb|vm_compute; reflexivity]
       | cbn [turns]; erewrite turn_decodeAudio by (vm_compute; reflexivity);
         cbn [decodable with_decoder]; rewrite Ea; vm_compute; reflexivity ]
     | rewrite Ea; repeat split ]).
Qed.
End OneSample.
